(** * Statistics calculators of [bioimageio.core.stat_calculators]

    A shallow embedding of the accumulator classes ([MeanCalculator],
    [MeanVarStdCalculator], the percentile calculators), of the planner
    [get_measure_calculators] and of the coordinator [StatsCalculator].

    Numbers are exact rationals ([Qc]); the floating-point width of an array
    is kept as a tag ([DType]) that follows numpy's promotion rules.  Python
    dictionaries and sets are stdpp's [gmap] and [gset]. *)

From Stdlib Require Import QArith Qcanon Qround Field.
From stdpp Require Import base gmap strings list fin_maps countable sorting.

Local Open Scope nat_scope.

(** ** Identifiers and measures *)

Abbreviation AxisId := string (only parsing).
Abbreviation TensorId := string (only parsing).
Abbreviation Axes := (option (list string)) (only parsing).

(** Modelled from the spec: the measure classes of [stat_measures.py], which
    [stat_calculators.py] imports but which is not among the sources.  Every
    class carries [tensor_id] and [axes]; the percentile classes also carry the
    rank [n].  Instances are hashable and compared field by field. *)
Inductive Measure :=
| SampleMean (tensor_id : TensorId) (axes : Axes)
| SampleStd (tensor_id : TensorId) (axes : Axes)
| SampleVar (tensor_id : TensorId) (axes : Axes)
| SamplePercentile (tensor_id : TensorId) (axes : Axes) (n : Qc)
| DatasetMean (tensor_id : TensorId) (axes : Axes)
| DatasetStd (tensor_id : TensorId) (axes : Axes)
| DatasetVar (tensor_id : TensorId) (axes : Axes)
| DatasetPercentile (tensor_id : TensorId) (axes : Axes) (n : Qc).

Definition m_tensor_id (m : Measure) : TensorId :=
  match m with
  | SampleMean t _ | SampleStd t _ | SampleVar t _ | SamplePercentile t _ _
  | DatasetMean t _ | DatasetStd t _ | DatasetVar t _
  | DatasetPercentile t _ _ => t
  end.

Definition m_axes (m : Measure) : Axes :=
  match m with
  | SampleMean _ a | SampleStd _ a | SampleVar _ a | SamplePercentile _ a _
  | DatasetMean _ a | DatasetStd _ a | DatasetVar _ a
  | DatasetPercentile _ a _ => a
  end.

(** [isinstance(m, DatasetMeasureBase)] *)
Definition is_dataset_measure (m : Measure) : bool :=
  match m with
  | DatasetMean _ _ | DatasetStd _ _ | DatasetVar _ _
  | DatasetPercentile _ _ _ => true
  | _ => false
  end.

Definition Measure_tag (m : Measure) : nat :=
  match m with
  | SampleMean _ _ => 0 | SampleStd _ _ => 1 | SampleVar _ _ => 2
  | SamplePercentile _ _ _ => 3
  | DatasetMean _ _ => 4 | DatasetStd _ _ => 5 | DatasetVar _ _ => 6
  | DatasetPercentile _ _ _ => 7
  end.

Definition Measure_rank (m : Measure) : option Qc :=
  match m with
  | SamplePercentile _ _ n | DatasetPercentile _ _ n => Some n
  | _ => None
  end.

Definition Measure_to_tuple (m : Measure)
  : nat * string * option (list string) * option Qc :=
  (Measure_tag m, m_tensor_id m, m_axes m, Measure_rank m).

Definition Measure_of_tuple
  (x : nat * string * option (list string) * option Qc) : option Measure :=
  let '(tag, t, a, r) := x in
  match tag, r with
  | 0, None => Some (SampleMean t a)
  | 1, None => Some (SampleStd t a)
  | 2, None => Some (SampleVar t a)
  | 3, Some n => Some (SamplePercentile t a n)
  | 4, None => Some (DatasetMean t a)
  | 5, None => Some (DatasetStd t a)
  | 6, None => Some (DatasetVar t a)
  | 7, Some n => Some (DatasetPercentile t a n)
  | _, _ => None
  end.

Lemma Measure_of_to_tuple m : Measure_of_tuple (Measure_to_tuple m) = Some m.
Proof. by destruct m. Qed.

#[global] Instance Measure_eq_dec : EqDecision Measure.
Proof.
  refine (fun x y =>
    cast_if (decide (Measure_to_tuple x = Measure_to_tuple y)));
    abstract (first
      [ intros; apply (inj Some);
        rewrite <- !Measure_of_to_tuple; congruence
      | congruence ]).
Defined.

#[global] Instance Measure_countable : Countable Measure :=
  inj_countable Measure_to_tuple Measure_of_tuple Measure_of_to_tuple.

(** ** Exceptions and warnings

    A call either returns or raises; [warnings.warn] appends to the log of the
    warnings issued so far, which every computation threads through.  The
    model does not follow an object after an exception has escaped from one of
    its methods. *)

Inductive Exception :=
| KeyError
| ValueError
| AssertionError
| IndexError
| TypeError.

Inductive result (A : Type) :=
| Ok (a : A)
| Raise (e : Exception).
Arguments Ok {A} a.
Arguments Raise {A} e.

Definition Py (A : Type) : Type := list string -> result A * list string.

Definition Py_ret {A} (a : A) : Py A := fun w => (Ok a, w).

Definition Py_bind {A B} (c : Py A) (k : A -> Py B) : Py B :=
  fun w =>
    match c w with
    | (Ok a, w') => k a w'
    | (Raise e, w') => (Raise e, w')
    end.

Definition raise {A} (e : Exception) : Py A := fun w => (Raise e, w).

Definition warn (msg : string) : Py unit := fun w => (Ok tt, w ++ [msg]).

Definition assert_ (b : bool) : Py unit :=
  if b then Py_ret tt else raise AssertionError.

#[global] Instance Py_mret : MRet Py := @Py_ret.
#[global] Instance Py_mbind : MBind Py := fun A B k c => Py_bind c k.

(** [for x in l: body], threading the loop state [s] *)
Fixpoint for_each {A S} (l : list A) (body : A -> S -> Py S) (s : S) : Py S :=
  match l with
  | [] => mret s
  | x :: l' => s' ← body x s; for_each l' body s'
  end.

(** ** Array element types

    numpy's dtypes as tags.  Values are exact rationals whatever the tag; the
    tag records at which width numpy would carry them. *)

Inductive DType :=
| bool_
| uint8 | uint16 | uint32 | uint64
| int8 | int16 | int32 | int64
| float16 | float32 | float64.

#[global] Instance DType_eq_dec : EqDecision DType.
Proof. solve_decision. Defined.

Definition is_float (dt : DType) : bool :=
  match dt with float16 | float32 | float64 => true | _ => false end.

(** the smallest float type that holds every value of [dt] *)
Definition to_float (dt : DType) : DType :=
  match dt with
  | bool_ | uint8 | int8 => float16
  | uint16 | int16 => float32
  | uint32 | int32 | uint64 | int64 => float64
  | float16 => float16
  | float32 => float32
  | float64 => float64
  end.

Definition float_max (a b : DType) : DType :=
  match a, b with
  | float64, _ | _, float64 => float64
  | float32, _ | _, float32 => float32
  | _, _ => float16
  end.

Definition int_bits (dt : DType) : nat :=
  match dt with
  | uint8 | int8 => 8
  | uint16 | int16 => 16
  | uint32 | int32 => 32
  | uint64 | int64 => 64
  | _ => 0
  end.

Definition is_signed (dt : DType) : bool :=
  match dt with int8 | int16 | int32 | int64 => true | _ => false end.

Definition signed_of_bits (b : nat) : DType :=
  if b <=? 8 then int8 else if b <=? 16 then int16
  else if b <=? 32 then int32 else if b <=? 64 then int64 else float64.

Definition unsigned_of_bits (b : nat) : DType :=
  if b <=? 8 then uint8 else if b <=? 16 then uint16
  else if b <=? 32 then uint32 else uint64.

(** [np.result_type] of two array dtypes *)
Definition result_type (a b : DType) : DType :=
  if is_float a || is_float b then float_max (to_float a) (to_float b)
  else match a, b with
       | bool_, _ => b
       | _, bool_ => a
       | _, _ =>
           if Bool.eqb (is_signed a) (is_signed b) then
             (if is_signed a then signed_of_bits else unsigned_of_bits)
               (Nat.max (int_bits a) (int_bits b))
           else
             let s := if is_signed a then int_bits a else int_bits b in
             let u := if is_signed a then int_bits b else int_bits a in
             if u <? s then signed_of_bits s else signed_of_bits (2 * u)
       end.

(** dtype of [mean] and true division results: inexact types are kept,
    integers and booleans become [float64] *)
Definition inexact_dtype (dt : DType) : DType :=
  if is_float dt then dt else float64.

(** ** Labelled arrays

    An [xarray.DataArray] without coordinates: dimension names, one size per
    dimension, a dtype and the elements in row-major order. *)

Record DataArray := mkDataArray {
  dims : list AxisId;
  shape : list nat;
  dtype : DType;
  values : list Qc
}.

(** [np.prod] of a tuple of sizes *)
Definition np_prod (sh : list nat) : nat := foldr Nat.mul 1 sh.

(** every index tuple of an array of shape [sh], in row-major order
    (the order of [itertools.product] over the ranges of the sizes) *)
Fixpoint ndindex (sh : list nat) : list (list nat) :=
  match sh with
  | [] => [[]]
  | n :: sh' => i ← seq 0 n; cons i <$> ndindex sh'
  end.

(** position of the element at [idx] in the row-major buffer *)
Fixpoint ravel (sh idx : list nat) : nat :=
  match sh, idx with
  | _ :: sh', i :: idx' => i * np_prod sh' + ravel sh' idx'
  | _, _ => 0
  end.

Definition item (t : DataArray) (idx : list nat) : Qc :=
  default 0%Qc (values t !! ravel (shape t) idx).

(** the array whose element at [idx] is [f idx] *)
Definition build (ds : list AxisId) (sh : list nat) (dt : DType)
    (f : list nat -> Qc) : DataArray :=
  mkDataArray ds sh dt (f <$> ndindex sh).

(** [tensor.size] *)
Definition size (t : DataArray) : nat := np_prod (shape t).

(** [tensor.astype(dt, copy=False)] *)
Definition astype (dt : DType) (t : DataArray) : DataArray :=
  mkDataArray (dims t) (shape t) dt (values t).

(** elementwise application of a unary function, result dtype [dt] *)
Definition map_values (f : Qc -> Qc) (dt : DType) (t : DataArray) : DataArray :=
  mkDataArray (dims t) (shape t) dt (f <$> values t).

Definition wf_array (t : DataArray) : Prop :=
  NoDup (dims t) /\ length (shape t) = length (dims t) /\
  length (values t) = np_prod (shape t).

(** *** Reductions over named dimensions *)

(** is dimension [d] reduced by [dim=axes]?  [None] reduces every dimension *)
Definition reduced (axes : Axes) (d : AxisId) : bool :=
  match axes with
  | None => true
  | Some l => bool_decide (d ∈ l)
  end.

Definition flags (axes : Axes) (t : DataArray) : list bool :=
  reduced axes <$> dims t.

(** the entries of [l] at the positions that are not reduced *)
Fixpoint kept {A} (fl : list bool) (l : list A) : list A :=
  match fl, l with
  | r :: fl', x :: l' => if r then kept fl' l' else x :: kept fl' l'
  | _, _ => []
  end.

(** the entries of [l] at the reduced positions *)
Fixpoint dropped {A} (fl : list bool) (l : list A) : list A :=
  match fl, l with
  | r :: fl', x :: l' => if r then x :: dropped fl' l' else dropped fl' l'
  | _, _ => []
  end.

(** the elements that are collapsed into the output cell [oidx]: every
    index whose kept coordinates are [oidx], in row-major order *)
Fixpoint group {V} (sh : list nat) (fl : list bool) (oidx : list nat)
    (f : list nat -> V) : list V :=
  match sh, fl with
  | n :: sh', r :: fl' =>
      if r then i ← seq 0 n; group sh' fl' oidx (fun tl => f (i :: tl))
      else match oidx with
           | o :: oidx' => group sh' fl' oidx' (fun tl => f (o :: tl))
           | [] => []
           end
  | _, _ => [f []]
  end.

Definition Qc_of_nat (n : nat) : Qc := Q2Qc (inject_Z (Z.of_nat n)).

Definition sum_list (l : list Qc) : Qc := foldr Qcplus 0%Qc l.

Definition mean_list (l : list Qc) : Qc :=
  (sum_list l / Qc_of_nat (length l))%Qc.

(** [quantile] takes [axes] as a set of names: every name is a dimension
    of the array, otherwise xarray raises [ValueError]; a name given twice is
    harmless *)
Definition check_dims (axes : Axes) (t : DataArray) : Py unit :=
  match axes with
  | None => mret tt
  | Some l =>
      if forallb (fun a => bool_decide (a ∈ dims t)) l then mret tt
      else raise ValueError
  end.

(** a reduction over [axes] names dimensions of the array, each of them
    once: a name that is not a dimension and a name given twice
    ([duplicate value in 'axis']) both raise [ValueError] *)
Definition check_axes (axes : Axes) (t : DataArray) : Py unit :=
  match axes with
  | None => mret tt
  | Some l =>
      if forallb (fun a => bool_decide (a ∈ dims t)) l
         && bool_decide (NoDup l)
      then mret tt
      else raise ValueError
  end.

(** [tensor.<op>(dim=axes)] for a reduction [op] given on the list of the
    collapsed elements *)
Definition reduce (op : list Qc -> Qc) (dt : DType) (axes : Axes)
    (t : DataArray) : Py DataArray :=
  check_axes axes t;;
  mret (build (kept (flags axes t) (dims t)) (kept (flags axes t) (shape t)) dt
          (fun oidx => op (group (shape t) (flags axes t) oidx (item t)))).

(** [tensor.mean(dim=axes)] *)
Definition mean (axes : Axes) (t : DataArray) : Py DataArray :=
  reduce mean_list (inexact_dtype (dtype t)) axes t.

(** [tensor.sum(dim=axes)] *)
Definition sum (axes : Axes) (t : DataArray) : Py DataArray :=
  reduce sum_list (dtype t) axes t.

(** *** Arithmetic with broadcasting by dimension name *)

Fixpoint index_of (d : AxisId) (ds : list AxisId) : option nat :=
  match ds with
  | [] => None
  | d' :: ds' => if decide (d = d') then Some 0 else S <$> index_of d ds'
  end.

(** size of dimension [d] in [t] ([tensor.sizes[d]]) *)
Definition size_of (t : DataArray) (d : AxisId) : option nat :=
  k ← index_of d (dims t); shape t !! k.

(** the coordinates of [idx] (an index over [ds_out]) along [ds] *)
Definition proj (ds ds_out : list AxisId) (idx : list nat) : list nat :=
  (fun d => default 0 (k ← index_of d ds_out; idx !! k)) <$> ds.

(** the dimensions of [b] that [a] does not have, with their sizes *)
Fixpoint extra_dims (a : list AxisId) (ds : list AxisId) (sh : list nat)
  : list (AxisId * nat) :=
  match ds, sh with
  | d :: ds', n :: sh' =>
      if bool_decide (d ∈ a) then extra_dims a ds' sh'
      else (d, n) :: extra_dims a ds' sh'
  | _, _ => []
  end.

(** the dimensions that both operands have agree in size *)
Definition sizes_agree (a b : DataArray) : bool :=
  forallb (fun d => match size_of a d, size_of b d with
                    | Some n, Some m => bool_decide (n = m)
                    | _, _ => true
                    end) (dims a).

(** [a <op> b]: the result has the dimensions of [a] followed by those only
    [b] has; a shared dimension of different sizes is a [ValueError] *)
Definition binop (f : Qc -> Qc -> Qc) (a b : DataArray) : Py DataArray :=
  if sizes_agree a b then
    let ex := extra_dims (dims a) (dims b) (shape b) in
    let ds := dims a ++ ex.*1 in
    mret (build ds (shape a ++ ex.*2) (result_type (dtype a) (dtype b))
            (fun idx => f (item a (proj (dims a) ds idx))
                          (item b (proj (dims b) ds idx))))
  else raise ValueError.

(** [x * t] and [t / x] for a Python number [x]: the array keeps its dtype
    under multiplication, true division makes integers [float64] *)
Definition scalar_mul (x : Qc) (t : DataArray) : DataArray :=
  map_values (Qcmult x) (dtype t) t.

Definition div_scalar (t : DataArray) (x : Qc) : DataArray :=
  map_values (fun v => (v / x)%Qc) (inexact_dtype (dtype t)) t.

(** [t ** 2] *)
Definition square (t : DataArray) : DataArray :=
  map_values (fun v => (v * v)%Qc) (dtype t) t.

(** [int(np.prod(a) / np.prod(b))]: the quotient of two element counts; a
    zero divisor gives [nan] in numpy (the dividend is zero as well, [b] being
    a part of [a]) and [int(nan)] raises [ValueError] *)
Definition int_ratio (a b : nat) : Py nat :=
  if b =? 0 then raise ValueError else mret (a / b).

(** *** Quantiles *)

(** a signed [bits]-bit integer wraps around *)
Definition wrap_signed (bits : nat) (z : Z) : Z :=
  ((z + 2 ^ (Z.of_nat bits - 1)) mod 2 ^ Z.of_nat bits
   - 2 ^ (Z.of_nat bits - 1))%Z.

(** [np.subtract(x, y)] on elements of type [dt]: exact on floats, at the
    width of the type on integers *)
Definition np_subtract (dt : DType) (x y : Qc) : Qc :=
  if is_float dt then (x - y)%Qc
  else if is_signed dt
  then Q2Qc (inject_Z (wrap_signed (int_bits dt) (Qfloor (x - y)%Qc)))
  else Q2Qc (inject_Z (Qfloor (x - y)%Qc mod 2 ^ Z.of_nat (int_bits dt))).

(** numpy's [_lerp(a, b, t)]: the difference is taken at the element type,
    the interpolation starts from [a] below [t = 0.5] and from [b] from
    there on *)
Definition lerp (dt : DType) (a b t : Qc) : Qc :=
  let diff_b_a := np_subtract dt b a in
  if bool_decide (Q2Qc (1 # 2) ≤ t)%Qc then (b - diff_b_a * (1 - t))%Qc
  else (a + diff_b_a * t)%Qc.

(** numpy's default (linear) quantile of the elements [l] of type [dt] at
    [q] in [0,1] *)
Definition quantile_list (dt : DType) (q : Qc) (l : list Qc) : Qc :=
  let s := merge_sort Qcle l in
  let n := length s in
  let h := (q * Qc_of_nat (n - 1))%Qc in
  let lo := Z.to_nat (Qfloor h) in
  let hi := Nat.min (lo + 1) (n - 1) in
  let g := (h - Qc_of_nat lo)%Qc in
  lerp dt (nth lo s 0%Qc) (nth hi s 0%Qc) g.

Definition valid_q (q : Qc) : bool :=
  bool_decide (0 ≤ q)%Qc && bool_decide (q ≤ 1)%Qc.

(** [tensor.quantile(qs, dim=axes)]: a leading dimension [quantile] with one
    entry per requested quantile, followed by the kept dimensions.  The
    quantiles are a [float64] array, so the result is [float64] whatever the
    element type; on a boolean array numpy's subtraction raises
    [TypeError]. *)
Definition quantile (qs : list Qc) (axes : Axes) (t : DataArray)
  : Py DataArray :=
  if forallb valid_q qs then
    check_dims axes t;;
    if bool_decide (dtype t = bool_) then raise TypeError
    else
      mret (build ("quantile" :: kept (flags axes t) (dims t))
              (length qs :: kept (flags axes t) (shape t))
              float64
              (fun idx =>
                 match idx with
                 | k :: oidx =>
                     quantile_list (dtype t) (nth k qs 0%Qc)
                       (group (shape t) (flags axes t) oidx (item t))
                 | [] => 0%Qc
                 end))
  else raise ValueError.

(** the sub-arrays along the first dimension, as iterating over an array
    yields them *)
Definition iter_first (t : DataArray) : list DataArray :=
  (fun k => build (tail (dims t)) (tail (shape t)) (dtype t)
              (fun idx => item t (k :: idx)))
    <$> seq 0 (hd 0 (shape t)).

(** [tensor.isel(sel)]: fix the index of the dimensions named in the
    dictionary [sel]; the other dimensions remain *)
Definition isel (sel : gmap string nat) (t : DataArray) : Py DataArray :=
  if negb (forallb (fun di => bool_decide (di.1 ∈ dims t)) (map_to_list sel))
  then raise ValueError
  else if negb (forallb (fun di => match size_of t di.1 with
                                   | Some n => di.2 <? n
                                   | None => true
                                   end) (map_to_list sel))
  then raise IndexError
  else
    let fl := (fun d => bool_decide (sel !! d = None)) <$> dims t in
    mret (mkDataArray (dropped fl (dims t)) (dropped fl (shape t)) (dtype t)
            (group (shape t) fl (omap (fun d => sel !! d) (dims t)) (item t))).

(** [dict(zip(ks, vs))]: later pairs win *)
Definition dict_zip {K} `{Countable K} {V} (ks : list K) (vs : list V)
  : gmap K V :=
  foldl (fun d kv => <[kv.1 := kv.2]> d) ∅ (zip ks vs).

(** ** Samples *)

Record Sample := mkSample { data : gmap string DataArray }.

(** [sample.data[tensor_id]] *)
Definition getitem (s : Sample) (tensor_id : TensorId) : Py DataArray :=
  match data s !! tensor_id with
  | Some t => mret t
  | None => raise KeyError
  end.

Abbreviation MeasureValue := DataArray (only parsing).
Abbreviation Stat := (gmap Measure DataArray) (only parsing).


(** ** MeanCalculator *)

Module MeanCalculator.

Record t := mk {
    _n : nat;
    _mean : option DataArray;
    _axes : Axes;
    _tensor_id : TensorId
  }.

Definition __init__ (tensor_id : TensorId) (axes : Axes) : t :=
    mk 0 None axes tensor_id.

Definition _sample_mean (self : t) : Measure :=
    SampleMean (_tensor_id self) (_axes self).

Definition _dataset_mean (self : t) : Measure :=
    DatasetMean (_tensor_id self) (_axes self).

Definition _compute_impl (self : t) (sample : Sample) : Py DataArray :=
    tensor ← getitem sample (_tensor_id self);
    mean (_axes self) (astype float64 tensor).

Definition compute (self : t) (sample : Sample) : Py (gmap Measure DataArray) :=
    m ← _compute_impl self sample;
    mret {[ _sample_mean self := m ]}.

Definition _update_impl (self : t) (tensor tensor_mean : DataArray) : Py t :=
    assert_ (bool_decide (dtype tensor_mean = float64));;
    n_b ← int_ratio (np_prod (shape tensor)) (np_prod (shape tensor_mean));
    match _mean self with
    | None =>
        assert_ (_n self =? 0);;
        mret (mk n_b (Some tensor_mean) (_axes self) (_tensor_id self))
    | Some mean_old =>
        assert_ (negb (_n self =? 0));;
        let n_a := _n self in
        let n := n_a + n_b in
        x ← binop Qcplus (scalar_mul (Qc_of_nat n_a) mean_old)
                         (scalar_mul (Qc_of_nat n_b) tensor_mean);
        let new_mean := div_scalar x (Qc_of_nat n) in
        assert_ (bool_decide (dtype new_mean = float64));;
        mret (mk n (Some new_mean) (_axes self) (_tensor_id self))
    end.

Definition update (self : t) (sample : Sample) : Py t :=
    m ← _compute_impl self sample;
    tensor ← getitem sample (_tensor_id self);
    _update_impl self tensor m.

Definition compute_and_update (self : t) (sample : Sample)
    : Py (gmap Measure DataArray * t) :=
    m ← _compute_impl self sample;
    tensor ← getitem sample (_tensor_id self);
    self' ← _update_impl self tensor m;
    mret ({[ _sample_mean self := m ]}, self').

Definition finalize (self : t) : gmap Measure DataArray :=
    match _mean self with
    | None => ∅
    | Some m => {[ _dataset_mean self := m ]}
    end.

End MeanCalculator.

(** ** MeanVarStdCalculator

    [np.sqrt] is not rational; the square root is a parameter [sqrt] of the
    model.  The elements are exact rationals: [xr.dot(c, c, dims)] in
    [compute] and [((tensor - mean_b) ** 2).sum(dim)] in [update] are the
    same sum of squares here, where the two routes may round differently
    over floats. *)

Module MeanVarStdCalculator.

Record t := mk {
    _axes : Axes;
    _tensor_id : TensorId;
    _n : nat;
    _mean : option DataArray;
    _m2 : option DataArray
  }.

Definition __init__ (tensor_id : TensorId) (axes : Axes) : t :=
    mk axes tensor_id 0 None None.

Section with_sqrt.
Variable sqrt : Qc -> Qc.

    (** [np.sqrt(arr)] *)
Definition np_sqrt (arr : DataArray) : DataArray :=
      map_values sqrt (to_float (dtype arr)) arr.

Definition compute (self : t) (sample : Sample)
      : Py (gmap Measure DataArray) :=
      tensor ← getitem sample (_tensor_id self);
      mean_ ← mean (_axes self) tensor;
      c ← binop Qcminus tensor mean_;
      n ← match _axes self with
          | None => mret (size tensor)
          | Some axes =>
              sizes ← for_each axes
                        (fun d acc => match size_of tensor d with
                                      | Some s => mret (acc ++ [s])
                                      | None => raise KeyError
                                      end) [];
              mret (np_prod sizes)
          end;
      cc ← binop Qcmult c c;
      dot ← sum (_axes self) cc;
      let var := div_scalar dot (Qc_of_nat n) in
      let std := np_sqrt var in
      mret (<[SampleStd (_tensor_id self) (_axes self) := std]>
            (<[SampleVar (_tensor_id self) (_axes self) := var]>
             {[ SampleMean (_tensor_id self) (_axes self) := mean_ ]})).

Definition update (self : t) (sample : Sample) : Py t :=
      tensor0 ← getitem sample (_tensor_id self);
      let tensor := astype float64 tensor0 in
      mean_b ← mean (_axes self) tensor;
      assert_ (bool_decide (dtype mean_b = float64));;
      n_b ← int_ratio (np_prod (shape tensor)) (np_prod (shape mean_b));
      c ← binop Qcminus tensor mean_b;
      m2_b ← sum (_axes self) (square c);
      assert_ (bool_decide (dtype m2_b = float64));;
      match _mean self with
      | None =>
          assert_ (match _m2 self with None => true | Some _ => false end);;
          mret (mk (_axes self) (_tensor_id self) n_b (Some mean_b) (Some m2_b))
      | Some mean_a =>
          let n_a := _n self in
          let n := n_a + n_b in
          x ← binop Qcplus (scalar_mul (Qc_of_nat n_a) mean_a)
                           (scalar_mul (Qc_of_nat n_b) mean_b);
          let new_mean := div_scalar x (Qc_of_nat n) in
          assert_ (bool_decide (dtype new_mean = float64));;
          d ← binop Qcminus mean_b mean_a;
          match _m2 self with
          | None => raise TypeError
          | Some m2_a =>
              s ← binop Qcplus m2_a m2_b;
              let corr :=
                div_scalar
                  (scalar_mul (Qc_of_nat n_b)
                     (scalar_mul (Qc_of_nat n_a) (square d)))
                  (Qc_of_nat n) in
              new_m2 ← binop Qcplus s corr;
              assert_ (bool_decide (dtype new_m2 = float64));;
              mret (mk (_axes self) (_tensor_id self) n (Some new_mean)
                      (Some new_m2))
          end
      end.

Definition finalize (self : t) : Py (gmap Measure DataArray) :=
      match _mean self with
      | None => mret ∅
      | Some m =>
          match _m2 self with
          | None => raise AssertionError
          | Some m2 =>
              let var := div_scalar m2 (Qc_of_nat (_n self)) in
              let sqrt_ := np_sqrt var in
              mret (<[DatasetStd (_tensor_id self) (_axes self) := sqrt_]>
                    (<[DatasetVar (_tensor_id self) (_axes self) := var]>
                     {[ DatasetMean (_tensor_id self) (_axes self) := m ]}))
          end
      end.
End with_sqrt.

End MeanVarStdCalculator.

(** ** Percentile calculators *)

(** [all(0 <= n <= 100 for n in ns)] *)
Definition valid_ranks (ns : list Qc) : bool :=
  forallb (fun n => bool_decide (0 ≤ n)%Qc
                    && bool_decide (n ≤ Qc_of_nat 100)%Qc) ns.

Module SamplePercentilesCalculator.

Record t := mk {
    ns : list Qc;
    _qs : list Qc;
    _axes : Axes;
    _tensor_id : TensorId
  }.

Definition __init__ (tensor_id : TensorId) (axes : Axes) (ns : list Qc)
    : Py t :=
    assert_ (valid_ranks ns);;
    mret (mk ns ((fun n => n / Qc_of_nat 100)%Qc <$> ns) axes tensor_id).

Definition compute (self : t) (sample : Sample)
    : Py (gmap Measure DataArray) :=
    tensor ← getitem sample (_tensor_id self);
    ps ← quantile (_qs self) (_axes self) tensor;
    mret (dict_zip (SamplePercentile (_tensor_id self) (_axes self) <$> ns self)
            (iter_first ps)).

End SamplePercentilesCalculator.

Module MeanPercentilesCalculator.

Record t := mk {
    _ns : list Qc;
    _qs : list Qc;
    _axes : Axes;
    _tensor_id : TensorId;
    _n : nat;
    _estimates : option DataArray
  }.

Definition __init__ (tensor_id : TensorId) (axes : Axes) (ns : list Qc)
    : Py t :=
    assert_ (valid_ranks ns);;
    mret (mk ns ((fun n => n / Qc_of_nat 100)%Qc <$> ns) axes tensor_id 0 None).

Definition update (self : t) (sample : Sample) : Py t :=
    tensor ← getitem sample (_tensor_id self);
    q ← quantile (_qs self) (_axes self) tensor;
    let sample_estimates := astype float64 q in
    n ← int_ratio (np_prod (shape tensor))
                  (np_prod (tail (shape sample_estimates)));
    estimates ←
      match _estimates self with
      | None =>
          assert_ (_n self =? 0);;
          mret sample_estimates
      | Some est =>
          x ← binop Qcplus (scalar_mul (Qc_of_nat (_n self)) est)
                           (scalar_mul (Qc_of_nat n) sample_estimates);
          let e := div_scalar x (Qc_of_nat (_n self + n)) in
          assert_ (bool_decide (dtype e = float64));;
          mret e
      end;
    mret (mk (_ns self) (_qs self) (_axes self) (_tensor_id self)
            (_n self + n) (Some estimates)).

Definition finalize (self : t) : Py (gmap Measure DataArray) :=
    match _estimates self with
    | None => mret ∅
    | Some est =>
        warn "Computed dataset percentiles naively by averaging percentiles of samples.";;
        mret (dict_zip
                (DatasetPercentile (_tensor_id self) (_axes self) <$> _ns self)
                (iter_first est))
    end.

End MeanPercentilesCalculator.

(** What lies outside the repository: whether [import crick] succeeded, the
    quantile estimate of crick's [TDigest], and [np.sqrt]. *)
Record Env := mkEnv {
  crick_available : bool;
  TDigest_quantile : list Qc -> Qc -> Qc;
  sqrt_fn : Qc -> Qc
}.

(** A [TDigest] is followed through the values it has been fed. *)
Module TDigest.
Record t := mk { received : list Qc }.
Definition __init__ : t := mk [].
Definition update (self : t) (obj : DataArray) : t :=
    mk (received self ++ values obj).
Definition quantile (env : Env) (self : t) (q : Qc) : Qc :=
    TDigest_quantile env (received self) q.
End TDigest.

(** [out_sizes[k] = v] on an [OrderedDict] *)
Fixpoint odict_set (k : string) (v : nat) (l : list (string * nat))
  : list (string * nat) :=
  match l with
  | [] => [(k, v)]
  | (k', v') :: l' =>
      if decide (k = k') then (k, v) :: l' else (k', v') :: odict_set k v l'
  end.

Module CrickPercentilesCalculator.

Record t := mk {
    _ns : list Qc;
    _qs : list Qc;
    _axes : Axes;
    _tensor_id : TensorId;
    _digest : option (list TDigest.t);
    _dims : option (list string);
    (** an iterator: the index tuples it has not yielded yet *)
    _indices : option (list (list nat));
    _shape : option (list nat)
  }.

Definition __init__ (tensor_id : TensorId) (axes : Axes) (ns : list Qc)
    : Py t :=
    warn "Computing dataset percentiles with experimental 'crick' library.";;
    assert_ (valid_ranks ns);;
    assert_ (match axes with
             | None => true
             | Some l => negb (bool_decide ("_percentiles" ∈ l))
             end);;
    mret (mk ns ((fun n => n / Qc_of_nat 100)%Qc <$> ns) axes tensor_id
            None None None None).

Definition _initialize (env : Env) (self : t)
      (tensor_sizes : list (string * nat)) : Py t :=
    assert_ (crick_available env);;
    let out_sizes :=
      match _axes self with
      | None => [("_percentiles", length (_ns self))]
      | Some axes =>
          foldl (fun out ds => if bool_decide (ds.1 ∈ axes) then out
                               else odict_set ds.1 ds.2 out)
                [("_percentiles", length (_ns self))] tensor_sizes
      end in
    let dims_ := out_sizes.*1 in
    let shape_ := out_sizes.*2 in
    let d := np_prod (tail shape_) in
    mret (mk (_ns self) (_qs self) (_axes self) (_tensor_id self)
            (Some (replicate d TDigest.__init__))
            (Some dims_)
            (Some (ndindex (tail shape_)))
            (Some shape_)).

Definition update (env : Env) (self : t) (sample : Sample) : Py t :=
    tensor ← getitem sample (_tensor_id self);
    assert_ (negb (bool_decide ("_percentiles" ∈ dims tensor)));;
    self ← match _digest self with
           | None => _initialize env self (zip (dims tensor) (shape tensor))
           | Some _ => mret self
           end;
    match _digest self, _indices self, _dims self with
    | Some digest, Some indices, Some dims_ =>
        digest' ←
          for_each (imap pair indices)
            (fun '(i, idx) dg =>
               sub ← isel (dict_zip (tail dims_) idx) tensor;
               match dg !! i with
               | Some d => mret (<[i := TDigest.update d sub]> dg)
               | None => raise IndexError
               end) digest;
        mret (mk (_ns self) (_qs self) (_axes self) (_tensor_id self)
                (Some digest') (_dims self) (Some []) (_shape self))
    | _, _, _ => raise AssertionError
    end.

Definition finalize (env : Env) (self : t) : Py (gmap Measure DataArray) :=
    match _digest self with
    | None => mret ∅
    | Some digest =>
        match _dims self, _shape self with
        | Some dims_, Some shape_ =>
            let vs := (fun q =>
                         mkDataArray (tail dims_) (tail shape_) float64
                           ((fun d => TDigest.quantile env d q) <$> digest))
                      <$> _qs self in
            if bool_decide (length (_qs self) * length digest = np_prod shape_)
            then mret (dict_zip
                         (DatasetPercentile (_tensor_id self) (_axes self)
                            <$> _ns self) vs)
            else raise ValueError
        | _, _ => raise AssertionError
        end
    end.

End CrickPercentilesCalculator.

(** ** The calculator unions

    [NaiveSampleMeasureCalculator] wraps [measure.compute] of the absent
    [stat_measures.py]; the planner never creates one and it is left out. *)

Inductive SampleMeasureCalculator :=
| SC_Mean (c : MeanCalculator.t)
| SC_MeanVarStd (c : MeanVarStdCalculator.t)
| SC_Percentiles (c : SamplePercentilesCalculator.t).

Inductive DatasetMeasureCalculator :=
| DC_Mean (c : MeanCalculator.t)
| DC_MeanVarStd (c : MeanVarStdCalculator.t)
| DC_MeanPercentiles (c : MeanPercentilesCalculator.t)
| DC_CrickPercentiles (c : CrickPercentilesCalculator.t).

(** [calc.compute(sample)] *)
Definition calc_compute (env : Env) (calc : SampleMeasureCalculator)
    (sample : Sample) : Py (gmap Measure DataArray) :=
  match calc with
  | SC_Mean c => MeanCalculator.compute c sample
  | SC_MeanVarStd c => MeanVarStdCalculator.compute (sqrt_fn env) c sample
  | SC_Percentiles c => SamplePercentilesCalculator.compute c sample
  end.

(** [calc.update(sample)] *)
Definition calc_update (env : Env) (calc : DatasetMeasureCalculator)
    (sample : Sample) : Py DatasetMeasureCalculator :=
  match calc with
  | DC_Mean c =>
      c' ← MeanCalculator.update c sample; mret (DC_Mean c')
  | DC_MeanVarStd c =>
      c' ← MeanVarStdCalculator.update c sample; mret (DC_MeanVarStd c')
  | DC_MeanPercentiles c =>
      c' ← MeanPercentilesCalculator.update c sample;
      mret (DC_MeanPercentiles c')
  | DC_CrickPercentiles c =>
      c' ← CrickPercentilesCalculator.update env c sample;
      mret (DC_CrickPercentiles c')
  end.

(** [calc.finalize()] *)
Definition calc_finalize (env : Env) (calc : DatasetMeasureCalculator)
  : Py (gmap Measure DataArray) :=
  match calc with
  | DC_Mean c => mret (MeanCalculator.finalize c)
  | DC_MeanVarStd c => MeanVarStdCalculator.finalize (sqrt_fn env) c
  | DC_MeanPercentiles c => MeanPercentilesCalculator.finalize c
  | DC_CrickPercentiles c => CrickPercentilesCalculator.finalize env c
  end.

(** [d.update(values.items())]: the entries of [values] replace those of [d] *)
Definition dict_update (d values : gmap Measure DataArray)
  : gmap Measure DataArray := values ∪ d.

(** ** The planner *)

Record Required := mkRequired {
  required_sample_means : gset Measure;
  required_dataset_means : gset Measure;
  required_sample_mean_var_std : gset Measure;
  required_dataset_mean_var_std : gset Measure;
  required_sample_percentiles : gmap (string * option (list string)) (gset Qc);
  required_dataset_percentiles : gmap (string * option (list string)) (gset Qc)
}.

(** [d.setdefault(k, set()).add(n)] *)
Definition setdefault_add (k : string * option (list string)) (n : Qc)
    (d : gmap (string * option (list string)) (gset Qc))
  : gmap (string * option (list string)) (gset Qc) :=
  <[k := {[n]} ∪ default ∅ (d !! k)]> d.

(** one turn of the loop that splits the required measures into groups *)
Definition split_measure (rm : Measure) (r : Required) : Py Required :=
  match rm with
  | SampleMean _ _ =>
      mret (mkRequired ({[rm]} ∪ required_sample_means r)
              (required_dataset_means r) (required_sample_mean_var_std r)
              (required_dataset_mean_var_std r) (required_sample_percentiles r)
              (required_dataset_percentiles r))
  | DatasetMean _ _ =>
      mret (mkRequired (required_sample_means r)
              ({[rm]} ∪ required_dataset_means r)
              (required_sample_mean_var_std r)
              (required_dataset_mean_var_std r) (required_sample_percentiles r)
              (required_dataset_percentiles r))
  | SampleVar _ _ | SampleStd _ _ =>
      let s := list_to_set
                 ((fun msv => msv (m_tensor_id rm) (m_axes rm))
                    <$> [SampleMean; SampleStd; SampleVar])
               ∪ required_sample_mean_var_std r in
      assert_ (bool_decide (rm ∈ s));;
      mret (mkRequired (required_sample_means r) (required_dataset_means r)
              s (required_dataset_mean_var_std r)
              (required_sample_percentiles r) (required_dataset_percentiles r))
  | DatasetVar _ _ | DatasetStd _ _ =>
      let s := list_to_set
                 ((fun msv => msv (m_tensor_id rm) (m_axes rm))
                    <$> [DatasetMean; DatasetStd; DatasetVar])
               ∪ required_dataset_mean_var_std r in
      assert_ (bool_decide (rm ∈ s));;
      mret (mkRequired (required_sample_means r) (required_dataset_means r)
              (required_sample_mean_var_std r) s
              (required_sample_percentiles r) (required_dataset_percentiles r))
  | SamplePercentile t a n =>
      mret (mkRequired (required_sample_means r) (required_dataset_means r)
              (required_sample_mean_var_std r) (required_dataset_mean_var_std r)
              (setdefault_add (t, a) n (required_sample_percentiles r))
              (required_dataset_percentiles r))
  | DatasetPercentile t a n =>
      mret (mkRequired (required_sample_means r) (required_dataset_means r)
              (required_sample_mean_var_std r) (required_dataset_mean_var_std r)
              (required_sample_percentiles r)
              (setdefault_add (t, a) n (required_dataset_percentiles r)))
  end.

(** [DatasetPercentilesCalculator(tensor_id, axes, ns)]: the class bound at
    import time, by whether crick is available *)
Definition DatasetPercentilesCalculator (env : Env) (tensor_id : TensorId)
    (axes : Axes) (ns : list Qc) : Py DatasetMeasureCalculator :=
  if crick_available env
  then c ← CrickPercentilesCalculator.__init__ tensor_id axes ns;
       mret (DC_CrickPercentiles c)
  else c ← MeanPercentilesCalculator.__init__ tensor_id axes ns;
       mret (DC_MeanPercentiles c).

(** Python iterates over a set in an order that depends on the hashes and
    on the insertions, and over a dictionary in the order of insertion; the
    model iterates in the one order of [elements] and [map_to_list].  The
    order of the returned lists and of the ranks within a percentile
    calculator is therefore not the program's, and no property below
    depends on it. *)
Definition get_measure_calculators (env : Env) (required_measures : list Measure)
  : Py (list SampleMeasureCalculator * list DatasetMeasureCalculator) :=
  r ← for_each required_measures split_measure (mkRequired ∅ ∅ ∅ ∅ ∅ ∅);
  let sample_calculators :=
    foldl (fun cs rm =>
             if bool_decide (rm ∈ required_sample_mean_var_std r) then cs
             else cs ++ [SC_Mean (MeanCalculator.__init__ (m_tensor_id rm)
                                    (m_axes rm))])
          [] (elements (required_sample_means r)) in
  let sample_calculators :=
    foldl (fun cs rm =>
             cs ++ [SC_MeanVarStd (MeanVarStdCalculator.__init__
                                     (m_tensor_id rm) (m_axes rm))])
          sample_calculators (elements (required_sample_mean_var_std r)) in
  let dataset_calculators :=
    foldl (fun cs rm =>
             if bool_decide (rm ∈ required_dataset_mean_var_std r) then cs
             else cs ++ [DC_Mean (MeanCalculator.__init__ (m_tensor_id rm)
                                    (m_axes rm))])
          [] (elements (required_dataset_means r)) in
  let dataset_calculators :=
    foldl (fun cs rm =>
             cs ++ [DC_MeanVarStd (MeanVarStdCalculator.__init__
                                     (m_tensor_id rm) (m_axes rm))])
          dataset_calculators (elements (required_dataset_mean_var_std r)) in
  sample_calculators ←
    for_each (map_to_list (required_sample_percentiles r))
      (fun '((tid, axes), ns) cs =>
         c ← SamplePercentilesCalculator.__init__ tid axes (elements ns);
         mret (cs ++ [SC_Percentiles c]))
      sample_calculators;
  dataset_calculators ←
    for_each (map_to_list (required_dataset_percentiles r))
      (fun '((tid, axes), ns) cs =>
         c ← DatasetPercentilesCalculator env tid axes (elements ns);
         mret (cs ++ [c]))
      dataset_calculators;
  mret (sample_calculators, dataset_calculators).

(** ** StatsCalculator *)

(** the text of the warning names the missing measures in the source *)
Definition ignoring_warning : string :=
  "ignoring `initial_dataset_measure` as it is missing some measures".

Module StatsCalculator.

Record t := mk {
    sample_count : nat;
    sample_calculators : list SampleMeasureCalculator;
    dataset_calculators : list DatasetMeasureCalculator;
    _current_dataset_measures : option (gmap Measure DataArray)
  }.

Definition __init__ (env : Env) (measures : list Measure)
      (initial_dataset_measures : option (gmap Measure DataArray)) : Py t :=
    '(sc, dc) ← get_measure_calculators env measures;
    match initial_dataset_measures with
    | None => mret (mk 0 sc dc None)
    | Some initial =>
        let missing_dataset_meas : gset Measure :=
          list_to_set
            (List.filter (fun m => is_dataset_measure m
                                   && bool_decide (initial !! m = None))
               measures) in
        if bool_decide (missing_dataset_meas ≠ ∅) then
          warn ignoring_warning;;
          mret (mk 0 sc dc None)
        else mret (mk 0 sc dc (Some initial))
    end.

Definition has_dataset_measures (self : t) : bool :=
    match _current_dataset_measures self with
    | None => false
    | Some _ => true
    end.

Definition finalize (env : Env) (self : t)
    : Py (gmap Measure DataArray * t) :=
    match _current_dataset_measures self with
    | None =>
        d ← for_each (dataset_calculators self)
              (fun calc d => values ← calc_finalize env calc;
                             mret (dict_update d values)) ∅;
        mret (d, mk (sample_count self) (sample_calculators self)
                   (dataset_calculators self) (Some d))
    | Some d => mret (d, self)
    end.

Definition _compute (env : Env) (self : t) (sample : Sample)
    : Py (gmap Measure DataArray) :=
    for_each (sample_calculators self)
      (fun calc ret => values ← calc_compute env calc sample;
                       mret (dict_update ret values)) ∅.

  (** the argument of [update]: one [Sample] or an iterable of samples *)
Inductive SampleOrIterable :=
  | OneSample (s : Sample)
  | Samples (l : list Sample).

Definition _update (env : Env) (self : t) (sample : SampleOrIterable)
    : Py (option Sample * t) :=
    let count := sample_count self + 1 in
    let samples := match sample with
                   | OneSample s => [s]
                   | Samples l => l
                   end in
    '(last_sample, dc) ←
      for_each samples
        (fun s '(_, dc) =>
           dc' ← for_each dc
                   (fun calc done => calc' ← calc_update env calc s;
                                     mret (done ++ [calc'])) [];
           mret (Some s, dc'))
        (None, dataset_calculators self);
    mret (last_sample, mk count (sample_calculators self) dc None).

Definition update (env : Env) (self : t) (sample : SampleOrIterable)
    : Py t :=
    '(_, self') ← _update env self sample;
    mret self'.

Definition update_and_get_all (env : Env) (self : t)
      (sample : SampleOrIterable) : Py (gmap Measure DataArray * t) :=
    '(last_sample, self) ← _update env self sample;
    match last_sample with
    | None => raise ValueError
    | Some last_sample =>
        sm ← _compute env self last_sample;
        '(dm, self) ← finalize env self;
        mret (dm ∪ sm, self)
    end.

Definition skip_update_and_get_all (env : Env) (self : t) (sample : Sample)
    : Py (gmap Measure DataArray * t) :=
    sm ← _compute env self sample;
    '(dm, self) ← finalize env self;
    mret (dm ∪ sm, self).

End StatsCalculator.

(** ** Extremes of a list of elements *)



(** ** States of the calculators *)

(** a calculator that has observed no sample *)
Definition fresh_calculator (calc : DatasetMeasureCalculator) : Prop :=
  match calc with
  | DC_Mean c => MeanCalculator._mean c = None
  | DC_MeanVarStd c =>
      MeanVarStdCalculator._mean c = None /\ MeanVarStdCalculator._m2 c = None
  | DC_MeanPercentiles c => MeanPercentilesCalculator._estimates c = None
  | DC_CrickPercentiles c =>
      CrickPercentilesCalculator._digest c = None
      /\ length (CrickPercentilesCalculator._qs c)
         = length (CrickPercentilesCalculator._ns c)
  end.

(** what the methods keep true of a calculator's attributes *)
Definition wf_calculator (calc : DatasetMeasureCalculator) : Prop :=
  match calc with
  | DC_Mean _ => True
  | DC_MeanVarStd c =>
      is_Some (MeanVarStdCalculator._mean c) ->
      is_Some (MeanVarStdCalculator._m2 c)
  | DC_MeanPercentiles _ => True
  | DC_CrickPercentiles c =>
      length (CrickPercentilesCalculator._qs c)
      = length (CrickPercentilesCalculator._ns c)
      /\ forall dg, CrickPercentilesCalculator._digest c = Some dg ->
           exists ds sh,
             CrickPercentilesCalculator._dims c = Some ds
             /\ CrickPercentilesCalculator._shape c = Some sh
             /\ length (CrickPercentilesCalculator._qs c) * length dg
                = np_prod sh
  end.

Definition wf_stats (st : StatsCalculator.t) : Prop :=
  Forall wf_calculator (StatsCalculator.dataset_calculators st).

(** the states a coordinator passes through: built by the constructor, then
    taken from one returning call to the next *)
Inductive reachable (env : Env) : StatsCalculator.t -> Prop :=
| reach_init measures initial w st w' :
    StatsCalculator.__init__ env measures initial w = (Ok st, w') ->
    reachable env st
| reach_update st sample w st' w' :
    reachable env st ->
    StatsCalculator.update env st sample w = (Ok st', w') ->
    reachable env st'
| reach_finalize st w d st' w' :
    reachable env st ->
    StatsCalculator.finalize env st w = (Ok (d, st'), w') ->
    reachable env st'
| reach_update_and_get_all st sample w d st' w' :
    reachable env st ->
    StatsCalculator.update_and_get_all env st sample w = (Ok (d, st'), w') ->
    reachable env st'
| reach_skip_update_and_get_all st sample w d st' w' :
    reachable env st ->
    StatsCalculator.skip_update_and_get_all env st sample w
    = (Ok (d, st'), w') ->
    reachable env st'.

(** the last sample an argument of [update] yields *)
Definition last_sample (sample : StatsCalculator.SampleOrIterable)
  : option Sample :=
  match sample with
  | StatsCalculator.OneSample s => Some s
  | StatsCalculator.Samples l => last l
  end.

(** [[sample] if isinstance(sample, Sample) else sample]: the samples an
    argument of [update] yields *)
Definition samples_of (sample : StatsCalculator.SampleOrIterable)
  : list Sample :=
  match sample with
  | StatsCalculator.OneSample s => [s]
  | StatsCalculator.Samples l => l
  end.


(** ** Example data *)

Definition naive_warning : string :=
  "Computed dataset percentiles naively by averaging percentiles of samples.".

(** a [float32] vector [[1, 2]] along [x] *)
Definition ex_tensor : DataArray :=
  mkDataArray ["x"] [2] float32 [Qc_of_nat 1; Qc_of_nat 2].

Definition ex_sample : Sample := mkSample {[ "raw" := ex_tensor ]}.

(** a second sample, [[3, 4]] *)
Definition ex_sample2 : Sample :=
  mkSample {[ "raw" := mkDataArray ["x"] [2] float32
                         [Qc_of_nat 3; Qc_of_nat 4] ]}.

Definition ex_percentiles_fresh : MeanPercentilesCalculator.t :=
  MeanPercentilesCalculator.mk [Qc_of_nat 50]
    [(Qc_of_nat 50 / Qc_of_nat 100)%Qc] None "raw" 0 None.

Definition ex_percentiles_observed : MeanPercentilesCalculator.t :=
  Eval vm_compute in
    match MeanPercentilesCalculator.update ex_percentiles_fresh ex_sample [] with
    | (Ok c, _) => c
    | _ => ex_percentiles_fresh
    end.


Definition ex_env : Env := mkEnv true (fun _ q => q) (fun x => x).

Definition ex_mvs_fresh : MeanVarStdCalculator.t :=
  MeanVarStdCalculator.__init__ "raw" None.

Definition ex_crick_fresh : CrickPercentilesCalculator.t :=
  CrickPercentilesCalculator.mk [Qc_of_nat 50]
    [(Qc_of_nat 50 / Qc_of_nat 100)%Qc] None "raw" None None None None.

Definition ex_crick_once : CrickPercentilesCalculator.t :=
  Eval vm_compute in
    match CrickPercentilesCalculator.update ex_env ex_crick_fresh ex_sample []
    with
    | (Ok c, _) => c
    | _ => ex_crick_fresh
    end.

Definition ex_crick_twice : CrickPercentilesCalculator.t :=
  Eval vm_compute in
    match CrickPercentilesCalculator.update ex_env ex_crick_once ex_sample2 []
    with
    | (Ok c, _) => c
    | _ => ex_crick_fresh
    end.

Definition ex_measures : list Measure :=
  [DatasetMean "raw" None; SampleMean "raw" None].

Definition ex_stats_fresh : StatsCalculator.t :=
  Eval vm_compute in
    match StatsCalculator.__init__ ex_env ex_measures None [] with
    | (Ok st, _) => st
    | _ => StatsCalculator.mk 0 [] [] None
    end.

Definition ex_stats_updated : StatsCalculator.t :=
  Eval vm_compute in
    match StatsCalculator.update ex_env ex_stats_fresh
            (StatsCalculator.OneSample ex_sample) [] with
    | (Ok st, _) => st
    | _ => StatsCalculator.mk 0 [] [] None
    end.

(** the sample measures of [ex_sample]: its mean, 3/2 *)
Definition ex_sample_mean : gmap Measure DataArray :=
  {[ SampleMean "raw" None :=
       mkDataArray [] [] float64 [(Qc_of_nat 3 / Qc_of_nat 2)%Qc] ]}.


(** ** Concatenation of tensors and the moments of a reduction group *)

(** [a] followed by [b] along the dimension [d] ([xr.concat([a, b], dim=d)]),
    for two arrays of the same dimensions that agree in every other size;
    it is used to state how updates compose *)
Definition concat_along (d : AxisId) (a b : DataArray) : option DataArray :=
  k ← index_of d (dims a);
  na ← shape a !! k;
  nb ← shape b !! k;
  guard (dims b = dims a);;
  guard (<[k := 0]> (shape b) = <[k := 0]> (shape a));;
  Some (build (dims a) (<[k := na + nb]> (shape a))
          (result_type (dtype a) (dtype b))
          (fun idx =>
             let i := default 0 (idx !! k) in
             if i <? na then item a idx
             else item b (<[k := i - na]> idx))).

(** the sum of the squared deviations of the elements of [l] from [c] *)
Definition sq_dev (c : Qc) (l : list Qc) : Qc :=
  sum_list ((fun x => (x - c) * (x - c))%Qc <$> l).

(** no axis of the reduction is named twice *)
Definition axes_distinct (axes : option (list string)) : Prop :=
  match axes with
  | None => True
  | Some l => NoDup l
  end.

(** the axes of a reduction name dimensions of the tensor *)
Definition axes_in (axes : option (list string)) (t : DataArray) : Prop :=
  match axes with
  | None => True
  | Some l => Forall (fun a => a ∈ dims t) l
  end.

(** the [float64] mean of every reduction group of [t] *)
Definition mean_of (axes : option (list string)) (t : DataArray) : DataArray :=
  build (kept (flags axes t) (dims t)) (kept (flags axes t) (shape t)) float64
    (fun oidx => mean_list (group (shape t) (flags axes t) oidx (item t))).

(** the [float64] sum of squared deviations of every reduction group from
    the group's mean *)
Definition m2_of (axes : option (list string)) (t : DataArray) : DataArray :=
  build (kept (flags axes t) (dims t)) (kept (flags axes t) (shape t)) float64
    (fun oidx =>
       sq_dev (mean_list (group (shape t) (flags axes t) oidx (item t)))
         (group (shape t) (flags axes t) oidx (item t))).

(** *** Example: the tensor [[3, 4]] and the concatenation [[1, 2, 3, 4]] of
    the two example tensors along [x] *)

Definition ex_tensor2 : DataArray :=
  mkDataArray ["x"] [2] float32 [Qc_of_nat 3; Qc_of_nat 4].

Definition ex_whole : DataArray :=
  Eval vm_compute in
    match concat_along "x" ex_tensor ex_tensor2 with
    | Some t => t
    | None => ex_tensor
    end.

Definition ex_sample_whole : Sample := mkSample {[ "raw" := ex_whole ]}.

(** ** The one-shot functions

    [compute_dataset_measures], [compute_sample_measures] and
    [compute_measures] plan the calculators, run them over the data and merge
    their results. *)

(** the body of [for calc in calculators: calc.update(sample)] *)
Definition update_calculators (env : Env) (sample : Sample)
    (calculators : list DatasetMeasureCalculator)
  : Py (list DatasetMeasureCalculator) :=
  for_each calculators
    (fun calc done => calc' ← calc_update env calc sample;
                      mret (done ++ [calc'])) [].

(** [not calculators]: an empty list is falsy *)
Definition is_empty {A} (l : list A) : bool :=
  match l with
  | [] => true
  | _ => false
  end.

(** [compute_dataset_measures(measures, dataset)] *)
Definition compute_dataset_measures (env : Env) (measures : list Measure)
    (dataset : list Sample) : Py (gmap Measure DataArray) :=
  '(sample_calculators, calculators) ← get_measure_calculators env measures;
  assert_ (is_empty sample_calculators);;
  calculators ← for_each dataset (update_calculators env) calculators;
  for_each calculators
    (fun calc ret => values ← calc_finalize env calc;
                     mret (dict_update ret values)) ∅.

(** [compute_sample_measures(measures, sample)] *)
Definition compute_sample_measures (env : Env) (measures : list Measure)
    (sample : Sample) : Py (gmap Measure DataArray) :=
  '(calculators, dataset_calculators) ← get_measure_calculators env measures;
  assert_ (is_empty dataset_calculators);;
  for_each calculators
    (fun calc ret => values ← calc_compute env calc sample;
                     mret (dict_update ret values)) ∅.

(** [compute_measures(measures, dataset)]: [sample] is the loop variable,
    [None] when the dataset yields nothing and the last sample otherwise *)
Definition compute_measures (env : Env) (measures : list Measure)
    (dataset : list Sample) : Py (gmap Measure DataArray) :=
  '(sample_calculators, dataset_calculators) ←
    get_measure_calculators env measures;
  '(sample, dataset_calculators) ←
    for_each dataset
      (fun s '(_, dc) => dc' ← update_calculators env s dc; mret (Some s, dc'))
      (None, dataset_calculators);
  match sample with
  | None => raise ValueError
  | Some sample =>
      ret ← for_each dataset_calculators
              (fun calc ret => values ← calc_finalize env calc;
                               mret (dict_update ret values)) ∅;
      for_each sample_calculators
        (fun calc ret => values ← calc_compute env calc sample;
                         mret (dict_update ret values)) ret
  end.

(** ** What the planner owes to a request *)

(** the groups of the planner hold the measure [m] *)
Definition requested (m : Measure) (r : Required) : Prop :=
  match m with
  | SampleMean _ _ => m ∈ required_sample_means r
  | SampleVar _ _ | SampleStd _ _ => m ∈ required_sample_mean_var_std r
  | SamplePercentile t a n =>
      exists ns, required_sample_percentiles r !! (t, a) = Some ns /\ n ∈ ns
  | DatasetMean _ _ => m ∈ required_dataset_means r
  | DatasetVar _ _ | DatasetStd _ _ => m ∈ required_dataset_mean_var_std r
  | DatasetPercentile t a n =>
      exists ns, required_dataset_percentiles r !! (t, a) = Some ns /\ n ∈ ns
  end.

(** the sample calculator [calc] computes the sample measure [m] *)
Definition sample_calculator_serves (calc : SampleMeasureCalculator)
    (m : Measure) : Prop :=
  match calc, m with
  | SC_Mean c, SampleMean t a => c = MeanCalculator.__init__ t a
  | SC_MeanVarStd c, (SampleMean t a | SampleVar t a | SampleStd t a) =>
      c = MeanVarStdCalculator.__init__ t a
  | SC_Percentiles c, SamplePercentile t a n =>
      SamplePercentilesCalculator._tensor_id c = t
      /\ SamplePercentilesCalculator._axes c = a
      /\ n ∈ SamplePercentilesCalculator.ns c
  | _, _ => False
  end.

(** the dataset calculator [calc], as the planner creates it, computes the
    dataset measure [m] *)
Definition dataset_calculator_serves (calc : DatasetMeasureCalculator)
    (m : Measure) : Prop :=
  match calc, m with
  | DC_Mean c, DatasetMean t a => c = MeanCalculator.__init__ t a
  | DC_MeanVarStd c, (DatasetMean t a | DatasetVar t a | DatasetStd t a) =>
      c = MeanVarStdCalculator.__init__ t a
  | DC_MeanPercentiles c, DatasetPercentile t a n =>
      MeanPercentilesCalculator._tensor_id c = t
      /\ MeanPercentilesCalculator._axes c = a
      /\ n ∈ MeanPercentilesCalculator._ns c
  | DC_CrickPercentiles c, DatasetPercentile t a n =>
      CrickPercentilesCalculator._tensor_id c = t
      /\ CrickPercentilesCalculator._axes c = a
      /\ n ∈ CrickPercentilesCalculator._ns c
  | _, _ => False
  end.

(** ** The measures of a calculator *)

(** the measures a sample calculator reports *)
Definition sample_calculator_measures (calc : SampleMeasureCalculator)
  : list Measure :=
  match calc with
  | SC_Mean c => [MeanCalculator._sample_mean c]
  | SC_MeanVarStd c =>
      (fun msv => msv (MeanVarStdCalculator._tensor_id c)
                      (MeanVarStdCalculator._axes c))
        <$> [SampleMean; SampleVar; SampleStd]
  | SC_Percentiles c =>
      SamplePercentile (SamplePercentilesCalculator._tensor_id c)
        (SamplePercentilesCalculator._axes c)
        <$> SamplePercentilesCalculator.ns c
  end.

(** the measures a dataset calculator reports *)
Definition dataset_calculator_measures (calc : DatasetMeasureCalculator)
  : list Measure :=
  match calc with
  | DC_Mean c => [MeanCalculator._dataset_mean c]
  | DC_MeanVarStd c =>
      (fun msv => msv (MeanVarStdCalculator._tensor_id c)
                      (MeanVarStdCalculator._axes c))
        <$> [DatasetMean; DatasetVar; DatasetStd]
  | DC_MeanPercentiles c =>
      DatasetPercentile (MeanPercentilesCalculator._tensor_id c)
        (MeanPercentilesCalculator._axes c)
        <$> MeanPercentilesCalculator._ns c
  | DC_CrickPercentiles c =>
      DatasetPercentile (CrickPercentilesCalculator._tensor_id c)
        (CrickPercentilesCalculator._axes c)
        <$> CrickPercentilesCalculator._ns c
  end.

(** a percentile calculator has one quantile per rank, as its constructor
    makes it *)
Definition wf_sample_calculator (calc : SampleMeasureCalculator) : Prop :=
  match calc with
  | SC_Percentiles c =>
      length (SamplePercentilesCalculator._qs c)
      = length (SamplePercentilesCalculator.ns c)
  | _ => True
  end.

(** ** Computations without warnings *)

(** a computation that emits no warning and does not look at the ones
    emitted before *)
Definition silent {A} (c : Py A) : Prop := exists r, forall w, c w = (r, w).

(** *** Example: the calculators planned for [ex_measures] *)

Definition ex_planned
  : list SampleMeasureCalculator * list DatasetMeasureCalculator :=
  Eval vm_compute in
    match get_measure_calculators ex_env ex_measures [] with
    | (Ok p, _) => p
    | _ => ([], [])
    end.

(** ** States of the dataset calculators between updates *)

(** the tensor a dataset calculator reads *)
Definition dataset_calculator_tensor_id (calc : DatasetMeasureCalculator)
  : TensorId :=
  match calc with
  | DC_Mean c => MeanCalculator._tensor_id c
  | DC_MeanVarStd c => MeanVarStdCalculator._tensor_id c
  | DC_MeanPercentiles c => MeanPercentilesCalculator._tensor_id c
  | DC_CrickPercentiles c => CrickPercentilesCalculator._tensor_id c
  end.

(** what every dataset calculator satisfies from its construction on: a
    percentile calculator has one quantile per rank and its running
    estimates have one slice per quantile *)
Definition ready_calculator (calc : DatasetMeasureCalculator) : Prop :=
  match calc with
  | DC_Mean _ | DC_MeanVarStd _ => True
  | DC_MeanPercentiles c =>
      length (MeanPercentilesCalculator._qs c)
      = length (MeanPercentilesCalculator._ns c)
      /\ forall est, MeanPercentilesCalculator._estimates c = Some est ->
           head (shape est) = Some (length (MeanPercentilesCalculator._qs c))
  | DC_CrickPercentiles c =>
      length (CrickPercentilesCalculator._qs c)
      = length (CrickPercentilesCalculator._ns c)
  end.

(** the calculator has seen a sample *)
Definition observed_calculator (calc : DatasetMeasureCalculator) : Prop :=
  match calc with
  | DC_Mean c => is_Some (MeanCalculator._mean c)
  | DC_MeanVarStd c => is_Some (MeanVarStdCalculator._mean c)
  | DC_MeanPercentiles c => is_Some (MeanPercentilesCalculator._estimates c)
  | DC_CrickPercentiles c => is_Some (CrickPercentilesCalculator._digest c)
  end.

(** *** Example: a [float64] tensor [[1, 2]] along [x], a sample without
    tensors and a request with a rank above 100 *)

Definition ex_tensor64 : DataArray :=
  mkDataArray ["x"] [2] float64 [Qc_of_nat 1; Qc_of_nat 2].

Definition ex_sample64 : Sample := mkSample {[ "raw" := ex_tensor64 ]}.

Definition ex_sample_empty : Sample := mkSample ∅.

Definition ex_measures_invalid : list Measure :=
  [SampleMean "raw" None; SamplePercentile "raw" None (Qc_of_nat 101)].

(** ** Arrays without negative elements *)

(** no element of the array is negative *)
Definition nonneg_array (t : DataArray) : Prop :=
  Forall (fun x => (0 ≤ x)%Qc) (values t).

(** what [update] keeps: the sum of squared deviations has no negative
    element *)
Definition m2_nonneg (c : MeanVarStdCalculator.t) : Prop :=
  forall m2, MeanVarStdCalculator._m2 c = Some m2 -> nonneg_array m2.

(** *** Example: a tensor with a dimension of the reserved name, and a
    [MeanVarStdCalculator] updated with the two example samples *)

Definition ex_tensor_reserved : DataArray :=
  mkDataArray ["_percentiles"] [2] float32 [Qc_of_nat 1; Qc_of_nat 2].

Definition ex_sample_reserved : Sample :=
  mkSample {[ "raw" := ex_tensor_reserved ]}.

Definition ex_mvs_twice : MeanVarStdCalculator.t :=
  Eval vm_compute in
    match for_each [ex_sample; ex_sample2]
            (fun s c => MeanVarStdCalculator.update c s) ex_mvs_fresh [] with
    | (Ok c, _) => c
    | _ => ex_mvs_fresh
    end.

(** one turn of the grouping loop as a function: the turn never fails *)
Definition split_pure (rm : Measure) (r : Required) : Required :=
  match split_measure rm r [] with
  | (Ok r', _) => r'
  | (Raise _, _) => r
  end.

(** *** Example: the measures of [ex_measures] in another order, one of
    them twice *)

Definition ex_measures_again : list Measure :=
  [SampleMean "raw" None; DatasetMean "raw" None; SampleMean "raw" None].

(** *** Example: a boolean tensor [[False, True]] along [x] *)



(** * Properties *)

(** ** Running computations *)

Ltac py_unfold :=
  repeat progress
    (unfold mbind, Py_mbind, Py_bind, mret, Py_mret, Py_ret, raise, assert_,
       warn;
     cbv beta iota zeta).

Lemma run_bind {A B} (c : Py A) (k : A -> Py B) w :
  (c ≫= k) w = match c w with
               | (Ok a, w') => k a w'
               | (Raise e, w') => (Raise e, w')
               end.
Proof. reflexivity. Qed.

Lemma run_ret {A} (a : A) w : (mret a : Py A) w = (Ok a, w).
Proof. reflexivity. Qed.

Lemma bind_Ok {A B} (c : Py A) (k : A -> Py B) w b w2 :
  (c ≫= k) w = (Ok b, w2) <->
  exists a w1, c w = (Ok a, w1) /\ k a w1 = (Ok b, w2).
Proof.
  rewrite run_bind. destruct (c w) as [[a|e] w1]; split.
  - eauto.
  - by intros (? & ? & [= <- <-] & ?).
  - discriminate.
  - by intros (? & ? & ? & ?).
Qed.

Lemma ret_Ok {A} (a b : A) w w' :
  (mret a : Py A) w = (Ok b, w') <-> a = b /\ w = w'.
Proof. rewrite run_ret. split; [by intros [= -> ->] | by intros [-> ->]]. Qed.

Lemma assert_Ok b u w w' : assert_ b w = (Ok u, w') <-> b = true /\ w = w'.
Proof.
  destruct b, u; cbn; split; try (by intros [= ->]); try (by intros [_ ->]).
  by intros [? _].
Qed.

Lemma raise_Ok {A} e (a : A) w w' : raise e w = (Ok a, w') <-> False.
Proof. split; [discriminate | done]. Qed.

(** take the hypotheses that a computation returned apart, bind by bind *)
Ltac py_inv_step :=
  match goal with
  | H : (_ ≫= _) _ = (Ok _, _) |- _ =>
      let a := fresh "a" in let w := fresh "w" in
      let H1 := fresh "Hstep" in
      apply bind_Ok in H as (a & w & H1 & H)
  | H : (mret _) _ = (Ok _, _) |- _ => apply ret_Ok in H as [? ?]
  | H : assert_ _ _ = (Ok _, _) |- _ => apply assert_Ok in H as [? ?]
  | H : raise _ _ = (Ok _, _) |- _ => by apply raise_Ok in H
  end.

Ltac py_inv := cbv beta in *; repeat (py_inv_step; cbv beta in *).

Lemma foldl_snoc_map {A B} (g : A -> B) (l : list A) (acc : list B) :
  foldl (fun cs x => cs ++ [g x]) acc l = acc ++ (g <$> l).
Proof.
  revert acc. induction l as [|x l IH]; intros acc; simpl.
  - by rewrite app_nil_r.
  - by rewrite IH, <- app_assoc.
Qed.

Lemma Permutation_replicate_eq {A} (l : list A) n (x : A) :
  l ≡ₚ replicate n x -> l = replicate n x.
Proof.
  intros Hp.
  assert (Hall : Forall (fun y => y = x) l).
  { rewrite Hp. apply Forall_forall. intros y Hy.
    by apply elem_of_replicate in Hy as [-> _]. }
  assert (Hlen : length l = n) by (by rewrite Hp, length_replicate).
  subst n. clear Hp. induction Hall as [|y l -> _ IH]; simpl; by f_equal.
Qed.


(** ** The planner *)

(** C1 (the code departs from the claim): asked for the sample mean and the
    sample variance of one tensor over one set of axes, the planner returns
    three sample calculators, each a fresh joint [MeanVarStdCalculator] of that
    tensor and those axes: one per member of [required_sample_mean_var_std],
    to which a variance adds the mean, the std and the variance. *)
Theorem get_measure_calculators_mean_var_three env tid axes w :
  get_measure_calculators env [SampleMean tid axes; SampleVar tid axes] w
  = (Ok (replicate 3 (SC_MeanVarStd (MeanVarStdCalculator.__init__ tid axes)),
         []), w).
Proof.
  unfold get_measure_calculators.
  cbn [for_each split_measure m_tensor_id m_axes list_to_set fmap list_fmap].
  py_unfold.
  cbn [required_sample_means required_dataset_means
       required_sample_mean_var_std required_dataset_mean_var_std
       required_sample_percentiles required_dataset_percentiles].
  rewrite bool_decide_eq_true_2 by set_solver.
  cbv beta iota zeta.
  cbn [required_sample_means required_dataset_means
       required_sample_mean_var_std required_dataset_mean_var_std
       required_sample_percentiles required_dataset_percentiles].
  rewrite map_to_list_empty. cbn [for_each foldl].
  py_unfold.
  rewrite foldl_snoc_map.
  rewrite (right_id_L ∅ (∪) ({[SampleMean tid axes]} : gset Measure)).
  rewrite elements_empty, elements_singleton. cbn [foldl].
  rewrite bool_decide_eq_true_2 by set_solver.
  rewrite app_nil_l.
  do 2 f_equal. f_equal.
  apply Permutation_replicate_eq.
  assert (Hel : elements ({[SampleMean tid axes]}
            ∪ ({[SampleStd tid axes]} ∪ ({[SampleVar tid axes]} ∪ ∅)) ∪ ∅
            : gset Measure)
          ≡ₚ [SampleMean tid axes; SampleStd tid axes; SampleVar tid axes]).
  { rewrite (right_id_L ∅ (∪)).
    pose proof (elements_list_to_set (C:=gset Measure)
             [SampleMean tid axes; SampleStd tid axes; SampleVar tid axes]) as H.
    cbn [list_to_set] in H. apply H. clear H.
    repeat constructor; set_solver. }
  rewrite Hel. reflexivity.
Qed.

(** ** The naive dataset percentiles *)

Lemma MeanPercentiles_update_estimates c s c' w w1 :
  MeanPercentilesCalculator.update c s w = (Ok c', w1) ->
  is_Some (MeanPercentilesCalculator._estimates c').
Proof.
  unfold MeanPercentilesCalculator.update. intros H.
  py_inv. subst. by eexists.
Qed.

(** C8 (as amended): once a sample has been observed,
    [MeanPercentilesCalculator.finalize] appends the warning that the
    percentiles were computed naively and still returns its result; on a
    calculator that has observed no sample it returns the empty dictionary
    and warns of nothing. *)
Theorem MeanPercentiles_finalize_warning :
  (forall c s c' w w1,
      MeanPercentilesCalculator.update c s w = (Ok c', w1) ->
      exists d, MeanPercentilesCalculator.finalize c' w1
                = (Ok d, w1 ++ [naive_warning]))
  /\ (forall tid axes ns c w w1,
        MeanPercentilesCalculator.__init__ tid axes ns w = (Ok c, w1) ->
        MeanPercentilesCalculator.finalize c w1 = (Ok ∅, w1)).
Proof.
  split.
  - intros c s c' w w1 [est Hest]%MeanPercentiles_update_estimates.
    unfold MeanPercentilesCalculator.finalize. rewrite Hest.
    eexists. reflexivity.
  - intros tid axes ns c w w1 H.
    unfold MeanPercentilesCalculator.__init__ in H. py_inv. by subst.
Qed.

Lemma MeanPercentiles_finalize_warning_witness :
  (exists d, MeanPercentilesCalculator.finalize ex_percentiles_observed []
             = (Ok d, [] ++ [naive_warning]))
  /\ MeanPercentilesCalculator.finalize ex_percentiles_fresh [] = (Ok ∅, []).
Proof.
  split.
  - apply (proj1 MeanPercentiles_finalize_warning
             ex_percentiles_fresh ex_sample ex_percentiles_observed [] []).
    vm_compute. reflexivity.
  - apply (proj2 MeanPercentiles_finalize_warning
             "raw" None [Qc_of_nat 50] ex_percentiles_fresh [] []).
    vm_compute. reflexivity.
Defined.

(** C8 (as stated, refuted): a calculator fresh from its constructor
    finalizes to the empty dictionary and the log of warnings stays empty. *)
Lemma MeanPercentiles_finalize_fresh_silent :
  MeanPercentilesCalculator.__init__ "raw" None [Qc_of_nat 50] []
  = (Ok ex_percentiles_fresh, [])
  /\ MeanPercentilesCalculator.finalize ex_percentiles_fresh [] = (Ok ∅, []).
Proof. split; reflexivity. Qed.

(** ** The sketch-based dataset percentiles *)

Lemma Crick_update_exhausts env c s c1 w w1 :
  CrickPercentilesCalculator.update env c s w = (Ok c1, w1) ->
  is_Some (CrickPercentilesCalculator._digest c1)
  /\ CrickPercentilesCalculator._indices c1 = Some []
  /\ is_Some (CrickPercentilesCalculator._dims c1).
Proof.
  unfold CrickPercentilesCalculator.update. intros H. py_inv.
  destruct (CrickPercentilesCalculator._digest a1) as [dg|]; [|by py_inv].
  destruct (CrickPercentilesCalculator._indices a1) as [ix|]; [|by py_inv].
  destruct (CrickPercentilesCalculator._dims a1) as [ds|] eqn:Hds; [|by py_inv].
  py_inv. subst c1. cbn. eauto.
Qed.

(** C4 (the code departs from the claim): an update that follows another
    one feeds nothing to the sketches.  The first update has run the iterator
    [_indices] to its end, so the loop of every later update has no turn and
    the digests stay as they were. *)
Theorem Crick_second_update_feeds_nothing env c s1 s2 c1 c2 w w1 w2 :
  CrickPercentilesCalculator.update env c s1 w = (Ok c1, w1) ->
  CrickPercentilesCalculator.update env c1 s2 w1 = (Ok c2, w2) ->
  CrickPercentilesCalculator._digest c2 = CrickPercentilesCalculator._digest c1.
Proof.
  intros ([dg Hdg] & Hix & [ds Hds])%Crick_update_exhausts H2.
  unfold CrickPercentilesCalculator.update in H2. py_inv.
  rewrite Hdg in *. py_inv. subst.
  rewrite Hdg, Hix, Hds in H2. cbn [imap for_each] in H2.
  py_inv. subst. by cbn.
Qed.

Lemma Crick_second_update_feeds_nothing_witness :
  CrickPercentilesCalculator._digest ex_crick_twice
  = CrickPercentilesCalculator._digest ex_crick_once.
Proof.
  apply (Crick_second_update_feeds_nothing ex_env ex_crick_fresh
           ex_sample ex_sample2 ex_crick_once ex_crick_twice [] [] []);
    vm_compute; reflexivity.
Defined.

(** after the samples [[1, 2]] and [[3, 4]] the one sketch holds 1 and 2 only *)
Lemma Crick_two_updates_digest :
  CrickPercentilesCalculator.update ex_env ex_crick_fresh ex_sample []
  = (Ok ex_crick_once, [])
  /\ CrickPercentilesCalculator.update ex_env ex_crick_once ex_sample2 []
     = (Ok ex_crick_twice, [])
  /\ CrickPercentilesCalculator._digest ex_crick_twice
     = Some [TDigest.mk [Qc_of_nat 1; Qc_of_nat 2]].
Proof. repeat split; vm_compute; reflexivity. Qed.

(** ** Element types of the sample moments *)

Lemma reduce_dtype op dt axes t r w w1 :
  reduce op dt axes t w = (Ok r, w1) -> dtype r = dt.
Proof.
  unfold reduce. intros H. py_inv. by subst.
Qed.

Lemma binop_dtype f a b r w w1 :
  binop f a b w = (Ok r, w1) -> dtype r = result_type (dtype a) (dtype b).
Proof.
  unfold binop. destruct (sizes_agree a b); intros H; py_inv. by subst.
Qed.

Lemma getitem_Ok s tid t w w1 :
  getitem s tid w = (Ok t, w1) <-> data s !! tid = Some t /\ w1 = w.
Proof.
  unfold getitem. destruct (data s !! tid); split.
  - intros H. py_inv. by subst.
  - by intros [[= ->] ->].
  - intros H. py_inv.
  - by intros [? _].
Qed.

Lemma getitem_lookup s tid t w :
  data s !! tid = Some t -> getitem s tid w = (Ok t, w).
Proof. intros. by apply getitem_Ok. Qed.

Lemma ex_sample_raw : data ex_sample !! "raw" = Some ex_tensor.
Proof. apply lookup_singleton_eq. Qed.

(** C5 (the code departs from the claim): on a [float32] tensor
    [MeanVarStdCalculator.compute] returns mean, variance and std as
    [float32] arrays.  [compute] takes the tensor as it is, where [update] and
    [MeanCalculator._compute_impl] first convert it with
    [astype(np.float64)]. *)
Theorem MeanVarStd_compute_float32 sqrt c s t d w w1 :
  data s !! MeanVarStdCalculator._tensor_id c = Some t ->
  dtype t = float32 ->
  MeanVarStdCalculator.compute sqrt c s w = (Ok d, w1) ->
  let tid := MeanVarStdCalculator._tensor_id c in
  let axes := MeanVarStdCalculator._axes c in
  dtype <$> d !! SampleMean tid axes = Some float32
  /\ dtype <$> d !! SampleVar tid axes = Some float32
  /\ dtype <$> d !! SampleStd tid axes = Some float32.
Proof.
  intros Ht Hdt H. unfold MeanVarStdCalculator.compute in H. py_inv.
  apply getitem_Ok in Hstep as [Hs ->]. rewrite Ht in Hs. injection Hs as <-.
  apply reduce_dtype in Hstep0. apply binop_dtype in Hstep1.
  apply binop_dtype in Hstep3. apply reduce_dtype in Hstep4.
  rewrite Hdt in *. cbn in Hstep0. rewrite Hstep0 in Hstep1. cbn in Hstep1.
  rewrite Hstep1 in Hstep3. cbn in Hstep3. rewrite Hstep3 in Hstep4.
  subst d. cbn zeta.
  split_and!.
  - rewrite !lookup_insert_ne, lookup_singleton_eq by done. cbn. by f_equal.
  - rewrite lookup_insert_ne, lookup_insert_eq by done. cbn.
    by rewrite Hstep4.
  - rewrite lookup_insert_eq. cbn. by rewrite Hstep4.
Qed.


Lemma MeanVarStd_compute_float32_witness :
  exists d,
    MeanVarStdCalculator.compute (sqrt_fn ex_env) ex_mvs_fresh ex_sample []
    = (Ok d, [])
    /\ dtype <$> d !! SampleMean "raw" None = Some float32
    /\ dtype <$> d !! SampleVar "raw" None = Some float32
    /\ dtype <$> d !! SampleStd "raw" None = Some float32.
Proof.
  assert (H : exists d,
    MeanVarStdCalculator.compute (sqrt_fn ex_env) ex_mvs_fresh ex_sample []
    = (Ok d, [])).
  { unfold MeanVarStdCalculator.compute.
    rewrite run_bind, (getitem_lookup _ _ _ _ ex_sample_raw).
    generalize (@insert Measure DataArray (gmap Measure DataArray) _).
    generalize (@singletonM Measure DataArray (gmap Measure DataArray) _).
    intros sing ins. eexists. vm_compute. exact eq_refl. }
  destruct H as [d Hd]. exists d. split; [exact Hd|].
  apply (MeanVarStd_compute_float32 (sqrt_fn ex_env) ex_mvs_fresh ex_sample
           ex_tensor d [] []).
  - exact ex_sample_raw.
  - reflexivity.
  - exact Hd.
Defined.

(** ** The coordinator and its calculators *)

Lemma fresh_wf calc : fresh_calculator calc -> wf_calculator calc.
Proof.
  destruct calc as [c|c|c|c]; cbn; try done.
  - intros [-> _] [? [=]].
  - intros [Hd Hl]. split; [done|]. intros dg. by rewrite Hd.
Qed.

Lemma for_each_inv {A S} (P : S -> Prop) (l : list A) body s w s' w' :
  P s ->
  (forall x s w s' w', P s -> body x s w = (Ok s', w') -> P s') ->
  for_each l body s w = (Ok s', w') -> P s'.
Proof.
  intros Hs Hbody. revert s w Hs.
  induction l as [|x l IH]; intros s w Hs H; cbn in H; py_inv.
  - by subst.
  - eapply IH; [|done]. eauto.
Qed.

Lemma for_each_length {A B} (l : list A) (f : A -> Py B) acc w r w' :
  for_each l (fun x done => y ← f x; mret (done ++ [y])) acc w = (Ok r, w') ->
  length r = length acc + length l.
Proof.
  revert acc w. induction l as [|x l IH]; intros acc w H; cbn in H; py_inv.
  - subst. cbn. lia.
  - subst. apply IH in H. rewrite length_app in H. cbn in *. lia.
Qed.

Lemma odict_set_head k v k0 v0 l :
  k <> k0 -> exists l', odict_set k v ((k0, v0) :: l) = (k0, v0) :: l'.
Proof. intros. cbn. rewrite decide_False by done. eauto. Qed.

Lemma out_sizes_head (axes : list string) n sizes l :
  "_percentiles" ∉ sizes.*1 ->
  exists l',
    foldl (fun out (ds : string * nat) =>
             if bool_decide (ds.1 ∈ axes) then out
             else odict_set ds.1 ds.2 out)
      (("_percentiles", n) :: l) sizes
    = ("_percentiles", n) :: l'.
Proof.
  revert l. induction sizes as [|[d s] sizes IH]; intros l Hnot;
    cbn [foldl fst snd].
  - eauto.
  - rewrite fmap_cons, not_elem_of_cons in Hnot. destruct Hnot as [Hd Hrest].
    cbn in Hd. destruct (bool_decide (d ∈ axes)); [by apply IH|].
    destruct (odict_set_head d s "_percentiles" n l) as [l' ->]; [done|].
    by apply IH.
Qed.

Lemma Crick_initialize_wf env c sizes c' w w' :
  "_percentiles" ∉ sizes.*1 ->
  length (CrickPercentilesCalculator._qs c)
  = length (CrickPercentilesCalculator._ns c) ->
  CrickPercentilesCalculator._initialize env c sizes w = (Ok c', w') ->
  wf_calculator (DC_CrickPercentiles c')
  /\ is_Some (CrickPercentilesCalculator._digest c')
  /\ is_Some (CrickPercentilesCalculator._indices c')
  /\ is_Some (CrickPercentilesCalculator._dims c').
Proof.
  intros Hnot Hlen H. unfold CrickPercentilesCalculator._initialize in H.
  py_inv. subst c'. cbn. split_and!; try (by eexists); try done.
  intros dg [= <-]. eexists _, _. split_and!; try done.
  rewrite length_replicate, Hlen.
  destruct (CrickPercentilesCalculator._axes c) as [axes|].
  - destruct (out_sizes_head axes (length (CrickPercentilesCalculator._ns c))
                sizes [] Hnot) as [l' ->]. by cbn.
  - by cbn.
Qed.

Lemma elem_of_zip_fst {A B} (x : A) (l : list A) (k : list B) :
  x ∈ (zip l k).*1 -> x ∈ l.
Proof.
  revert k. induction l as [|y l IH]; intros [|z k]; cbn; try done.
  - by intros ?%elem_of_nil.
  - rewrite !elem_of_cons. intros [->|?]; eauto.
Qed.

Lemma calc_update_wf env calc s calc' w w' :
  wf_calculator calc ->
  calc_update env calc s w = (Ok calc', w') ->
  wf_calculator calc'.
Proof.
  intros Hwf H. destruct calc as [c|c|c|c]; cbn in H; py_inv; subst calc'.
  - done.
  - cbn. intros _.
    unfold MeanVarStdCalculator.update in Hstep. py_inv.
    destruct (MeanVarStdCalculator._mean c).
    + py_inv. destruct (MeanVarStdCalculator._m2 c); py_inv.
      subst. by eexists.
    + py_inv. subst. by eexists.
  - done.
  - unfold CrickPercentilesCalculator.update in Hstep. py_inv.
    assert (Hself : wf_calculator (DC_CrickPercentiles a2)).
    { destruct Hwf as [Hlen Hdg].
      destruct (CrickPercentilesCalculator._digest c) as [dg|] eqn:Hc.
      - py_inv. subst a2. split; [done|]. by rewrite Hc.
      - eapply Crick_initialize_wf in Hstep2 as [? _]; [done| |done].
        intros Hin%elem_of_zip_fst. apply negb_true_iff in H.
        by apply bool_decide_eq_false in H. }
    clear Hstep2. destruct Hself as [Hlen Hdg].
    destruct (CrickPercentilesCalculator._digest a2) as [dg|]; [|by py_inv].
    destruct (CrickPercentilesCalculator._indices a2) as [ix|]; [|by py_inv].
    destruct (CrickPercentilesCalculator._dims a2) as [ds|] eqn:Hds;
      [|by py_inv].
    py_inv. subst. cbn. split; [done|]. intros dg' [= <-].
    destruct (Hdg dg eq_refl) as (ds' & sh & _ & Hsh & Hprod).
    exists ds, sh. split_and!; try done.
    rewrite <- Hprod. f_equal.
    match goal with
    | Hfor : for_each _ _ _ _ = _ |- _ =>
        eapply (for_each_inv (fun d => length d = length dg));
          [done| |exact Hfor]
    end.
    clear. intros [i idx] dg0 w dg1 w1 Hl Hb. py_inv.
    destruct (dg0 !! i); py_inv. subst. by rewrite length_insert.
Qed.

Lemma calc_finalize_total env calc w :
  wf_calculator calc -> exists d w', calc_finalize env calc w = (Ok d, w').
Proof.
  intros Hwf. destruct calc as [c|c|c|c]; cbn in *.
  - (eexists _, _; reflexivity).
  - unfold MeanVarStdCalculator.finalize.
    destruct (MeanVarStdCalculator._mean c) as [m|]; [|(eexists _, _; reflexivity)].
    destruct (Hwf (ltac:(by eexists))) as [m2 ->].
    eexists _, _; reflexivity.
  - unfold MeanPercentilesCalculator.finalize.
    destruct (MeanPercentilesCalculator._estimates c); (eexists _, _; reflexivity).
  - unfold CrickPercentilesCalculator.finalize. destruct Hwf as [Hlen Hdg].
    destruct (CrickPercentilesCalculator._digest c) as [dg|];
      [|(eexists _, _; reflexivity)].
    destruct (Hdg dg eq_refl) as (ds & sh & -> & -> & Hprod).
    rewrite bool_decide_eq_true_2 by done. (eexists _, _; reflexivity).
Qed.

Lemma for_each_inv_elem {A S} (P : S -> Prop) (l : list A) body s w s' w' :
  P s ->
  (forall x s w s' w', x ∈ l -> P s -> body x s w = (Ok s', w') -> P s') ->
  for_each l body s w = (Ok s', w') -> P s'.
Proof.
  intros Hs Hbody. revert s w Hs.
  induction l as [|x l IH]; intros s w Hs H; cbn in H; py_inv.
  - by subst.
  - eapply IH; [| |done].
    + intros. eapply Hbody; [|done..]. by right.
    + eapply Hbody; [|done..]. by left.
Qed.

Lemma foldl_inv {A B} (P : B -> Prop) (f : B -> A -> B) l acc :
  P acc -> (forall acc x, P acc -> P (f acc x)) -> P (foldl f acc l).
Proof.
  intros Hacc Hf. revert acc Hacc.
  induction l as [|x l IH]; intros acc Hacc; cbn; eauto.
Qed.

Lemma DatasetPercentilesCalculator_fresh env tid axes ns calc w w' :
  DatasetPercentilesCalculator env tid axes ns w = (Ok calc, w') ->
  fresh_calculator calc.
Proof.
  unfold DatasetPercentilesCalculator.
  destruct (crick_available env); intros H; py_inv; subst calc.
  - unfold CrickPercentilesCalculator.__init__ in *. py_inv. subst. cbn.
    by rewrite length_fmap.
  - unfold MeanPercentilesCalculator.__init__ in *. py_inv. by subst.
Qed.

Lemma get_measure_calculators_fresh env measures sc dc w w' :
  get_measure_calculators env measures w = (Ok (sc, dc), w') ->
  Forall fresh_calculator dc.
Proof.
  unfold get_measure_calculators. intros H. py_inv.
  match goal with H : (_, _) = (sc, dc) |- _ => injection H as <- <- end.
  match goal with
  | Hfor : for_each _ _ _ _ = (Ok ?r, _) |- Forall _ ?r =>
      eapply (for_each_inv (Forall fresh_calculator)); [| |exact Hfor]
  end.
  - apply foldl_inv; [apply foldl_inv|].
    + constructor.
    + intros acc x Hacc. case_bool_decide; [done|].
      apply Forall_app. split; [done|]. by repeat constructor.
    + intros acc x Hacc. apply Forall_app. split; [done|].
      by repeat constructor.
  - clear. intros [[tid axes] ns] cs w cs' w' Hcs H. py_inv. subst.
    apply Forall_app. split; [done|]. repeat constructor.
    by eapply DatasetPercentilesCalculator_fresh.
Qed.

Lemma StatsCalculator_init_fresh env measures initial st w w' :
  StatsCalculator.__init__ env measures initial w = (Ok st, w') ->
  Forall fresh_calculator (StatsCalculator.dataset_calculators st)
  /\ StatsCalculator.sample_count st = 0.
Proof.
  unfold StatsCalculator.__init__. intros H. py_inv.
  match goal with a : (_ * _)%type |- _ => destruct a as [sc dc] end.
  match goal with
  | Hp : get_measure_calculators _ _ _ = _ |- _ =>
      apply get_measure_calculators_fresh in Hp
  end.
  destruct initial as [initial|]; [case_bool_decide|]; py_inv; by subst.
Qed.

Lemma update_calculators_wf env s dc dc' w w' :
  Forall wf_calculator dc ->
  for_each dc
    (fun calc done => calc' ← calc_update env calc s; mret (done ++ [calc']))
    [] w = (Ok dc', w') ->
  Forall wf_calculator dc'.
Proof.
  intros Hdc H.
  eapply (for_each_inv_elem (Forall wf_calculator)); [constructor| |exact H].
  intros calc done w0 done' w0' Hin Hdone Hb. py_inv. subst.
  apply Forall_app. split; [done|]. repeat constructor.
  eapply calc_update_wf; [|done]. by eapply Forall_forall in Hdc.
Qed.

Lemma StatsCalculator_update_wf env st sample last st' w w' :
  wf_stats st ->
  StatsCalculator._update env st sample w = (Ok (last, st'), w') ->
  wf_stats st'.
Proof.
  unfold StatsCalculator._update, wf_stats. intros Hwf H. py_inv.
  match goal with a : (_ * _)%type |- _ => destruct a as [l dc] end.
  py_inv.
  match goal with H : (_, _) = (last, st') |- _ => injection H as <- <- end.
  cbn.
  match goal with
  | Hfor : for_each _ _ _ _ = (Ok (l, dc), _) |- _ =>
      apply (for_each_inv (fun p => Forall wf_calculator p.2)) in Hfor;
        [done|done|]
  end.
  clear. intros s [l dc] w [l' dc'] w' Hdc Hb. py_inv.
  match goal with H : (_, _) = (l', dc') |- _ => injection H as <- <- end.
  by eapply update_calculators_wf.
Qed.

Lemma StatsCalculator_finalize_frame env st d st' w w' :
  StatsCalculator.finalize env st w = (Ok (d, st'), w') ->
  StatsCalculator.dataset_calculators st' = StatsCalculator.dataset_calculators st
  /\ StatsCalculator.sample_calculators st' = StatsCalculator.sample_calculators st
  /\ StatsCalculator.sample_count st' = StatsCalculator.sample_count st
  /\ StatsCalculator._current_dataset_measures st' = Some d.
Proof.
  unfold StatsCalculator.finalize. intros H.
  destruct (StatsCalculator._current_dataset_measures st) eqn:Hc; py_inv.
  - match goal with H : (_, _) = (d, st') |- _ => injection H as <- <- end.
    done.
  - match goal with H : (_, _) = (d, st') |- _ => injection H as <- <- end.
    done.
Qed.

Lemma reachable_wf env st : reachable env st -> wf_stats st.
Proof.
  induction 1 as [measures initial w st w' Hinit
                 |st sample w st' w' _ IH Hupd
                 |st w d st' w' _ IH Hfin
                 |st sample w d st' w' _ IH Hall
                 |st sample w d st' w' _ IH Hskip].
  - apply StatsCalculator_init_fresh in Hinit as [Hfresh _].
    eapply Forall_impl; [exact Hfresh|]. apply fresh_wf.
  - unfold StatsCalculator.update in Hupd. py_inv.
    match goal with a : (_ * _)%type |- _ => destruct a as [l st1] end.
    py_inv. subst. by eapply StatsCalculator_update_wf.
  - apply StatsCalculator_finalize_frame in Hfin as (Hdc & _).
    unfold wf_stats. by rewrite Hdc.
  - unfold StatsCalculator.update_and_get_all in Hall. py_inv.
    match goal with a : (_ * _)%type |- _ => destruct a as [l st1] end.
    destruct l as [last|]; py_inv.
    match goal with a : (_ * _)%type |- _ => destruct a as [dm st2] end.
    py_inv.
    match goal with H : (_, _) = (d, st') |- _ => injection H as <- <- end.
    match goal with
    | Hf : StatsCalculator.finalize _ _ _ = _ |- _ =>
        apply StatsCalculator_finalize_frame in Hf as (Hdc & _)
    end.
    unfold wf_stats. rewrite Hdc. by eapply StatsCalculator_update_wf.
  - unfold StatsCalculator.skip_update_and_get_all in Hskip. py_inv.
    match goal with a : (_ * _)%type |- _ => destruct a as [dm st2] end.
    py_inv.
    match goal with H : (_, _) = (d, st') |- _ => injection H as <- <- end.
    match goal with
    | Hf : StatsCalculator.finalize _ _ _ = _ |- _ =>
        apply StatsCalculator_finalize_frame in Hf as (Hdc & _)
    end.
    unfold wf_stats. by rewrite Hdc.
Qed.

Lemma finalize_calculators_total env calcs d0 w :
  Forall wf_calculator calcs ->
  exists ms w',
    for_each calcs
      (fun calc d => values ← calc_finalize env calc;
                     mret (dict_update d values)) d0 w
    = (Ok (foldl dict_update d0 ms), w')
    /\ Forall2 (fun calc m => exists wa wb,
                  calc_finalize env calc wa = (Ok m, wb)) calcs ms.
Proof.
  intros Hwf. revert d0 w.
  induction Hwf as [|calc calcs Hcalc _ IH]; intros d0 w.
  - exists [], w. split; [reflexivity|constructor].
  - destruct (calc_finalize_total env calc w Hcalc) as (m & w1 & Hm).
    destruct (IH (dict_update d0 m) w1) as (ms & w2 & Hms & Hall).
    exists (m :: ms), w2. split.
    + cbn [for_each foldl]. rewrite !run_bind, Hm, run_ret. exact Hms.
    + constructor; eauto.
Qed.

Lemma StatsCalculator_finalize_total env st w :
  wf_stats st ->
  exists d st1 w1, StatsCalculator.finalize env st w = (Ok (d, st1), w1).
Proof.
  intros Hwf. unfold StatsCalculator.finalize.
  destruct (StatsCalculator._current_dataset_measures st) as [d|].
  - eexists _, _, _. reflexivity.
  - destruct (finalize_calculators_total env _ ∅ w Hwf) as (ms & w1 & Hms & _).
    eexists _, _, _. rewrite run_bind, Hms, run_ret. reflexivity.
Qed.

(** C3: in every reachable state of a [StatsCalculator], [finalize] returns,
    and a second [finalize] right after it returns the same dictionary and
    leaves the coordinator and the warnings as they are; the result is
    cached.  When nothing was cached, the result is the dictionaries that the
    dataset calculators' [finalize] return, merged in order. *)
Theorem finalize_idempotent env st w :
  reachable env st ->
  exists d st1 w1,
    StatsCalculator.finalize env st w = (Ok (d, st1), w1)
    /\ StatsCalculator.finalize env st1 w1 = (Ok (d, st1), w1)
    /\ StatsCalculator._current_dataset_measures st1 = Some d
    /\ (StatsCalculator._current_dataset_measures st = None ->
        exists ms,
          Forall2 (fun calc m => exists wa wb,
                     calc_finalize env calc wa = (Ok m, wb))
            (StatsCalculator.dataset_calculators st) ms
          /\ d = foldl dict_update ∅ ms).
Proof.
  intros Hwf%reachable_wf. unfold StatsCalculator.finalize at 1.
  destruct (StatsCalculator._current_dataset_measures st) as [d|] eqn:Hc.
  - exists d, st, w. split_and!; try done.
    unfold StatsCalculator.finalize. by rewrite Hc.
  - destruct (finalize_calculators_total env _ ∅ w Hwf) as (ms & w1 & Hms & Hall).
    eexists _, _, w1. split_and!.
    + rewrite run_bind, Hms, run_ret. reflexivity.
    + reflexivity.
    + reflexivity.
    + intros _. by exists ms.
Qed.

Lemma StatsCalculator_update_inv env st sample last st' w w' :
  StatsCalculator._update env st sample w = (Ok (last, st'), w') ->
  StatsCalculator.sample_count st' = StatsCalculator.sample_count st + 1
  /\ StatsCalculator._current_dataset_measures st' = None
  /\ StatsCalculator.sample_calculators st'
     = StatsCalculator.sample_calculators st.
Proof.
  unfold StatsCalculator._update. intros H. py_inv.
  match goal with a : (_ * _)%type |- _ => destruct a as [l dc] end.
  py_inv.
  match goal with H : (_, _) = (last, st') |- _ => injection H as <- <- end.
  done.
Qed.

Lemma update_loop_last env (l : list Sample) x0 dc0 lst dc w w' :
  for_each l
    (fun s '(_, dc) =>
       dc' ← for_each dc
               (fun calc done => calc' ← calc_update env calc s;
                                 mret (done ++ [calc'])) [];
       mret (Some s, dc'))
    (x0, dc0) w = (Ok (lst, dc), w') ->
  lst = match last l with Some s => Some s | None => x0 end.
Proof.
  revert x0 dc0 w. induction l as [|s l IH]; intros x0 dc0 w H; cbn in H.
  - py_inv. cbn. congruence.
  - py_inv.
    match goal with a : (_ * _)%type |- _ => destruct a as [x1 dc1] end.
    py_inv.
    match goal with H : (_, _) = (x1, dc1) |- _ => injection H as <- <- end.
    apply IH in H. rewrite H. destruct l as [|s' l]; [done|].
    cbn [last]. by destruct (last (s' :: l)) eqn:Hl;
      [|apply last_None in Hl].
Qed.

Lemma StatsCalculator_update_last env st sample lst st' w w' :
  StatsCalculator._update env st sample w = (Ok (lst, st'), w') ->
  lst = last_sample sample.
Proof.
  unfold StatsCalculator._update. intros H. py_inv.
  match goal with a : (_ * _)%type |- _ => destruct a as [l dc] end.
  py_inv.
  match goal with H : (_, _) = (lst, st') |- _ => injection H as <- _ end.
  match goal with
  | Hfor : for_each _ _ _ _ = _ |- _ => apply update_loop_last in Hfor
  end.
  subst l. destruct sample as [s|l]; cbn; [done|]. by destruct (last l).
Qed.

(** C10: a call of [update] that returns has raised [sample_count] by
    exactly one and left no cached dataset measures, whatever the argument
    yields.  With an iterable that yields nothing the call returns, the
    calculators are untouched, and the next [finalize] computes its result
    from these calculators. *)
Theorem update_counts_once_and_invalidates env st :
  (forall sample st' w w',
      StatsCalculator.update env st sample w = (Ok st', w') ->
      StatsCalculator.sample_count st' = StatsCalculator.sample_count st + 1
      /\ StatsCalculator._current_dataset_measures st' = None)
  /\ (forall w,
        StatsCalculator.update env st (StatsCalculator.Samples []) w
        = (Ok (StatsCalculator.mk (StatsCalculator.sample_count st + 1)
                 (StatsCalculator.sample_calculators st)
                 (StatsCalculator.dataset_calculators st) None), w))
  /\ (forall w st',
        StatsCalculator.update env st (StatsCalculator.Samples []) w
        = (Ok st', w) ->
        StatsCalculator.finalize env st' w
        = (d ← for_each (StatsCalculator.dataset_calculators st)
                 (fun calc d => values ← calc_finalize env calc;
                                mret (dict_update d values)) ∅;
           mret (d, StatsCalculator.mk (StatsCalculator.sample_count st + 1)
                      (StatsCalculator.sample_calculators st)
                      (StatsCalculator.dataset_calculators st) (Some d))) w).
Proof.
  split_and!.
  - intros sample st' w w' H. unfold StatsCalculator.update in H. py_inv.
    match goal with a : (_ * _)%type |- _ => destruct a as [l st1] end.
    py_inv. subst.
    match goal with
    | Hu : StatsCalculator._update _ _ _ _ = _ |- _ =>
        apply StatsCalculator_update_inv in Hu as (? & ? & _)
    end.
    done.
  - reflexivity.
  - intros w st' [= <-]. reflexivity.
Qed.


Lemma calc_finalize_fresh env calc w :
  fresh_calculator calc -> calc_finalize env calc w = (Ok ∅, w).
Proof.
  destruct calc as [c|c|c|c]; cbn.
  - unfold MeanCalculator.finalize. by intros ->.
  - unfold MeanVarStdCalculator.finalize. by intros [-> _].
  - unfold MeanPercentilesCalculator.finalize. by intros ->.
  - unfold CrickPercentilesCalculator.finalize. by intros [-> _].
Qed.

Lemma finalize_calculators_fresh env calcs w :
  Forall fresh_calculator calcs ->
  for_each calcs
    (fun calc d => values ← calc_finalize env calc;
                   mret (dict_update d values)) ∅ w
  = (Ok ∅, w).
Proof.
  induction 1 as [|calc calcs Hcalc _ IH]; [reflexivity|].
  cbn [for_each]. rewrite !run_bind, calc_finalize_fresh, run_ret by done.
  unfold dict_update. rewrite (left_id_L ∅ (∪)). exact IH.
Qed.


(** *** The coordinator on an example *)

Lemma ex_stats_updated_reachable : reachable ex_env ex_stats_updated.
Proof.
  apply (reach_update ex_env ex_stats_fresh (StatsCalculator.OneSample ex_sample)
           [] ex_stats_updated []).
  - apply (reach_init ex_env ex_measures None [] ex_stats_fresh []).
    vm_compute. reflexivity.
  - vm_compute. reflexivity.
Defined.

Lemma finalize_idempotent_witness :
  exists d st1 w1,
    StatsCalculator.finalize ex_env ex_stats_updated [] = (Ok (d, st1), w1)
    /\ StatsCalculator.finalize ex_env st1 w1 = (Ok (d, st1), w1)
    /\ StatsCalculator._current_dataset_measures st1 = Some d
    /\ (StatsCalculator._current_dataset_measures ex_stats_updated = None ->
        exists ms,
          Forall2 (fun calc m => exists wa wb,
                     calc_finalize ex_env calc wa = (Ok m, wb))
            (StatsCalculator.dataset_calculators ex_stats_updated) ms
          /\ d = foldl dict_update ∅ ms).
Proof.
  apply (finalize_idempotent ex_env ex_stats_updated []).
  exact ex_stats_updated_reachable.
Defined.

Lemma update_counts_once_and_invalidates_witness :
  StatsCalculator.sample_count ex_stats_updated
  = StatsCalculator.sample_count ex_stats_fresh + 1
  /\ StatsCalculator._current_dataset_measures ex_stats_updated = None.
Proof.
  apply (proj1 (update_counts_once_and_invalidates ex_env ex_stats_fresh)
           (StatsCalculator.OneSample ex_sample) ex_stats_updated [] []).
  vm_compute. reflexivity.
Defined.

Lemma ex_update_one :
  StatsCalculator._update ex_env ex_stats_fresh
    (StatsCalculator.OneSample ex_sample) []
  = (Ok (Some ex_sample, ex_stats_updated), []).
Proof. vm_compute. reflexivity. Qed.

Lemma ex_compute_sample : exists sm,
  StatsCalculator._compute ex_env ex_stats_updated ex_sample [] = (Ok sm, []).
Proof.
  unfold StatsCalculator._compute, ex_stats_updated.
  cbn [StatsCalculator.sample_calculators for_each calc_compute].
  unfold MeanCalculator.compute, dict_update.
  generalize (@singletonM Measure DataArray (gmap Measure DataArray) _).
  generalize (@union (gmap Measure DataArray) _).
  generalize (@empty (gmap Measure DataArray) _).
  intros emp un sing. eexists. vm_compute. exact eq_refl.
Qed.


(** ** Indexing *)

Lemma length_bind_uniform {A B} (f : A -> list B) (l : list A) P :
  (forall a, length (f a) = P) -> length (l ≫= f) = length l * P.
Proof.
  intros Hf. induction l as [|a l IH]; [done|].
  rewrite bind_cons, length_app, Hf, IH. simpl. lia.
Qed.

Lemma lookup_bind_uniform {A B} (f : A -> list B) (l : list A) P i r x :
  (forall a, length (f a) = P) -> l !! i = Some x -> r < P ->
  (l ≫= f) !! (i * P + r) = f x !! r.
Proof.
  intros Hf. revert i. induction l as [|a l IH]; intros [|i] Hi Hr;
    try done; rewrite bind_cons.
  - injection Hi as ->. simpl. rewrite lookup_app_l; [done|]. by rewrite Hf.
  - simpl in Hi. rewrite lookup_app_r; rewrite Hf; [|simpl; lia].
    replace (S i * P + r - P) with (i * P + r) by (simpl; lia). by apply IH.
Qed.

Lemma ndindex_length sh : length (ndindex sh) = np_prod sh.
Proof.
  induction sh as [|n sh IH]; [done|]. cbn [ndindex np_prod foldr].
  rewrite (length_bind_uniform _ _ (np_prod sh)).
  - by rewrite length_seq.
  - intros a. by rewrite length_fmap.
Qed.

Lemma ravel_lt sh idx : Forall2 lt idx sh -> ravel sh idx < np_prod sh.
Proof.
  induction 1 as [|i n idx sh Hi _ IH]; cbn [ravel np_prod foldr]; [lia|].
  fold (np_prod sh). nia.
Qed.

Lemma ndindex_lookup sh idx :
  Forall2 lt idx sh -> ndindex sh !! ravel sh idx = Some idx.
Proof.
  induction 1 as [|i n idx sh Hi Hrest IH]; [done|].
  cbn [ndindex ravel].
  rewrite (lookup_bind_uniform _ _ (np_prod sh) i (ravel sh idx) i).
  - by rewrite list_lookup_fmap, IH.
  - intros a. by rewrite length_fmap, ndindex_length.
  - by apply lookup_seq.
  - by apply ravel_lt.
Qed.

Lemma elem_of_ndindex sh idx : idx ∈ ndindex sh <-> Forall2 lt idx sh.
Proof.
  revert idx. induction sh as [|n sh IH]; intros idx; cbn [ndindex].
  - rewrite list_elem_of_singleton. split; [intros ->; constructor|].
    by intros ->%Forall2_nil_inv_r.
  - rewrite list_elem_of_bind. split.
    + intros (i & Hin & Hi). apply elem_of_seq in Hi.
      apply list_elem_of_fmap in Hin as (idx' & -> & Hidx').
      constructor; [lia|]. by apply IH.
    + intros H. apply Forall2_cons_inv_r in H as (i & idx' & Hi & Hrest & ->).
      exists i. split; [|apply elem_of_seq; lia].
      apply list_elem_of_fmap. exists idx'. split; [done|]. by apply IH.
Qed.

Lemma item_build ds sh dt f idx :
  Forall2 lt idx sh -> item (build ds sh dt f) idx = f idx.
Proof.
  intros Hidx. unfold item, build. cbn [values shape].
  by rewrite list_lookup_fmap, ndindex_lookup.
Qed.

Lemma build_ext ds sh dt f g :
  (forall idx, Forall2 lt idx sh -> f idx = g idx) ->
  build ds sh dt f = build ds sh dt g.
Proof.
  intros Hfg. unfold build. f_equal. apply list_fmap_ext.
  intros i idx Hi. apply Hfg, elem_of_ndindex. by eapply list_elem_of_lookup_2.
Qed.

(** ** Reduction groups *)

Lemma group_length {V} sh fl oidx (f : list nat -> V) :
  length (kept fl sh) <= length oidx ->
  length (group sh fl oidx f) = np_prod (dropped fl sh).
Proof.
  revert fl oidx f. induction sh as [|n sh IH]; intros [|r fl] oidx f Hlen;
    try done.
  cbn [group dropped kept] in *. destruct r.
  - cbn [np_prod foldr]. fold (np_prod (dropped fl sh)).
    rewrite (length_bind_uniform _ _ (np_prod (dropped fl sh))).
    + by rewrite length_seq.
    + intros i. by apply IH.
  - destruct oidx as [|o oidx]; [cbn in Hlen; lia|].
    apply IH. cbn in Hlen. lia.
Qed.

Lemma np_prod_pos sh : Forall (lt 0) sh -> 0 < np_prod sh.
Proof.
  induction 1 as [|n sh Hn _ IH]; cbn [np_prod foldr]; [lia|].
  fold (np_prod sh). nia.
Qed.

Lemma Forall_dropped {A} (P : A -> Prop) fl (l : list A) :
  Forall P l -> Forall P (dropped fl l).
Proof.
  intros H. revert fl. induction H as [|x l Hx _ IH]; intros [|[] fl];
    cbn [dropped]; try constructor; auto.
Qed.

Lemma Forall_kept {A} (P : A -> Prop) fl (l : list A) :
  Forall P l -> Forall P (kept fl l).
Proof.
  intros H. revert fl. induction H as [|x l Hx _ IH]; intros [|[] fl];
    cbn [kept]; try constructor; auto.
Qed.

Lemma fmap_list_bind {A B C} (g : B -> C) (f : A -> list B) (l : list A) :
  g <$> (l ≫= f) = l ≫= (fun a => g <$> f a).
Proof.
  induction l as [|a l IH]; [done|]. by rewrite !bind_cons, fmap_app, IH.
Qed.

Lemma list_bind_ext_elem {A B} (f g : A -> list B) (l : list A) :
  (forall a, a ∈ l -> f a = g a) -> l ≫= f = l ≫= g.
Proof.
  induction l as [|a l IH]; intros H; [done|].
  rewrite !bind_cons, H, IH; [done| |by left].
  intros. apply H. by right.
Qed.

Lemma group_fmap {V W} (g : V -> W) sh fl oidx (f : list nat -> V) :
  group sh fl oidx (fun idx => g (f idx)) = g <$> group sh fl oidx f.
Proof.
  revert fl oidx f. induction sh as [|n sh IH]; intros [|r fl] oidx f;
    try done.
  cbn [group]. destruct r.
  - rewrite fmap_list_bind. apply list_bind_ext_elem.
    intros i _. apply (IH fl oidx (fun tl => f (i :: tl))).
  - destruct oidx as [|o oidx]; [done|].
    apply (IH fl oidx (fun tl => f (o :: tl))).
Qed.

(** ** Quantiles at the ends *)








(** ** Sample percentiles at ranks 0 and 100 *)

Lemma dict_zip_acc {K} `{Countable K} {V} (ks : list K) (vs : list V)
    (acc : gmap K V) k :
  length ks = length vs ->
  (exists i v, ks !! i = Some k /\ vs !! i = Some v
               /\ (foldl (fun d kv => <[kv.1 := kv.2]> d) acc (zip ks vs)) !! k
                  = Some v)
  \/ ((k ∉ ks)
      /\ (foldl (fun d kv => <[kv.1 := kv.2]> d) acc (zip ks vs)) !! k
         = acc !! k).
Proof.
  revert vs acc. induction ks as [|k0 ks IH]; intros [|v0 vs] acc Hlen;
    try done.
  - right. split; [apply not_elem_of_nil|done].
  - cbn [zip zip_with foldl fst snd].
    destruct (IH vs (<[k0:=v0]> acc)) as [(i & v & Hk & Hv & Hl)|[Hnot Hl]];
      [by injection Hlen| |].
    + left. by exists (S i), v.
    + destruct (decide (k = k0)) as [->|Hne].
      * left. exists 0, v0. rewrite Hl, lookup_insert_eq. done.
      * right. rewrite Hl, lookup_insert_ne by done.
        split; [|done]. rewrite not_elem_of_cons. done.
Qed.

Lemma dict_zip_lookup {K} `{Countable K} {V} (ks : list K) (vs : list V) k :
  length ks = length vs -> k ∈ ks ->
  exists i v, ks !! i = Some k /\ vs !! i = Some v
              /\ dict_zip ks vs !! k = Some v.
Proof.
  intros Hlen Hk. unfold dict_zip.
  destruct (dict_zip_acc ks vs ∅ k Hlen) as [?|[? _]]; done.
Qed.


Lemma iter_first_length t : length (iter_first t) = hd 0 (shape t).
Proof. unfold iter_first. by rewrite length_fmap, length_seq. Qed.

Lemma Qc_of_nat_100_neq_0 : Qc_of_nat 100 <> 0%Qc.
Proof. intros H. apply (f_equal this) in H. discriminate H. Qed.
 
Lemma valid_ranks_valid_q ns :
  valid_ranks ns = true ->
  forallb valid_q ((fun n => n / Qc_of_nat 100)%Qc <$> ns) = true.
Proof.
  unfold valid_ranks. rewrite !forallb_forall. intros Hns q Hq.
  apply list_elem_of_In, list_elem_of_fmap in Hq as (n & -> & Hn).
  apply list_elem_of_In, Hns in Hn.
  apply andb_true_iff in Hn as [H0%bool_decide_eq_true H1%bool_decide_eq_true].
  unfold valid_q.
  assert (Hpos : (0 < Qc_of_nat 100)%Qc) by done.
  apply andb_true_iff. split; apply bool_decide_eq_true.
  - unfold Qcdiv. apply Qcmult_nonneg_nonneg; [done|].
    apply Qclt_le_weak, Qcinv_pos. done.
  - apply (Qcmult_le_mono_pos_r _ _ (Qc_of_nat 100)); [done|].
    replace (n / Qc_of_nat 100 * Qc_of_nat 100)%Qc with n
      by (field; apply Qc_of_nat_100_neq_0).
    by rewrite Qcmult_1_l.
Qed.

Lemma check_dims_Ok axes t w :
  match axes with
  | None => True
  | Some l => Forall (fun a => a ∈ dims t) l
  end ->
  check_dims axes t w = (Ok tt, w).
Proof.
  unfold check_dims. destruct axes as [l|]; [|done]. intros Hl.
  assert (forallb (fun a => bool_decide (a ∈ dims t)) l = true) as ->; [|done].
  apply forallb_forall. intros a Ha%list_elem_of_In.
  apply bool_decide_eq_true. by eapply Forall_forall in Hl.
Qed.

Lemma check_axes_Ok axes t w :
  match axes with
  | None => True
  | Some l => Forall (fun a => a ∈ dims t) l
  end ->
  axes_distinct axes ->
  check_axes axes t w = (Ok tt, w).
Proof.
  unfold check_axes. destruct axes as [l|]; [|done]. intros Hl Hnd.
  assert (forallb (fun a => bool_decide (a ∈ dims t)) l = true) as ->.
  { apply forallb_forall. intros a Ha%list_elem_of_In.
    apply bool_decide_eq_true. by eapply Forall_forall in Hl. }
  by rewrite bool_decide_eq_true_2.
Qed.

Lemma group_nonempty {V} sh fl oidx (f : list nat -> V) :
  Forall (lt 0) sh -> Forall2 lt oidx (kept fl sh) ->
  group sh fl oidx f <> [].
Proof.
  intros Hsh Hoidx%Forall2_length Hnil. apply (f_equal length) in Hnil.
  rewrite group_length in Hnil by lia.
  pose proof (np_prod_pos (dropped fl sh) (Forall_dropped _ _ _ Hsh)).
  simpl in Hnil. lia.
Qed.




(** ** Groups depend on the elements in bounds only *)

(** ** Reduction groups, broadcasting and concatenation *)

Lemma group_ext {V} sh fl oidx (f g : list nat -> V) :
  (forall idx, f idx = g idx) -> group sh fl oidx f = group sh fl oidx g.
Proof.
  revert fl oidx f g. induction sh as [|n sh IH]; intros [|r fl] oidx f g Hfg;
    cbn [group]; try (by rewrite Hfg).
  destruct r.
  - apply list_bind_ext_elem. intros i _. apply IH. intros idx. apply Hfg.
  - destruct oidx as [|o oidx]; [done|]. apply IH. intros idx. apply Hfg.
Qed.

Lemma group_ext_bounds {V} sh fl oidx (f g : list nat -> V) :
  length fl = length sh ->
  Forall2 lt oidx (kept fl sh) ->
  (forall idx, Forall2 lt idx sh -> f idx = g idx) ->
  group sh fl oidx f = group sh fl oidx g.
Proof.
  revert fl oidx f g. induction sh as [|n sh IH];
    intros [|r fl] oidx f g Hlen Hoidx Hfg; try done.
  - cbn [group]. rewrite Hfg; [done|constructor].
  - cbn [group kept] in *. injection Hlen as Hlen. destruct r.
    + apply list_bind_ext_elem. intros i Hi%elem_of_seq.
      apply IH; [done|done|]. intros idx Hidx. apply Hfg.
      constructor; [lia|done].
    + apply Forall2_cons_inv_r in Hoidx as (o & oidx' & Ho & Hoidx & ->).
      apply IH; [done|done|]. intros idx Hidx. apply Hfg. by constructor.
Qed.

(** every index of the group of [oidx] has the kept coordinates [oidx] *)
Lemma group_kept {V} sh fl oidx (h : list nat -> list nat -> V) :
  length fl = length sh ->
  length oidx = length (kept fl sh) ->
  group sh fl oidx (fun idx => h idx (kept fl idx))
  = group sh fl oidx (fun idx => h idx oidx).
Proof.
  revert fl oidx h. induction sh as [|n sh IH];
    intros [|r fl] oidx h Hlen Hoidx; try done.
  - cbn [group kept] in *. by destruct oidx.
  - cbn [group kept] in *. injection Hlen as Hlen. destruct r.
    + apply list_bind_ext_elem. intros i _.
      apply (IH fl oidx (fun tl k => h (i :: tl) k)); done.
    + destruct oidx as [|o oidx]; [done|]. injection Hoidx as Hoidx.
      apply (IH fl oidx (fun tl k => h (o :: tl) (o :: k))); done.
Qed.

(** ** Coordinates by dimension name *)

Lemma index_of_lookup d ds k : index_of d ds = Some k -> ds !! k = Some d.
Proof.
  revert k. induction ds as [|d' ds IH]; intros k; cbn; [done|].
  case_decide as Hd; [by intros [= <-]; subst|].
  destruct (index_of d ds) as [k'|]; cbn; [|done].
  intros [= <-]. by apply IH.
Qed.

Lemma index_of_NoDup ds k d :
  NoDup ds -> ds !! k = Some d -> index_of d ds = Some k.
Proof.
  intros Hnd. revert k. induction Hnd as [|d' ds Hnot _ IH]; intros k Hk;
    [done|].
  cbn. destruct k as [|k]; cbn in Hk.
  - injection Hk as ->. by rewrite decide_True.
  - rewrite decide_False.
    + by rewrite (IH k Hk).
    + intros ->. apply Hnot. by eapply list_elem_of_lookup_2.
Qed.

Lemma proj_cons_fresh ds d ds' i idx :
  d ∉ ds -> proj ds (d :: ds') (i :: idx) = proj ds ds' idx.
Proof.
  intros Hd. unfold proj. apply list_fmap_ext. intros j d' Hj.
  cbn [index_of]. rewrite decide_False.
  - by destruct (index_of d' ds').
  - intros ->. apply Hd. by eapply list_elem_of_lookup_2.
Qed.

Lemma proj_id ds idx :
  NoDup ds -> length idx = length ds -> proj ds ds idx = idx.
Proof.
  intros Hnd. revert idx. induction Hnd as [|d ds Hnot _ IH]; intros idx Hlen.
  - by destruct idx.
  - destruct idx as [|i idx]; [done|]. injection Hlen as Hlen.
    assert (proj (d :: ds) (d :: ds) (i :: idx)
            = i :: proj ds (d :: ds) (i :: idx)) as ->.
    { unfold proj. rewrite fmap_cons. cbn [index_of].
      by rewrite decide_True. }
    rewrite proj_cons_fresh by done. by rewrite IH.
Qed.

Lemma kept_subset {A} fl (l : list A) x : x ∈ kept fl l -> x ∈ l.
Proof.
  revert fl. induction l as [|y l IH]; intros [|[] fl]; cbn [kept];
    try (by intros ?%elem_of_nil).
  - intros ?%IH. by right.
  - intros [->|?%IH]%elem_of_cons; [by left|by right].
Qed.

Lemma proj_kept fl ds idx :
  NoDup ds -> length idx = length ds -> length fl = length ds ->
  proj (kept fl ds) ds idx = kept fl idx.
Proof.
  intros Hnd. revert fl idx.
  induction Hnd as [|d ds Hnot _ IH]; intros fl idx Hlen Hfl.
  - destruct idx, fl; done.
  - destruct idx as [|i idx]; [done|]. destruct fl as [|r fl]; [done|].
    injection Hlen as Hlen. injection Hfl as Hfl. cbn [kept]. destruct r.
    + rewrite proj_cons_fresh; [by apply IH|].
      intros Hin%kept_subset. done.
    + assert (proj (d :: kept fl ds) (d :: ds) (i :: idx)
              = i :: proj (kept fl ds) (d :: ds) (i :: idx)) as ->.
      { unfold proj. rewrite fmap_cons. cbn [index_of].
        by rewrite decide_True. }
      rewrite proj_cons_fresh; [by rewrite IH|].
      intros Hin%kept_subset. done.
Qed.

(** ** Arithmetic on arrays in normal form *)

Lemma map_values_build f dt ds sh dt' F :
  map_values f dt (build ds sh dt' F) = build ds sh dt (fun idx => f (F idx)).
Proof.
  unfold map_values, build. cbn [dims shape values]. f_equal.
  by rewrite <- list_fmap_compose.
Qed.

Lemma extra_dims_subset a ds sh :
  Forall (fun d => d ∈ a) ds -> extra_dims a ds sh = [].
Proof.
  intros H. revert sh. induction H as [|d ds Hd _ IH]; intros [|n sh];
    cbn [extra_dims]; try done.
  by rewrite bool_decide_eq_true_2.
Qed.

Lemma binop_sub f a b w :
  sizes_agree a b = true ->
  Forall (fun d => d ∈ dims a) (dims b) ->
  binop f a b w
  = (Ok (build (dims a) (shape a) (result_type (dtype a) (dtype b))
           (fun idx => f (item a (proj (dims a) (dims a) idx))
                         (item b (proj (dims b) (dims a) idx)))), w).
Proof.
  intros Hagree Hsub. unfold binop. rewrite Hagree.
  rewrite extra_dims_subset by done. cbn [fmap list_fmap].
  by rewrite !app_nil_r.
Qed.

Lemma sizes_agree_same a b :
  dims a = dims b -> shape a = shape b -> sizes_agree a b = true.
Proof.
  intros Hd Hs. unfold sizes_agree. apply forallb_forall. intros d _.
  unfold size_of. rewrite Hd, Hs.
  destruct (index_of d (dims b) ≫= _); by rewrite ?bool_decide_eq_true_2.
Qed.

Lemma size_kept d fl ds (sh : list nat) n :
  NoDup ds -> length fl = length ds -> length sh = length ds ->
  (index_of d (kept fl ds) ≫= fun j => kept fl sh !! j) = Some n ->
  (index_of d ds ≫= fun k => sh !! k) = Some n.
Proof.
  intros Hnd. revert fl sh.
  induction Hnd as [|d' ds Hnot _ IH]; intros [|r fl] [|m sh] Hfl Hsh;
    try done.
  injection Hfl as Hfl. injection Hsh as Hsh. cbn [kept]. destruct r.
  - intros H. cbn [index_of]. rewrite decide_False.
    + apply IH in H; [|done..].
      destruct (index_of d ds) as [k|]; [exact H|done].
    + intros ->. destruct (index_of d' (kept fl ds)) as [j|] eqn:Hj; [|done].
      apply index_of_lookup, list_elem_of_lookup_2, kept_subset in Hj. done.
  - cbn [index_of]. case_decide as Hd; [done|].
    intros H.
    destruct (index_of d (kept fl ds)) as [j|] eqn:Hj; [|done].
    cbn in H. specialize (IH fl sh Hfl Hsh). rewrite Hj in IH. cbn in IH.
    apply IH in H. destruct (index_of d ds) as [k|]; [exact H|done].
Qed.

Lemma sizes_agree_kept fl t m :
  NoDup (dims t) -> length (shape t) = length (dims t) ->
  length fl = length (dims t) ->
  dims m = kept fl (dims t) -> shape m = kept fl (shape t) ->
  sizes_agree t m = true.
Proof.
  intros Hnd Hsh Hfl Hdm Hsm. unfold sizes_agree. apply forallb_forall.
  intros d _. unfold size_of at 2. rewrite Hdm, Hsm.
  destruct (index_of d (kept fl (dims t)) ≫= _) as [n|] eqn:Hn.
  - apply size_kept in Hn; [|done..]. unfold size_of. rewrite Hn.
    by rewrite bool_decide_eq_true_2.
  - by destruct (size_of t d).
Qed.

Lemma NoDup_kept {A} fl (l : list A) : NoDup l -> NoDup (kept fl l).
Proof.
  intros H. revert fl. induction H as [|x l Hx _ IH]; intros [|[] fl];
    cbn [kept]; try constructor; auto.
  intros Hin%kept_subset. done.
Qed.

Lemma length_kept {A B} fl (l : list A) (k : list B) :
  length l = length k -> length (kept fl l) = length (kept fl k).
Proof.
  revert fl k. induction l as [|x l IH]; intros [|[] fl] [|y k] H;
    cbn [kept]; try done; injection H as H; cbn; auto.
Qed.

(** [a <op> b] for two arrays of the same dimensions and sizes *)
Lemma binop_same f a b w :
  NoDup (dims a) -> length (shape a) = length (dims a) ->
  dims b = dims a -> shape b = shape a ->
  binop f a b w
  = (Ok (build (dims a) (shape a) (result_type (dtype a) (dtype b))
           (fun idx => f (item a idx) (item b idx))), w).
Proof.
  intros Hnd Hlen Hd Hs.
  rewrite binop_sub; [ | by apply sizes_agree_same | ].
  - do 2 f_equal. apply build_ext. intros idx Hidx.
    apply Forall2_length in Hidx.
    rewrite Hd, proj_id by congruence. done.
  - rewrite Hd. apply Forall_forall. auto.
Qed.

(** [t <op> m] for [m] a reduction of [t] over the flagged dimensions *)
Lemma binop_reduced f fl t m w :
  NoDup (dims t) -> length (shape t) = length (dims t) ->
  length fl = length (dims t) ->
  dims m = kept fl (dims t) -> shape m = kept fl (shape t) ->
  binop f t m w
  = (Ok (build (dims t) (shape t) (result_type (dtype t) (dtype m))
           (fun idx => f (item t idx) (item m (kept fl idx)))), w).
Proof.
  intros Hnd Hlen Hfl Hd Hs.
  rewrite binop_sub; [ | by eapply sizes_agree_kept | ].
  - do 2 f_equal. apply build_ext. intros idx Hidx.
    apply Forall2_length in Hidx.
    rewrite Hd, proj_id, proj_kept by congruence. done.
  - rewrite Hd. apply Forall_forall. intros d. apply kept_subset.
Qed.

Lemma concat_along_Some d a b whole :
  concat_along d a b = Some whole ->
  exists pre post na nb,
    index_of d (dims a) = Some (length pre)
    /\ shape a = pre ++ na :: post
    /\ shape b = pre ++ nb :: post
    /\ dims b = dims a
    /\ whole = build (dims a) (pre ++ (na + nb) :: post)
                 (result_type (dtype a) (dtype b))
                 (fun idx =>
                    let i := default 0 (idx !! length pre) in
                    if i <? na then item a idx
                    else item b (<[length pre := i - na]> idx)).
Proof.
  unfold concat_along. intros H.
  destruct (index_of d (dims a)) as [k|] eqn:Hk; simpl in H; [|done].
  destruct (shape a !! k) as [na|] eqn:Hna; simpl in H; [|done].
  destruct (shape b !! k) as [nb|] eqn:Hnb; simpl in H; [|done].
  case_guard as Hd; simplify_option_eq.
  rename select (<[k:=0]> (shape b) = _) into Hs.
  pose proof (lookup_lt_Some _ _ _ Hna) as Hka.
  pose proof (lookup_lt_Some _ _ _ Hnb) as Hkb.
  assert (Hlen : length (take k (shape a)) = k) by (rewrite length_take; lia).
  exists (take k (shape a)), (drop (S k) (shape a)), na, nb.
  rewrite Hlen. split_and!; try done.
  - by rewrite take_drop_middle.
  - rewrite <- (take_drop_middle (shape b) k nb Hnb). f_equal.
    + rewrite <- (take_insert_ge (shape b) k k 0), Hs by lia.
      by rewrite take_insert_ge by lia.
    + f_equal. rewrite <- (drop_insert_lt (shape b) (S k) k 0), Hs by lia.
      by rewrite drop_insert_lt by lia.
  - f_equal. by rewrite insert_take_drop.
Qed.

(** ** Groups of a concatenation *)

Lemma bind_app_Permutation {A B} (l : list A) (f g h : A -> list B) :
  (forall x, x ∈ l -> f x ≡ₚ g x ++ h x) ->
  l ≫= f ≡ₚ (l ≫= g) ++ (l ≫= h).
Proof.
  induction l as [|x l IH]; intros H; [done|].
  rewrite !bind_cons, H, IH by (try (by left); intros; apply H; by right).
  rewrite <- !app_assoc. f_equiv. rewrite !app_assoc. f_equiv.
  apply Permutation_app_comm.
Qed.

Lemma group_concat {V} pre post fpre fpost na nb oidx
    (Fa Fb Fw : list nat -> V) :
  length fpre = length pre ->
  (forall idx,
      Fw idx = if default 0 (idx !! length pre) <? na then Fa idx
               else Fb (<[length pre := default 0 (idx !! length pre) - na]>
                          idx)) ->
  group (pre ++ (na + nb) :: post) (fpre ++ true :: fpost) oidx Fw
  ≡ₚ group (pre ++ na :: post) (fpre ++ true :: fpost) oidx Fa
     ++ group (pre ++ nb :: post) (fpre ++ true :: fpost) oidx Fb.
Proof.
  revert fpre oidx Fa Fb Fw.
  induction pre as [|n pre IH]; intros [|r fpre] oidx Fa Fb Fw Hlen HF;
    try done.
  - cbn [app group]. rewrite seq_app, bind_app. apply reflexive_eq. f_equal.
    + apply list_bind_ext_elem. intros i Hi%elem_of_seq.
      apply group_ext. intros tl. rewrite HF.
      change (default 0 ((i :: tl) !! length (@nil nat))) with i.
      by rewrite (proj2 (Nat.ltb_lt i na)) by lia.
    + cbn [Nat.add].
      replace (seq na nb) with (Nat.add na <$> seq 0 nb)
        by (rewrite fmap_add_seq; f_equal; lia).
      rewrite list_fmap_bind. apply list_bind_ext_elem.
      intros i _. apply group_ext. intros tl. rewrite HF.
      change (default 0 (((na + i) :: tl) !! length (@nil nat)))
        with (na + i).
      rewrite (proj2 (Nat.ltb_ge (na + i) na)) by lia.
      change (<[length (@nil nat) := na + i - na]> ((na + i) :: tl))
        with ((na + i - na) :: tl).
      do 2 f_equal. lia.
  - injection Hlen as Hlen. cbn [app group]. destruct r.
    + apply bind_app_Permutation. intros i _.
      apply (IH fpre oidx (fun tl => Fa (i :: tl)) (fun tl => Fb (i :: tl))
                (fun tl => Fw (i :: tl)) Hlen).
      intros tl. by rewrite HF.
    + destruct oidx as [|o oidx]; [done|].
      apply (IH fpre oidx (fun tl => Fa (o :: tl)) (fun tl => Fb (o :: tl))
                (fun tl => Fw (o :: tl)) Hlen).
      intros tl. by rewrite HF.
Qed.

(** ** Element counts *)

Lemma np_prod_cons n l : np_prod (n :: l) = n * np_prod l.
Proof. reflexivity. Qed.

Lemma np_prod_app l k : np_prod (l ++ k) = np_prod l * np_prod k.
Proof.
  induction l as [|n l IH].
  - change (np_prod k = 1 * np_prod k). lia.
  - rewrite <- app_comm_cons, !np_prod_cons, IH. lia.
Qed.

Lemma np_prod_kept_dropped fl sh :
  np_prod sh = np_prod (dropped fl sh) * np_prod (kept fl sh)
  \/ length fl < length sh.
Proof.
  revert fl. induction sh as [|n sh IH]; intros [|r fl]; cbn [kept dropped].
  - left. done.
  - left. done.
  - right. simpl. lia.
  - destruct (IH fl) as [Heq|Hlt]; [left|right; simpl; lia].
    destruct r; rewrite !np_prod_cons, Heq; nia.
Qed.

Lemma kept_app {A} fpre fl pre (l : list A) :
  length fpre = length pre ->
  kept (fpre ++ fl) (pre ++ l) = kept fpre pre ++ kept fl l.
Proof.
  revert fpre. induction pre as [|x pre IH]; intros [|r fpre] H; try done.
  injection H as H. cbn [app kept]. destruct r; by rewrite IH.
Qed.

Lemma dropped_app {A} fpre fl pre (l : list A) :
  length fpre = length pre ->
  dropped (fpre ++ fl) (pre ++ l) = dropped fpre pre ++ dropped fl l.
Proof.
  revert fpre. induction pre as [|x pre IH]; intros [|r fpre] H; try done.
  injection H as H. cbn [app dropped]. destruct r; by rewrite IH.
Qed.

Lemma int_ratio_exact fl sh w :
  length fl = length sh -> 0 < np_prod (kept fl sh) ->
  int_ratio (np_prod sh) (np_prod (kept fl sh)) w
  = (Ok (np_prod (dropped fl sh)), w).
Proof.
  intros Hlen Hpos. unfold int_ratio.
  destruct (Nat.eqb_spec (np_prod (kept fl sh)) 0) as [H0|_]; [lia|].
  destruct (np_prod_kept_dropped fl sh) as [->|?]; [|lia].
  by rewrite Nat.div_mul by lia.
Qed.

(** ** Sums and means over rationals *)

Lemma Qc_of_nat_add a b : Qc_of_nat (a + b) = (Qc_of_nat a + Qc_of_nat b)%Qc.
Proof.
  unfold Qc_of_nat. apply Qc_is_canon. cbn [this Qcplus Q2Qc].
  rewrite !Qred_correct, Nat2Z.inj_add, inject_Z_plus. reflexivity.
Qed.

Lemma Qc_of_nat_mul a b : Qc_of_nat (a * b) = (Qc_of_nat a * Qc_of_nat b)%Qc.
Proof.
  unfold Qc_of_nat. apply Qc_is_canon. cbn [this Qcmult Q2Qc].
  rewrite !Qred_correct, Nat2Z.inj_mul, inject_Z_mult. reflexivity.
Qed.

Lemma Qc_of_nat_neq_0 n : 0 < n -> Qc_of_nat n <> 0%Qc.
Proof.
  intros Hn H. apply (f_equal this) in H. unfold Qc_of_nat in H.
  cbn [this Q2Qc] in H.
  assert (Hq : (inject_Z (Z.of_nat n) == 0)%Q).
  { rewrite <- (Qred_correct (inject_Z (Z.of_nat n))), H. reflexivity. }
  unfold Qeq in Hq. cbn in Hq. lia.
Qed.

Lemma sum_list_app l k : sum_list (l ++ k) = (sum_list l + sum_list k)%Qc.
Proof.
  induction l as [|x l IH]; cbn [app sum_list foldr].
  - by rewrite Qcplus_0_l.
  - fold (sum_list (l ++ k)). fold (sum_list l). rewrite IH. ring.
Qed.

Lemma sum_list_Permutation l k : l ≡ₚ k -> sum_list l = sum_list k.
Proof.
  induction 1 as [|x l k _ IH|x y l|l k m _ IH1 _ IH2].
  - done.
  - cbn [sum_list foldr]. fold (sum_list l). fold (sum_list k). by rewrite IH.
  - cbn [sum_list foldr]. fold (sum_list l). ring.
  - congruence.
Qed.

Lemma mean_list_concat l la lb :
  l ≡ₚ la ++ lb -> la <> [] -> lb <> [] ->
  mean_list l
  = ((Qc_of_nat (length la) * mean_list la
      + Qc_of_nat (length lb) * mean_list lb)
     / Qc_of_nat (length la + length lb))%Qc.
Proof.
  intros Hp Ha Hb. unfold mean_list.
  rewrite (sum_list_Permutation _ _ Hp), Hp, sum_list_app, length_app.
  assert (Qc_of_nat (length la) <> 0%Qc)
    by (apply Qc_of_nat_neq_0; destruct la; [done|simpl; lia]).
  assert (Qc_of_nat (length lb) <> 0%Qc)
    by (apply Qc_of_nat_neq_0; destruct lb; [done|simpl; lia]).
  assert (Qc_of_nat (length la + length lb) <> 0%Qc)
    by (apply Qc_of_nat_neq_0; destruct la; [done|simpl; lia]).
  rewrite Qc_of_nat_add in *. by field.
Qed.

Lemma sq_dev_expand c l :
  sq_dev c l
  = (sq_dev 0 l - (1 + 1) * c * sum_list l
     + Qc_of_nat (length l) * c * c)%Qc.
Proof.
  unfold sq_dev. induction l as [|x l IH].
  - cbn. change (Qc_of_nat 0) with 0%Qc. ring.
  - cbn [fmap list_fmap sum_list foldr length].
    fold (sum_list ((fun x => ((x - c) * (x - c))%Qc) <$> l)).
    fold (sum_list ((fun x => ((x - 0) * (x - 0))%Qc) <$> l)).
    fold (sum_list l).
    change (list_fmap Qc Qc ?f l) with (f <$> l). rewrite IH.
    replace (S (length l)) with (1 + length l) by done.
    rewrite Qc_of_nat_add. change (Qc_of_nat 1) with 1%Qc. ring.
Qed.

Lemma sq_dev_Permutation c l k : l ≡ₚ k -> sq_dev c l = sq_dev c k.
Proof. intros H. unfold sq_dev. apply sum_list_Permutation. by f_equiv. Qed.

Lemma sq_dev_app c l k : sq_dev c (l ++ k) = (sq_dev c l + sq_dev c k)%Qc.
Proof. unfold sq_dev. by rewrite fmap_app, sum_list_app. Qed.

Lemma sq_dev_concat l la lb :
  l ≡ₚ la ++ lb -> la <> [] -> lb <> [] ->
  sq_dev (mean_list l) l
  = (sq_dev (mean_list la) la + sq_dev (mean_list lb) lb
     + Qc_of_nat (length lb)
       * (Qc_of_nat (length la)
          * ((mean_list lb - mean_list la) * (mean_list lb - mean_list la)))
       / Qc_of_nat (length la + length lb))%Qc.
Proof.
  intros Hp Ha Hb.
  rewrite (mean_list_concat l la lb) by done.
  rewrite (sq_dev_Permutation _ _ _ Hp), sq_dev_app.
  rewrite (sq_dev_expand _ la), (sq_dev_expand _ lb).
  rewrite (sq_dev_expand (mean_list la) la), (sq_dev_expand (mean_list lb) lb).
  unfold mean_list.
  assert (Qc_of_nat (length la) <> 0%Qc)
    by (apply Qc_of_nat_neq_0; destruct la; [done|simpl; lia]).
  assert (Qc_of_nat (length lb) <> 0%Qc)
    by (apply Qc_of_nat_neq_0; destruct lb; [done|simpl; lia]).
  assert (Qc_of_nat (length la + length lb) <> 0%Qc)
    by (apply Qc_of_nat_neq_0; destruct la; [done|simpl; lia]).
  rewrite Qc_of_nat_add in *. by field.
Qed.

Lemma Forall2_kept {A B} (R : A -> B -> Prop) fl l k :
  Forall2 R l k -> Forall2 R (kept fl l) (kept fl k).
Proof.
  intros H. revert fl. induction H as [|x y l k Hxy _ IH]; intros [|[] fl];
    cbn [kept]; try constructor; auto.
Qed.

Lemma binop_build f ds sh dt1 dt2 F G w :
  NoDup ds -> length sh = length ds ->
  binop f (build ds sh dt1 F) (build ds sh dt2 G) w
  = (Ok (build ds sh (result_type dt1 dt2) (fun idx => f (F idx) (G idx))), w).
Proof.
  intros Hnd Hlen. rewrite binop_same by done. cbn [dims shape dtype build].
  do 2 f_equal. apply build_ext. intros idx Hidx.
  change (mkDataArray ds sh dt1 (F <$> ndindex sh)) with (build ds sh dt1 F).
  change (mkDataArray ds sh dt2 (G <$> ndindex sh)) with (build ds sh dt2 G).
  by rewrite !item_build.
Qed.

Lemma binop_reduced_build f fl t dt2 M w :
  NoDup (dims t) -> length (shape t) = length (dims t) ->
  length fl = length (dims t) ->
  binop f t (build (kept fl (dims t)) (kept fl (shape t)) dt2 M) w
  = (Ok (build (dims t) (shape t) (result_type (dtype t) dt2)
           (fun idx => f (item t idx) (M (kept fl idx)))), w).
Proof.
  intros Hnd Hlen Hfl. rewrite (binop_reduced f fl) by done.
  cbn [dtype build]. do 2 f_equal. apply build_ext. intros idx Hidx.
  change (mkDataArray ?ds ?sh dt2 (M <$> ndindex ?sh))
    with (build ds sh dt2 M).
  rewrite item_build; [done|]. by apply Forall2_kept.
Qed.

Lemma reduce_build op dt axes ds sh dt' F w :
  length sh = length ds ->
  match axes with
  | None => True
  | Some l => Forall (fun a => a ∈ ds) l
  end ->
  axes_distinct axes ->
  reduce op dt axes (build ds sh dt' F) w
  = (Ok (build (kept (reduced axes <$> ds) ds) (kept (reduced axes <$> ds) sh)
           dt (fun oidx => op (group sh (reduced axes <$> ds) oidx F))), w).
Proof.
  intros Hlen Haxes Hdist. unfold reduce.
  rewrite run_bind, check_axes_Ok by done. cbv beta iota. rewrite run_ret.
  unfold flags. cbn [dims shape build]. do 2 f_equal.
  apply build_ext. intros oidx Hoidx. f_equal.
  apply group_ext_bounds; [by rewrite length_fmap|done|].
  intros idx Hidx.
  change (mkDataArray ds sh dt' (F <$> ndindex sh)) with (build ds sh dt' F).
  by rewrite item_build.
Qed.

Lemma reduce_array op dt axes t w :
  match axes with
  | None => True
  | Some l => Forall (fun a => a ∈ dims t) l
  end ->
  axes_distinct axes ->
  reduce op dt axes t w
  = (Ok (build (kept (flags axes t) (dims t)) (kept (flags axes t) (shape t))
           dt (fun oidx => op (group (shape t) (flags axes t) oidx (item t)))),
     w).
Proof.
  intros Haxes Hdist. unfold reduce.
  by rewrite run_bind, check_axes_Ok.
Qed.

(** ** The running moments of [MeanCalculator] and [MeanVarStdCalculator] *)

Lemma mean_astype axes t w :
  axes_in axes t ->
  axes_distinct axes ->
  mean axes (astype float64 t) w = (Ok (mean_of axes t), w).
Proof.
  intros Haxes Hdist. unfold mean. by rewrite reduce_array.
Qed.

Lemma length_flags axes t : length (flags axes t) = length (dims t).
Proof. unfold flags. by rewrite length_fmap. Qed.

Lemma MeanCalculator_update_first tid axes s t w :
  data s !! tid = Some t ->
  axes_in axes t ->
  axes_distinct axes ->
  length (shape t) = length (dims t) ->
  0 < np_prod (kept (flags axes t) (shape t)) ->
  MeanCalculator.update (MeanCalculator.__init__ tid axes) s w
  = (Ok (MeanCalculator.mk (np_prod (dropped (flags axes t) (shape t)))
           (Some (mean_of axes t)) axes tid), w).
Proof.
  intros Ht Haxes Hdist Hlen Hpos.
  unfold MeanCalculator.update, MeanCalculator._compute_impl,
    MeanCalculator.__init__.
  cbn [MeanCalculator._tensor_id MeanCalculator._axes].
  rewrite run_bind, run_bind, (getitem_lookup _ _ _ _ Ht). cbv beta iota.
  rewrite mean_astype by done. cbv beta iota.
  rewrite run_bind, (getitem_lookup _ _ _ _ Ht). cbv beta iota.
  unfold MeanCalculator._update_impl.
  cbn [MeanCalculator._mean MeanCalculator._n MeanCalculator._axes
       MeanCalculator._tensor_id].
  rewrite run_bind. unfold mean_of at 1. cbn [dtype build].
  rewrite bool_decide_eq_true_2 by done. cbn [assert_]. rewrite run_ret.
  cbv beta iota. rewrite run_bind. unfold mean_of at 1. cbn [shape build].
  rewrite int_ratio_exact by (by rewrite ?length_flags).
  reflexivity.
Qed.

Lemma scalar_mul_build x ds sh dt F :
  scalar_mul x (build ds sh dt F) = build ds sh dt (fun idx => (x * F idx)%Qc).
Proof. unfold scalar_mul. by rewrite map_values_build. Qed.

Lemma div_scalar_build x ds sh dt F :
  div_scalar (build ds sh dt F) x
  = build ds sh (inexact_dtype dt) (fun idx => (F idx / x)%Qc).
Proof. unfold div_scalar. by rewrite map_values_build. Qed.

Lemma square_build ds sh dt F :
  square (build ds sh dt F) = build ds sh dt (fun idx => (F idx * F idx)%Qc).
Proof. unfold square. by rewrite map_values_build. Qed.

Lemma MeanCalculator_update_next tid axes n_a Fa s t w :
  data s !! tid = Some t ->
  axes_in axes t ->
  axes_distinct axes ->
  NoDup (dims t) ->
  length (shape t) = length (dims t) ->
  0 < np_prod (kept (flags axes t) (shape t)) ->
  0 < n_a ->
  MeanCalculator.update
    (MeanCalculator.mk n_a
       (Some (build (kept (flags axes t) (dims t))
                (kept (flags axes t) (shape t)) float64 Fa)) axes tid) s w
  = (Ok (MeanCalculator.mk (n_a + np_prod (dropped (flags axes t) (shape t)))
           (Some (build (kept (flags axes t) (dims t))
                    (kept (flags axes t) (shape t)) float64
                    (fun oidx =>
                       ((Qc_of_nat n_a * Fa oidx
                         + Qc_of_nat (np_prod (dropped (flags axes t) (shape t)))
                           * mean_list (group (shape t) (flags axes t) oidx
                                          (item t)))
                        / Qc_of_nat
                            (n_a + np_prod (dropped (flags axes t) (shape t))))%Qc)))
           axes tid), w).
Proof.
  intros Ht Haxes Hdist Hnd Hlen Hpos Hna.
  unfold MeanCalculator.update, MeanCalculator._compute_impl.
  cbn [MeanCalculator._tensor_id MeanCalculator._axes].
  rewrite run_bind, run_bind, (getitem_lookup _ _ _ _ Ht). cbv beta iota.
  rewrite mean_astype by done. cbv beta iota.
  rewrite run_bind, (getitem_lookup _ _ _ _ Ht). cbv beta iota.
  unfold MeanCalculator._update_impl.
  cbn [MeanCalculator._mean MeanCalculator._n MeanCalculator._axes
       MeanCalculator._tensor_id].
  rewrite run_bind. unfold mean_of at 1. cbn [dtype build].
  rewrite bool_decide_eq_true_2 by done. cbn [assert_]. rewrite run_ret.
  cbv beta iota. rewrite run_bind. unfold mean_of at 1. cbn [shape build].
  rewrite int_ratio_exact by (by rewrite ?length_flags). cbv beta iota.
  rewrite run_bind.
  destruct (Nat.eqb_spec n_a 0) as [?|_]; [lia|]. cbn [negb assert_].
  rewrite run_ret. cbv beta iota.
  unfold mean_of. rewrite !scalar_mul_build.
  rewrite run_bind, binop_build;
    [|by apply NoDup_kept|by apply length_kept]. cbv beta iota.
  rewrite div_scalar_build. rewrite run_bind.
  cbn [dtype build result_type is_float orb to_float float_max inexact_dtype].
  rewrite bool_decide_eq_true_2 by done. cbn [assert_]. rewrite run_ret.
  reflexivity.
Qed.

Lemma m2_astype axes t w :
  axes_in axes t ->
  axes_distinct axes ->
  NoDup (dims t) ->
  length (shape t) = length (dims t) ->
  (c ← binop Qcminus (astype float64 t) (mean_of axes t);
   sum axes (square c)) w
  = (Ok (m2_of axes t), w).
Proof.
  intros Haxes Hdist Hnd Hlen. rewrite run_bind. unfold mean_of.
  rewrite (binop_reduced_build Qcminus (flags axes t) (astype float64 t))
    by (by rewrite ?length_flags).
  cbv beta iota. rewrite square_build. unfold sum.
  cbn [dims shape dtype astype build].
  change (mkDataArray ?ds ?sh ?dt (?F <$> ndindex ?sh))
    with (build ds sh dt F).
  rewrite reduce_build by done.
  unfold m2_of, flags. do 2 f_equal. apply build_ext. intros oidx Hoidx.
  unfold sq_dev. f_equal.
  change (item (astype float64 t)) with (item t).
  rewrite (group_kept (shape t) (reduced axes <$> dims t) oidx
             (fun idx k =>
                ((item t idx
                  - mean_list (group (shape t) (reduced axes <$> dims t) k
                                 (item t)))
                 * (item t idx
                    - mean_list (group (shape t) (reduced axes <$> dims t) k
                                   (item t))))%Qc)).
  - apply (group_fmap
             (fun x => ((x - mean_list
                               (group (shape t) (reduced axes <$> dims t)
                                  oidx (item t)))
                        * (x - mean_list
                                 (group (shape t) (reduced axes <$> dims t)
                                    oidx (item t))))%Qc)).
  - by rewrite length_fmap.
  - by apply Forall2_length in Hoidx.
Qed.

Lemma MeanVarStdCalculator_update_first tid axes s t w :
  data s !! tid = Some t ->
  axes_in axes t ->
  axes_distinct axes ->
  NoDup (dims t) ->
  length (shape t) = length (dims t) ->
  0 < np_prod (kept (flags axes t) (shape t)) ->
  MeanVarStdCalculator.update (MeanVarStdCalculator.__init__ tid axes) s w
  = (Ok (MeanVarStdCalculator.mk axes tid
           (np_prod (dropped (flags axes t) (shape t)))
           (Some (mean_of axes t)) (Some (m2_of axes t))), w).
Proof.
  intros Ht Haxes Hdist Hnd Hlen Hpos.
  unfold MeanVarStdCalculator.update, MeanVarStdCalculator.__init__.
  cbn [MeanVarStdCalculator._tensor_id MeanVarStdCalculator._axes
       MeanVarStdCalculator._mean MeanVarStdCalculator._m2
       MeanVarStdCalculator._n].
  rewrite run_bind, (getitem_lookup _ _ _ _ Ht). cbv beta iota zeta.
  rewrite run_bind, mean_astype by done. cbv beta iota.
  rewrite run_bind. unfold mean_of at 1. cbn [dtype build].
  rewrite bool_decide_eq_true_2 by done. cbn [assert_]. rewrite run_ret.
  cbv beta iota. rewrite run_bind. unfold mean_of at 1.
  cbn [shape build astype].
  rewrite int_ratio_exact by (by rewrite ?length_flags). cbv beta iota.
  pose proof (m2_astype axes t w Haxes Hdist Hnd Hlen) as Hm2.
  rewrite run_bind in Hm2. rewrite run_bind.
  destruct (binop Qcminus (astype float64 t) (mean_of axes t) w)
    as [[c|e] w1]; [|done].
  rewrite run_bind, Hm2. cbv beta iota.
  rewrite run_bind. unfold m2_of at 1. cbn [dtype build].
  rewrite bool_decide_eq_true_2 by done. cbn [assert_]. rewrite run_ret.
  reflexivity.
Qed.

Lemma MeanVarStdCalculator_update_next tid axes n_a Fa Ma s t w :
  data s !! tid = Some t ->
  axes_in axes t ->
  axes_distinct axes ->
  NoDup (dims t) ->
  length (shape t) = length (dims t) ->
  0 < np_prod (kept (flags axes t) (shape t)) ->
  MeanVarStdCalculator.update
    (MeanVarStdCalculator.mk axes tid n_a
       (Some (build (kept (flags axes t) (dims t))
                (kept (flags axes t) (shape t)) float64 Fa))
       (Some (build (kept (flags axes t) (dims t))
                (kept (flags axes t) (shape t)) float64 Ma))) s w
  = (Ok (MeanVarStdCalculator.mk axes tid
           (n_a + np_prod (dropped (flags axes t) (shape t)))
           (Some (build (kept (flags axes t) (dims t))
                    (kept (flags axes t) (shape t)) float64
                    (fun oidx =>
                       let g := group (shape t) (flags axes t) oidx (item t) in
                       let n_b := np_prod (dropped (flags axes t) (shape t)) in
                       ((Qc_of_nat n_a * Fa oidx + Qc_of_nat n_b * mean_list g)
                        / Qc_of_nat (n_a + n_b))%Qc)))
           (Some (build (kept (flags axes t) (dims t))
                    (kept (flags axes t) (shape t)) float64
                    (fun oidx =>
                       let g := group (shape t) (flags axes t) oidx (item t) in
                       let n_b := np_prod (dropped (flags axes t) (shape t)) in
                       (Ma oidx + sq_dev (mean_list g) g
                        + Qc_of_nat n_b
                          * (Qc_of_nat n_a
                             * ((mean_list g - Fa oidx)
                                * (mean_list g - Fa oidx)))
                          / Qc_of_nat (n_a + n_b))%Qc)))), w).
Proof.
  intros Ht Haxes Hdist Hnd Hlen Hpos.
  assert (Hkd : NoDup (kept (flags axes t) (dims t))) by by apply NoDup_kept.
  assert (Hks : length (kept (flags axes t) (shape t))
                = length (kept (flags axes t) (dims t)))
    by by apply length_kept.
  unfold MeanVarStdCalculator.update.
  cbn [MeanVarStdCalculator._tensor_id MeanVarStdCalculator._axes
       MeanVarStdCalculator._mean MeanVarStdCalculator._m2
       MeanVarStdCalculator._n].
  rewrite run_bind, (getitem_lookup _ _ _ _ Ht). cbv beta iota zeta.
  rewrite run_bind, mean_astype by done. cbv beta iota.
  rewrite run_bind. unfold mean_of at 1. cbn [dtype build].
  rewrite bool_decide_eq_true_2 by done. cbn [assert_]. rewrite run_ret.
  cbv beta iota. rewrite run_bind. unfold mean_of at 1.
  cbn [shape build astype].
  rewrite int_ratio_exact by (by rewrite ?length_flags). cbv beta iota.
  pose proof (m2_astype axes t w Haxes Hdist Hnd Hlen) as Hm2.
  rewrite run_bind in Hm2. rewrite run_bind.
  destruct (binop Qcminus (astype float64 t) (mean_of axes t) w)
    as [[c|e] w1]; [|done].
  rewrite run_bind, Hm2. cbv beta iota.
  rewrite run_bind. unfold m2_of at 1. cbn [dtype build].
  rewrite bool_decide_eq_true_2 by done. cbn [assert_]. rewrite run_ret.
  cbv beta iota.
  unfold mean_of, m2_of. rewrite !scalar_mul_build.
  rewrite run_bind, binop_build by done. cbv beta iota.
  rewrite div_scalar_build. rewrite run_bind.
  cbn [dtype build result_type is_float orb to_float float_max inexact_dtype].
  rewrite bool_decide_eq_true_2 by done. cbn [assert_]. rewrite run_ret.
  cbv beta iota.
  rewrite run_bind, binop_build by done. cbv beta iota.
  rewrite run_bind, binop_build by done. cbv beta iota.
  rewrite square_build, !scalar_mul_build, div_scalar_build.
  rewrite run_bind, binop_build by done. cbv beta iota.
  rewrite run_bind.
  cbn [dtype build result_type is_float orb to_float float_max inexact_dtype].
  rewrite bool_decide_eq_true_2 by done. cbn [assert_]. rewrite run_ret.
  reflexivity.
Qed.

Lemma kept_true_cons {A} fl (x : A) l : kept (true :: fl) (x :: l) = kept fl l.
Proof. done. Qed.

Lemma dropped_true_cons {A} fl (x : A) l :
  dropped (true :: fl) (x :: l) = x :: dropped fl l.
Proof. done. Qed.

Lemma concat_along_flags d a b whole axes :
  concat_along d a b = Some whole ->
  length (shape a) = length (dims a) ->
  reduced axes d = true ->
  exists pre post fpre fpost na nb,
    length fpre = length pre
    /\ length fpost = length post
    /\ flags axes a = fpre ++ true :: fpost
    /\ shape a = pre ++ na :: post
    /\ shape b = pre ++ nb :: post
    /\ dims b = dims a
    /\ whole = build (dims a) (pre ++ (na + nb) :: post)
                 (result_type (dtype a) (dtype b))
                 (fun idx =>
                    let i := default 0 (idx !! length pre) in
                    if i <? na then item a idx
                    else item b (<[length pre := i - na]> idx)).
Proof.
  intros Hc Hlen Hred.
  destruct (concat_along_Some _ _ _ _ Hc)
    as (pre & post & na & nb & Hk & Ha & Hb & Hd & Hw).
  apply index_of_lookup in Hk.
  assert (Hfl : flags axes a !! length pre = Some true).
  { unfold flags. by rewrite list_lookup_fmap, Hk; cbn; rewrite Hred. }
  exists pre, post, (take (length pre) (flags axes a)),
    (drop (S (length pre)) (flags axes a)), na, nb.
  assert (Hlf : length (flags axes a) = length pre + S (length post)).
  { rewrite length_flags, <- Hlen, Ha, length_app. done. }
  repeat split; try done.
  - rewrite length_take. lia.
  - rewrite length_drop. lia.
  - symmetry. by apply take_drop_middle.
Qed.

Section concat.
Context (d : AxisId) (axes : option (list string)) (a b whole : DataArray).
Hypothesis Hc : concat_along d a b = Some whole.
Hypothesis Hnd : NoDup (dims a).
Hypothesis Hlen : length (shape a) = length (dims a).
Hypothesis Hposa : Forall (lt 0) (shape a).
Hypothesis Hposb : Forall (lt 0) (shape b).
Hypothesis Hred : reduced axes d = true.
Hypothesis Haxes : axes_in axes a.

Lemma concat_dims : dims b = dims a /\ dims whole = dims a.
Proof using Hc Hlen Hred.
  destruct (concat_along_flags _ _ _ _ axes Hc Hlen Hred)
    as (pre & post & fpre & fpost & na & nb & ? & ? & ? & ? & ? & ? & ->).
  done.
Qed.

Lemma concat_flags_eq :
  flags axes b = flags axes a /\ flags axes whole = flags axes a.
Proof using Hc Hlen Hred.
  destruct concat_dims as [Hb Hw]. unfold flags. by rewrite Hb, Hw.
Qed.

Lemma concat_kept :
  kept (flags axes a) (shape b) = kept (flags axes a) (shape a)
  /\ kept (flags axes a) (shape whole) = kept (flags axes a) (shape a).
Proof using Hc Hlen Hred.
  destruct (concat_along_flags _ _ _ _ axes Hc Hlen Hred)
    as (pre & post & fpre & fpost & na & nb & Hl1 & Hl2 & -> & -> & -> & ? & ->).
  cbn [shape build]. by rewrite !kept_app by done.
Qed.

Lemma concat_count :
  np_prod (dropped (flags axes a) (shape whole))
  = np_prod (dropped (flags axes a) (shape a))
    + np_prod (dropped (flags axes a) (shape b)).
Proof using Hc Hlen Hred.
  destruct (concat_along_flags _ _ _ _ axes Hc Hlen Hred)
    as (pre & post & fpre & fpost & na & nb & Hl1 & Hl2 & -> & -> & -> & ? & ->).
  cbn [shape build]. rewrite !dropped_app by done.
  rewrite !dropped_true_cons, !np_prod_app, !np_prod_cons. nia.
Qed.

Lemma concat_shape_pos : Forall (lt 0) (shape whole).
Proof using Hc Hlen Hred Hposa.
  destruct (concat_along_flags _ _ _ _ axes Hc Hlen Hred)
    as (pre & post & fpre & fpost & na & nb & Hl1 & Hl2 & Hf & Ha & Hb & ? & ->).
  cbn [shape build]. rewrite Ha in Hposa.
  apply Forall_app in Hposa as [Hp Hq]. apply Forall_cons in Hq as [Hn Hq].
  apply Forall_app; split; [done|]. constructor; [lia|done].
Qed.

Lemma concat_group oidx :
  Forall2 lt oidx (kept (flags axes a) (shape a)) ->
  group (shape whole) (flags axes a) oidx (item whole)
  ≡ₚ group (shape a) (flags axes a) oidx (item a)
     ++ group (shape b) (flags axes a) oidx (item b).
Proof using Hc Hlen Hred.
  intros Ho.
  destruct (concat_along_flags _ _ _ _ axes Hc Hlen Hred)
    as (pre & post & fpre & fpost & na & nb & Hl1 & Hl2 & Hf & Ha & Hb & ? & ->).
  rewrite Hf, Ha in Ho. rewrite Hf, Ha, Hb. cbn [shape build].
  rewrite (group_ext_bounds _ _ _ _
             (fun idx =>
                if default 0 (idx !! length pre) <? na then item a idx
                else item b (<[length pre := default 0 (idx !! length pre) - na]>
                               idx))).
  - by apply group_concat.
  - rewrite !length_app. cbn. lia.
  - revert Ho. by rewrite !kept_app by done.
  - intros idx Hidx. by rewrite item_build.
Qed.

End concat.

Lemma concat_shape_length d a b whole :
  concat_along d a b = Some whole ->
  length (shape b) = length (shape a)
  /\ length (shape whole) = length (shape a).
Proof.
  intros Hc.
  destruct (concat_along_Some _ _ _ _ Hc)
    as (pre & post & na & nb & Hk & Ha & Hb & Hd & ->).
  rewrite Ha, Hb. cbn [shape build]. by rewrite !length_app.
Qed.

Lemma axes_in_dims axes a b : dims b = dims a -> axes_in axes a -> axes_in axes b.
Proof. unfold axes_in. intros ->. done. Qed.

Section concat_groups.
Context (d : AxisId) (axes : option (list string)) (a b whole : DataArray).
Hypothesis Hc : concat_along d a b = Some whole.
Hypothesis Hlen : length (shape a) = length (dims a).
Hypothesis Hposa : Forall (lt 0) (shape a).
Hypothesis Hposb : Forall (lt 0) (shape b).
Hypothesis Hred : reduced axes d = true.

Lemma group_mean_concat oidx :
  Forall2 lt oidx (kept (flags axes a) (shape a)) ->
  mean_list (group (shape whole) (flags axes a) oidx (item whole))
  = ((Qc_of_nat (np_prod (dropped (flags axes a) (shape a)))
      * mean_list (group (shape a) (flags axes a) oidx (item a))
      + Qc_of_nat (np_prod (dropped (flags axes a) (shape b)))
        * mean_list (group (shape b) (flags axes a) oidx (item b)))
     / Qc_of_nat (np_prod (dropped (flags axes a) (shape a))
                  + np_prod (dropped (flags axes a) (shape b))))%Qc.
Proof using Hc Hlen Hred Hposa Hposb.
  intros Ho.
  destruct (concat_kept d axes a b whole Hc Hlen Hred) as [Hkb Hkw].
  pose proof (concat_group d axes a b whole Hc Hlen Hred oidx Ho) as Hg.
  rewrite (mean_list_concat _ _ _ Hg).
  - rewrite !group_length; [done|..];
      rewrite ?Hkb, (Forall2_length _ _ _ Ho); lia.
  - by apply group_nonempty.
  - apply group_nonempty; [done|]. by rewrite Hkb.
Qed.

Lemma group_sq_dev_concat oidx :
  Forall2 lt oidx (kept (flags axes a) (shape a)) ->
  let ga := group (shape a) (flags axes a) oidx (item a) in
  let gb := group (shape b) (flags axes a) oidx (item b) in
  let gw := group (shape whole) (flags axes a) oidx (item whole) in
  sq_dev (mean_list gw) gw
  = (sq_dev (mean_list ga) ga + sq_dev (mean_list gb) gb
     + Qc_of_nat (np_prod (dropped (flags axes a) (shape b)))
       * (Qc_of_nat (np_prod (dropped (flags axes a) (shape a)))
          * ((mean_list gb - mean_list ga) * (mean_list gb - mean_list ga)))
       / Qc_of_nat (np_prod (dropped (flags axes a) (shape a))
                    + np_prod (dropped (flags axes a) (shape b))))%Qc.
Proof using Hc Hlen Hred Hposa Hposb.
  intros Ho ga gb gw.
  destruct (concat_kept d axes a b whole Hc Hlen Hred) as [Hkb Hkw].
  pose proof (concat_group d axes a b whole Hc Hlen Hred oidx Ho) as Hg.
  fold ga gb gw in Hg.
  rewrite (sq_dev_concat _ _ _ Hg).
  - subst ga gb. rewrite !group_length; [done|..];
      rewrite ?Hkb, (Forall2_length _ _ _ Ho); lia.
  - by apply group_nonempty.
  - apply group_nonempty; [done|]. by rewrite Hkb.
Qed.

End concat_groups.

(** ** Incremental and one-shot statistics agree *)

Ltac concat_facts Hc Hlen Hposa Hred :=
  let Hdb := fresh "Hdb" in let Hdw := fresh "Hdw" in
  let Hfb := fresh "Hfb" in let Hfw := fresh "Hfw" in
  let Hkb := fresh "Hkb" in let Hkw := fresh "Hkw" in
  let Hlb := fresh "Hlb" in let Hlw := fresh "Hlw" in
  destruct (concat_dims _ _ _ _ _ Hc Hlen Hred) as [Hdb Hdw];
  destruct (concat_flags_eq _ _ _ _ _ Hc Hlen Hred) as [Hfb Hfw];
  destruct (concat_kept _ _ _ _ _ Hc Hlen Hred) as [Hkb Hkw];
  destruct (concat_shape_length _ _ _ _ Hc) as [Hlb Hlw];
  pose proof (concat_shape_pos _ _ _ _ _ Hc Hlen Hposa Hred);
  pose proof (concat_count _ _ _ _ _ Hc Hlen Hred).

Lemma MeanCalculator_concat_states tid d axes a b whole sa sb sw w :
  concat_along d a b = Some whole ->
  NoDup (dims a) ->
  length (shape a) = length (dims a) ->
  Forall (lt 0) (shape a) ->
  Forall (lt 0) (shape b) ->
  reduced axes d = true ->
  axes_in axes a ->
  axes_distinct axes ->
  data sa !! tid = Some a ->
  data sb !! tid = Some b ->
  data sw !! tid = Some whole ->
  let n_a := np_prod (dropped (flags axes a) (shape a)) in
  let n_b := np_prod (dropped (flags axes a) (shape b)) in
  MeanCalculator.update (MeanCalculator.__init__ tid axes) sa w
  = (Ok (MeanCalculator.mk n_a (Some (mean_of axes a)) axes tid), w)
  /\ MeanCalculator.update
       (MeanCalculator.mk n_a (Some (mean_of axes a)) axes tid) sb w
     = (Ok (MeanCalculator.mk (n_a + n_b) (Some (mean_of axes whole)) axes tid),
        w)
  /\ MeanCalculator.update (MeanCalculator.__init__ tid axes) sw w
     = (Ok (MeanCalculator.mk (n_a + n_b) (Some (mean_of axes whole)) axes tid),
        w).
Proof.
  intros Hc Hnd Hlen Hposa Hposb Hred Haxes Hdist Hsa Hsb Hsw n_a n_b.
  concat_facts Hc Hlen Hposa Hred.
  assert (Hka : 0 < np_prod (kept (flags axes a) (shape a)))
    by by apply np_prod_pos, Forall_kept.
  assert (Hw : mean_of axes whole
               = build (kept (flags axes a) (dims a))
                   (kept (flags axes a) (shape a)) float64
                   (fun oidx =>
                      ((Qc_of_nat n_a
                        * mean_list (group (shape a) (flags axes a) oidx
                                       (item a))
                        + Qc_of_nat n_b
                          * mean_list (group (shape b) (flags axes a) oidx
                                         (item b)))
                       / Qc_of_nat (n_a + n_b))%Qc)).
  { unfold mean_of. rewrite Hfw, Hdw, Hkw. apply build_ext. intros oidx Ho.
    by eapply group_mean_concat. }
  split; [|split].
  - by apply MeanCalculator_update_first.
  - rewrite Hw. unfold mean_of, n_a, n_b. rewrite <- Hkb, <- Hfb, <- Hdb.
    apply MeanCalculator_update_next; rewrite ?Hdb, ?Hfb, ?Hkb; try done.
    + by eapply axes_in_dims.
    + congruence.
    + by apply np_prod_pos, Forall_dropped.
  - rewrite (MeanCalculator_update_first tid axes sw whole w Hsw);
      [|first [by eapply axes_in_dims
              |rewrite ?Hdw, ?Hfw, ?Hkw; first [done|congruence]]..].
    do 3 f_equal. rewrite Hfw. subst n_a n_b.
    match goal with H : np_prod _ = _ |- _ => exact H end.
Qed.

Lemma MeanVarStdCalculator_concat_states tid d axes a b whole sa sb sw w :
  concat_along d a b = Some whole ->
  NoDup (dims a) ->
  length (shape a) = length (dims a) ->
  Forall (lt 0) (shape a) ->
  Forall (lt 0) (shape b) ->
  reduced axes d = true ->
  axes_in axes a ->
  axes_distinct axes ->
  data sa !! tid = Some a ->
  data sb !! tid = Some b ->
  data sw !! tid = Some whole ->
  let n_a := np_prod (dropped (flags axes a) (shape a)) in
  let n_b := np_prod (dropped (flags axes a) (shape b)) in
  MeanVarStdCalculator.update (MeanVarStdCalculator.__init__ tid axes) sa w
  = (Ok (MeanVarStdCalculator.mk axes tid n_a (Some (mean_of axes a))
           (Some (m2_of axes a))), w)
  /\ MeanVarStdCalculator.update
       (MeanVarStdCalculator.mk axes tid n_a (Some (mean_of axes a))
          (Some (m2_of axes a))) sb w
     = (Ok (MeanVarStdCalculator.mk axes tid (n_a + n_b)
              (Some (mean_of axes whole)) (Some (m2_of axes whole))), w)
  /\ MeanVarStdCalculator.update (MeanVarStdCalculator.__init__ tid axes) sw w
     = (Ok (MeanVarStdCalculator.mk axes tid (n_a + n_b)
              (Some (mean_of axes whole)) (Some (m2_of axes whole))), w).
Proof.
  intros Hc Hnd Hlen Hposa Hposb Hred Haxes Hdist Hsa Hsb Hsw n_a n_b.
  concat_facts Hc Hlen Hposa Hred.
  assert (Hka : 0 < np_prod (kept (flags axes a) (shape a)))
    by by apply np_prod_pos, Forall_kept.
  assert (Hw : mean_of axes whole
               = build (kept (flags axes a) (dims a))
                   (kept (flags axes a) (shape a)) float64
                   (fun oidx =>
                      let g := group (shape b) (flags axes a) oidx (item b) in
                      ((Qc_of_nat n_a
                        * mean_list (group (shape a) (flags axes a) oidx
                                       (item a))
                        + Qc_of_nat n_b * mean_list g)
                       / Qc_of_nat (n_a + n_b))%Qc)).
  { unfold mean_of. rewrite Hfw, Hdw, Hkw. apply build_ext. intros oidx Ho.
    cbv zeta. by eapply group_mean_concat. }
  assert (Hw2 : m2_of axes whole
                = build (kept (flags axes a) (dims a))
                    (kept (flags axes a) (shape a)) float64
                    (fun oidx =>
                       let ga := group (shape a) (flags axes a) oidx (item a) in
                       let g := group (shape b) (flags axes a) oidx (item b) in
                       (sq_dev (mean_list ga) ga + sq_dev (mean_list g) g
                        + Qc_of_nat n_b
                          * (Qc_of_nat n_a
                             * ((mean_list g - mean_list ga)
                                * (mean_list g - mean_list ga)))
                          / Qc_of_nat (n_a + n_b))%Qc)).
  { unfold m2_of. rewrite Hfw, Hdw, Hkw. apply build_ext. intros oidx Ho.
    cbv zeta. by eapply group_sq_dev_concat. }
  split; [|split].
  - by apply MeanVarStdCalculator_update_first.
  - rewrite Hw, Hw2. unfold mean_of, m2_of, n_a, n_b.
    rewrite <- Hkb, <- Hfb, <- Hdb.
    apply MeanVarStdCalculator_update_next; rewrite ?Hdb, ?Hfb, ?Hkb; try done.
    + by eapply axes_in_dims.
    + congruence.
  - rewrite (MeanVarStdCalculator_update_first tid axes sw whole w Hsw);
      [|first [by eapply axes_in_dims
              |rewrite ?Hdw, ?Hfw, ?Hkw; first [done|congruence]]..].
    do 2 f_equal. rewrite Hfw. subst n_a n_b.
    match goal with H : np_prod _ = _ |- _ => by rewrite H end.
Qed.

(** X1: over exact rationals, feeding a [MeanCalculator] two samples one
    after the other leaves it in the state that a single update with their
    concatenation along a reduced axis gives: the same element count and the
    same running mean, hence the same finalized dataset mean.  The tensors
    have distinct dimension names and no empty dimension; the axes are
    [None] or name dimensions of the tensor, none of them twice. *)
Theorem MeanCalculator_update_concat tid d axes a b whole sa sb sw w :
  concat_along d a b = Some whole ->
  NoDup (dims a) ->
  length (shape a) = length (dims a) ->
  Forall (lt 0) (shape a) ->
  Forall (lt 0) (shape b) ->
  reduced axes d = true ->
  axes_in axes a ->
  axes_distinct axes ->
  data sa !! tid = Some a ->
  data sb !! tid = Some b ->
  data sw !! tid = Some whole ->
  exists ca cab,
    MeanCalculator.update (MeanCalculator.__init__ tid axes) sa w = (Ok ca, w)
    /\ MeanCalculator.update ca sb w = (Ok cab, w)
    /\ MeanCalculator.update (MeanCalculator.__init__ tid axes) sw w
       = (Ok cab, w).
Proof.
  intros Hc Hnd Hlen Hposa Hposb Hred Haxes Hdist Hsa Hsb Hsw.
  pose proof (MeanCalculator_concat_states tid d axes a b whole sa sb sw w
                Hc Hnd Hlen Hposa Hposb Hred Haxes Hdist Hsa Hsb Hsw) as H.
  cbv zeta in H. destruct H as (H1 & H2 & H3).
  eexists _, _. split_and!; [exact H1|exact H2|exact H3].
Qed.

(** X2: the same for a [MeanVarStdCalculator], over exact rationals and
    for axes of which none is named twice: the count, the mean and the sum
    of squared deviations after two updates are those of one update with
    the concatenation, so the finalized mean, variance and standard
    deviation agree as well. *)
Theorem MeanVarStdCalculator_update_concat tid d axes a b whole sa sb sw w :
  concat_along d a b = Some whole ->
  NoDup (dims a) ->
  length (shape a) = length (dims a) ->
  Forall (lt 0) (shape a) ->
  Forall (lt 0) (shape b) ->
  reduced axes d = true ->
  axes_in axes a ->
  axes_distinct axes ->
  data sa !! tid = Some a ->
  data sb !! tid = Some b ->
  data sw !! tid = Some whole ->
  exists ca cab,
    MeanVarStdCalculator.update (MeanVarStdCalculator.__init__ tid axes) sa w
    = (Ok ca, w)
    /\ MeanVarStdCalculator.update ca sb w = (Ok cab, w)
    /\ MeanVarStdCalculator.update (MeanVarStdCalculator.__init__ tid axes) sw w
       = (Ok cab, w).
Proof.
  intros Hc Hnd Hlen Hposa Hposb Hred Haxes Hdist Hsa Hsb Hsw.
  pose proof (MeanVarStdCalculator_concat_states tid d axes a b whole sa sb sw w
                Hc Hnd Hlen Hposa Hposb Hred Haxes Hdist Hsa Hsb Hsw) as H.
  cbv zeta in H. destruct H as (H1 & H2 & H3).
  eexists _, _. split_and!; [exact H1|exact H2|exact H3].
Qed.

Lemma MeanCalculator_update_concat_witness :
  exists ca cab,
    MeanCalculator.update (MeanCalculator.__init__ "raw" None) ex_sample []
    = (Ok ca, [])
    /\ MeanCalculator.update ca ex_sample2 [] = (Ok cab, [])
    /\ MeanCalculator.update (MeanCalculator.__init__ "raw" None)
         ex_sample_whole [] = (Ok cab, []).
Proof.
  apply (MeanCalculator_update_concat "raw" "x" None ex_tensor ex_tensor2
           ex_whole ex_sample ex_sample2 ex_sample_whole []).
  - vm_compute. reflexivity.
  - apply NoDup_singleton.
  - reflexivity.
  - apply Forall_singleton. lia.
  - apply Forall_singleton. lia.
  - reflexivity.
  - exact I.
  - exact I.
  - vm_compute. reflexivity.
  - vm_compute. reflexivity.
  - vm_compute. reflexivity.
Defined.

Lemma MeanVarStdCalculator_update_concat_witness :
  exists ca cab,
    MeanVarStdCalculator.update (MeanVarStdCalculator.__init__ "raw" None)
      ex_sample [] = (Ok ca, [])
    /\ MeanVarStdCalculator.update ca ex_sample2 [] = (Ok cab, [])
    /\ MeanVarStdCalculator.update (MeanVarStdCalculator.__init__ "raw" None)
         ex_sample_whole [] = (Ok cab, []).
Proof.
  apply (MeanVarStdCalculator_update_concat "raw" "x" None ex_tensor ex_tensor2
           ex_whole ex_sample ex_sample2 ex_sample_whole []).
  - vm_compute. reflexivity.
  - apply NoDup_singleton.
  - reflexivity.
  - apply Forall_singleton. lia.
  - apply Forall_singleton. lia.
  - reflexivity.
  - exact I.
  - exact I.
  - vm_compute. reflexivity.
  - vm_compute. reflexivity.
  - vm_compute. reflexivity.
Defined.

(** *** One batch or two *)





(** ** Failing computations and loops *)

Lemma bind_Raise {A B} (c : Py A) (k : A -> Py B) w e w2 :
  (c ≫= k) w = (Raise e, w2) <->
  c w = (Raise e, w2)
  \/ exists a w1, c w = (Ok a, w1) /\ k a w1 = (Raise e, w2).
Proof.
  rewrite run_bind. destruct (c w) as [[a|e'] w1]; split; intros H.
  - right. exists a, w1. split; [reflexivity|exact H].
  - destruct H as [H|(a' & w1' & H & Hk)]; [done|]. by simplify_eq.
  - left. by simplify_eq.
  - destruct H as [H|(a0 & w0 & H & Hk)]; by simplify_eq.
Qed.

Lemma assert_Raise b e w w' :
  assert_ b w = (Raise e, w') -> e = AssertionError /\ b = false /\ w' = w.
Proof. unfold assert_. destruct b; py_unfold; intros H; by simplify_eq. Qed.

Lemma ret_Raise {A} (a : A) e w w' : (mret a : Py A) w = (Raise e, w') -> False.
Proof. by rewrite run_ret. Qed.

Lemma for_each_Raise {A S} (l : list A) (body : A -> S -> Py S) s w e w' e0 :
  (forall x s w w' e, body x s w = (Raise e, w') -> e = e0) ->
  for_each l body s w = (Raise e, w') -> e = e0.
Proof.
  intros Hb. revert s w. induction l as [|x l IH]; intros s w H; cbn in H.
  - by apply ret_Raise in H.
  - apply bind_Raise in H as [H|(s1 & w1 & _ & H)]; eauto.
Qed.

(** whatever happens before an element's turn, the turn establishes [P] and
    the later turns keep it *)
Lemma for_each_elem {A S} (P : S -> Prop) (l : list A) body x s w s' w' :
  x ∈ l ->
  (forall s w s' w', body x s w = (Ok s', w') -> P s') ->
  (forall y s w s' w', P s -> body y s w = (Ok s', w') -> P s') ->
  for_each l body s w = (Ok s', w') -> P s'.
Proof.
  intros Hx Hest Hkeep. revert s w.
  induction l as [|y l IH]; intros s w H; [by apply elem_of_nil in Hx|].
  cbn in H. py_inv.
  apply elem_of_cons in Hx as [->|Hx].
  - eapply for_each_inv; [|by apply Hkeep|done]. eauto.
  - eauto.
Qed.

(** ** The groups and the calculators of the planner *)

Lemma split_measure_Ok rm r w :
  exists r', split_measure rm r w = (Ok r', w).
Proof.
  destruct rm; cbn [split_measure]; py_unfold; try by eexists.
  all: rewrite bool_decide_eq_true_2 by set_solver; by eexists.
Qed.

Lemma setdefault_add_lookup k n d :
  exists ns, setdefault_add k n d !! k = Some ns /\ n ∈ ns.
Proof.
  unfold setdefault_add. rewrite lookup_insert_eq. eexists. split; [done|].
  set_solver.
Qed.

Lemma setdefault_add_mono k n d k' n' ns :
  d !! k' = Some ns -> n' ∈ ns ->
  exists ns', setdefault_add k n d !! k' = Some ns' /\ n' ∈ ns'.
Proof.
  intros Hk Hn. unfold setdefault_add. destruct (decide (k = k')) as [->|Hne].
  - rewrite lookup_insert_eq, Hk. eexists. split; [done|]. cbn. set_solver.
  - rewrite lookup_insert_ne by done. eauto.
Qed.

Lemma split_measure_requested m r w r' w' :
  split_measure m r w = (Ok r', w') -> requested m r'.
Proof.
  destruct m; cbn [split_measure]; intros H; py_inv; subst; cbn.
  all: try set_solver.
  all: apply setdefault_add_lookup.
Qed.

Lemma split_measure_mono m y r w r' w' :
  requested m r -> split_measure y r w = (Ok r', w') -> requested m r'.
Proof.
  intros Hm H.
  destruct y; cbn [split_measure] in H; py_inv; subst;
    destruct m; cbn in *; try done; try set_solver.
  all: destruct Hm as (ns & Hl & Hn); by eapply setdefault_add_mono.
Qed.

Lemma split_loop_requested m measures r0 w r w' :
  m ∈ measures ->
  for_each measures split_measure r0 w = (Ok r, w') ->
  requested m r.
Proof.
  intros Hm. eapply (for_each_elem (requested m)); [done| |].
  - intros. by eapply split_measure_requested.
  - intros. by eapply split_measure_mono.
Qed.

Lemma split_loop_Ok measures r0 w :
  exists r, for_each measures split_measure r0 w = (Ok r, w).
Proof.
  revert r0. induction measures as [|m l IH]; intros r0; cbn [for_each].
  - eexists. apply run_ret.
  - destruct (split_measure_Ok m r0 w) as [r1 H1].
    destruct (IH r1) as [r H]. exists r. by rewrite run_bind, H1.
Qed.

Lemma foldl_cond_snoc {A B} (p : A -> bool) (g : A -> B) l acc :
  foldl (fun cs x => if p x then cs else cs ++ [g x]) acc l
  = acc ++ (g <$> List.filter (fun x => negb (p x)) l).
Proof.
  revert acc. induction l as [|x l IH]; intros acc; cbn.
  - by rewrite app_nil_r.
  - rewrite IH. destruct (p x); cbn; [done|]. by rewrite <- app_assoc.
Qed.

Lemma for_each_append {A B} (R : A -> B -> Prop) (l : list A)
    (body : A -> list B -> Py (list B)) acc w r w' :
  (forall x cs w cs' w', body x cs w = (Ok cs', w') ->
     exists y, cs' = cs ++ [y] /\ R x y) ->
  for_each l body acc w = (Ok r, w') ->
  exists ys, r = acc ++ ys /\ Forall2 R l ys.
Proof.
  intros Hb. revert acc w. induction l as [|x l IH]; intros acc w H;
    cbn in H; py_inv.
  - subst. exists []. by rewrite app_nil_r.
  - destruct (Hb _ _ _ _ _ Hstep) as (y & -> & Hy).
    destruct (IH _ _ H) as (ys & -> & Hys).
    exists (y :: ys). rewrite <- app_assoc. by split; [|constructor].
Qed.

Lemma get_measure_calculators_inv env measures sc dc w w' :
  get_measure_calculators env measures w = (Ok (sc, dc), w') ->
  exists r ps pd,
    for_each measures split_measure (mkRequired ∅ ∅ ∅ ∅ ∅ ∅) w = (Ok r, w)
    /\ sc = ((fun rm => SC_Mean (MeanCalculator.__init__ (m_tensor_id rm)
                                   (m_axes rm)))
             <$> List.filter
                   (fun rm => negb (bool_decide
                                      (rm ∈ required_sample_mean_var_std r)))
                   (elements (required_sample_means r)))
            ++ ((fun rm => SC_MeanVarStd (MeanVarStdCalculator.__init__
                                            (m_tensor_id rm) (m_axes rm)))
                <$> elements (required_sample_mean_var_std r))
            ++ ps
    /\ Forall2 (fun x y => exists c w1 w2,
                  SamplePercentilesCalculator.__init__ x.1.1 x.1.2
                    (elements x.2) w1 = (Ok c, w2)
                  /\ y = SC_Percentiles c)
         (map_to_list (required_sample_percentiles r)) ps
    /\ dc = ((fun rm => DC_Mean (MeanCalculator.__init__ (m_tensor_id rm)
                                   (m_axes rm)))
             <$> List.filter
                   (fun rm => negb (bool_decide
                                      (rm ∈ required_dataset_mean_var_std r)))
                   (elements (required_dataset_means r)))
            ++ ((fun rm => DC_MeanVarStd (MeanVarStdCalculator.__init__
                                            (m_tensor_id rm) (m_axes rm)))
                <$> elements (required_dataset_mean_var_std r))
            ++ pd
    /\ Forall2 (fun x y => exists w1 w2,
                  DatasetPercentilesCalculator env x.1.1 x.1.2
                    (elements x.2) w1 = (Ok y, w2))
         (map_to_list (required_dataset_percentiles r)) pd.
Proof.
  unfold get_measure_calculators. intros H.
  apply bind_Ok in H as (r & w1 & Hr & H).
  destruct (split_loop_Ok measures (mkRequired ∅ ∅ ∅ ∅ ∅ ∅) w) as [r0 Hr0].
  rewrite Hr0 in Hr. injection Hr as -> ->.
  cbv zeta in H.
  apply bind_Ok in H as (sc' & w2 & Hs & H).
  apply bind_Ok in H as (dc' & w3 & Hd & H).
  apply ret_Ok in H as [[= <- <-] ->].
  rewrite foldl_snoc_map, (foldl_cond_snoc (fun rm => bool_decide _)),
    app_nil_l in Hs.
  rewrite foldl_snoc_map, (foldl_cond_snoc (fun rm => bool_decide _)),
    app_nil_l in Hd.
  eapply (for_each_append
            (fun x y => exists c w1 w2,
               SamplePercentilesCalculator.__init__ x.1.1 x.1.2
                 (elements x.2) w1 = (Ok c, w2)
               /\ y = SC_Percentiles c)) in Hs as (ps & -> & Hps).
  2:{ intros [[tid axes] ns] cs wa cs' wb Hb. py_inv. subst.
      eexists. split; [done|]. cbn. eauto. }
  eapply (for_each_append
            (fun x y => exists w1 w2,
               DatasetPercentilesCalculator env x.1.1 x.1.2
                 (elements x.2) w1 = (Ok y, w2))) in Hd as (pd & -> & Hpd).
  2:{ intros [[tid axes] ns] cs wa cs' wb Hb. py_inv. subst.
      eexists. split; [done|]. cbn. eauto. }
  exists r, ps, pd. rewrite <- !app_assoc. done.
Qed.

Lemma Forall2_elem_of_l {A B} (R : A -> B -> Prop) l k x :
  Forall2 R l k -> x ∈ l -> exists y, y ∈ k /\ R x y.
Proof.
  intros HF [i Hi]%list_elem_of_lookup_1.
  destruct (Forall2_lookup_l _ _ _ _ _ HF Hi) as (y & Hy & HR).
  exists y. split; [|done]. by eapply list_elem_of_lookup_2.
Qed.

Lemma SamplePercentilesCalculator_init_Ok tid axes ns c w w' :
  SamplePercentilesCalculator.__init__ tid axes ns w = (Ok c, w') ->
  SamplePercentilesCalculator._tensor_id c = tid
  /\ SamplePercentilesCalculator._axes c = axes
  /\ SamplePercentilesCalculator.ns c = ns
  /\ valid_ranks ns = true.
Proof.
  unfold SamplePercentilesCalculator.__init__. intros H. py_inv. by subst.
Qed.

Lemma DatasetPercentilesCalculator_Ok env tid axes ns calc w w' :
  DatasetPercentilesCalculator env tid axes ns w = (Ok calc, w') ->
  valid_ranks ns = true
  /\ ((crick_available env = false
       /\ calc = DC_MeanPercentiles
                  (MeanPercentilesCalculator.mk ns
                     ((fun n => n / Qc_of_nat 100)%Qc <$> ns) axes tid 0 None))
      \/ (crick_available env = true
          /\ calc = DC_CrickPercentiles
                      (CrickPercentilesCalculator.mk ns
                         ((fun n => n / Qc_of_nat 100)%Qc <$> ns) axes tid
                         None None None None))).
Proof.
  unfold DatasetPercentilesCalculator. intros H.
  destruct (crick_available env).
  - unfold CrickPercentilesCalculator.__init__ in H.
    apply bind_Ok in H as (c & w1 & H & Hr).
    apply bind_Ok in H as (u & w2 & _ & H).
    py_inv. subst. split; [done|]. by right.
  - unfold MeanPercentilesCalculator.__init__ in H. py_inv. subst.
    split; [done|]. by left.
Qed.

Lemma planner_serves env measures sc dc w w' m :
  get_measure_calculators env measures w = (Ok (sc, dc), w') ->
  m ∈ measures ->
  if is_dataset_measure m
  then exists calc, calc ∈ dc /\ dataset_calculator_serves calc m
  else exists calc, calc ∈ sc /\ sample_calculator_serves calc m.
Proof.
  intros H Hm.
  destruct (get_measure_calculators_inv _ _ _ _ _ _ H)
    as (r & ps & pd & Hr & -> & Hps & -> & Hpd).
  clear H. pose proof (split_loop_requested _ _ _ _ _ _ Hm Hr) as Hreq.
  destruct m as [t a|t a|t a|t a n|t a|t a|t a|t a n];
    cbn [is_dataset_measure requested] in *.
  - destruct (decide (SampleMean t a ∈ required_sample_mean_var_std r))
      as [Hin|Hnin].
    + exists (SC_MeanVarStd (MeanVarStdCalculator.__init__ t a)).
      split; [|done]. rewrite !elem_of_app. right; left.
      apply list_elem_of_fmap. exists (SampleMean t a).
      split; [done|]. by apply elem_of_elements.
    + exists (SC_Mean (MeanCalculator.__init__ t a)).
      split; [|done]. rewrite !elem_of_app. left.
      apply list_elem_of_fmap. exists (SampleMean t a).
      split; [done|]. apply list_elem_of_In, List.filter_In.
      split; [by apply list_elem_of_In, elem_of_elements|].
      by rewrite bool_decide_eq_false_2.
  - exists (SC_MeanVarStd (MeanVarStdCalculator.__init__ t a)).
    split; [|done]. rewrite !elem_of_app. right; left.
    apply list_elem_of_fmap. exists (SampleStd t a).
    split; [done|]. by apply elem_of_elements.
  - exists (SC_MeanVarStd (MeanVarStdCalculator.__init__ t a)).
    split; [|done]. rewrite !elem_of_app. right; left.
    apply list_elem_of_fmap. exists (SampleVar t a).
    split; [done|]. by apply elem_of_elements.
  - destruct Hreq as (ns & Hl & Hn).
    apply elem_of_map_to_list in Hl.
    destruct (Forall2_elem_of_l _ _ _ _ Hps Hl)
      as (y & Hy & c & w1 & w2 & Hc & ->).
    apply SamplePercentilesCalculator_init_Ok in Hc as (Ht & Ha & Hns & _).
    exists (SC_Percentiles c). split.
    + rewrite !elem_of_app. by right; right.
    + cbn in *. rewrite Hns. by rewrite elem_of_elements.
  - destruct (decide (DatasetMean t a ∈ required_dataset_mean_var_std r))
      as [Hin|Hnin].
    + exists (DC_MeanVarStd (MeanVarStdCalculator.__init__ t a)).
      split; [|done]. rewrite !elem_of_app. right; left.
      apply list_elem_of_fmap. exists (DatasetMean t a).
      split; [done|]. by apply elem_of_elements.
    + exists (DC_Mean (MeanCalculator.__init__ t a)).
      split; [|done]. rewrite !elem_of_app. left.
      apply list_elem_of_fmap. exists (DatasetMean t a).
      split; [done|]. apply list_elem_of_In, List.filter_In.
      split; [by apply list_elem_of_In, elem_of_elements|].
      by rewrite bool_decide_eq_false_2.
  - exists (DC_MeanVarStd (MeanVarStdCalculator.__init__ t a)).
    split; [|done]. rewrite !elem_of_app. right; left.
    apply list_elem_of_fmap. exists (DatasetStd t a).
    split; [done|]. by apply elem_of_elements.
  - exists (DC_MeanVarStd (MeanVarStdCalculator.__init__ t a)).
    split; [|done]. rewrite !elem_of_app. right; left.
    apply list_elem_of_fmap. exists (DatasetVar t a).
    split; [done|]. by apply elem_of_elements.
  - destruct Hreq as (ns & Hl & Hn).
    apply elem_of_map_to_list in Hl.
    destruct (Forall2_elem_of_l _ _ _ _ Hpd Hl) as (y & Hy & w1 & w2 & Hc).
    apply DatasetPercentilesCalculator_Ok in Hc
      as [_ [[_ ->]|[_ ->]]]; eexists; (split;
        [rewrite !elem_of_app; right; right; exact Hy|]);
      cbn; by rewrite elem_of_elements.
Qed.

(** X3: the planner leaves no requested measure without a calculator: when
    it returns, every sample measure of the request is computed by one of
    the sample calculators and every dataset measure by one of the dataset
    calculators. *)
Theorem get_measure_calculators_serves env measures sc dc w w' m :
  get_measure_calculators env measures w = (Ok (sc, dc), w') ->
  m ∈ measures ->
  if is_dataset_measure m
  then exists calc, calc ∈ dc /\ dataset_calculator_serves calc m
  else exists calc, calc ∈ sc /\ sample_calculator_serves calc m.
Proof. apply planner_serves. Qed.

Lemma SamplePercentilesCalculator_init_Raise tid axes ns e w w' :
  SamplePercentilesCalculator.__init__ tid axes ns w = (Raise e, w') ->
  e = AssertionError.
Proof.
  unfold SamplePercentilesCalculator.__init__. intros H.
  apply bind_Raise in H as [H|(u & w1 & _ & H)].
  - by apply assert_Raise in H as [-> _].
  - by apply ret_Raise in H.
Qed.

Lemma DatasetPercentilesCalculator_Raise env tid axes ns e w w' :
  DatasetPercentilesCalculator env tid axes ns w = (Raise e, w') ->
  e = AssertionError.
Proof.
  unfold DatasetPercentilesCalculator, CrickPercentilesCalculator.__init__,
    MeanPercentilesCalculator.__init__.
  intros H. destruct (crick_available env).
  all: repeat match goal with
         | H : (_ ≫= _) _ = (Raise _, _) |- _ =>
             apply bind_Raise in H as [H|(? & ? & _ & H)]
         | H : assert_ _ _ = (Raise _, _) |- _ =>
             by apply assert_Raise in H as [-> _]
         | H : mret _ _ = (Raise _, _) |- _ => by apply ret_Raise in H
         | H : warn _ _ = (Raise _, _) |- _ => by unfold warn in H
         end.
Qed.

(** the planner fails with a failed assertion only *)
Lemma get_measure_calculators_Raise env measures e w w' :
  get_measure_calculators env measures w = (Raise e, w') ->
  e = AssertionError.
Proof.
  unfold get_measure_calculators. intros H.
  apply bind_Raise in H as [H|(r & w1 & _ & H)].
  { destruct (split_loop_Ok measures (mkRequired ∅ ∅ ∅ ∅ ∅ ∅) w) as [r Hr].
    by rewrite Hr in H. }
  cbv zeta in H.
  apply bind_Raise in H as [H|(sc & w2 & _ & H)].
  { eapply for_each_Raise in H; [done|].
    intros [[tid axes] ns] cs wa wb e' Hb.
    apply bind_Raise in Hb as [Hb|(? & ? & _ & Hb)].
    - by eapply SamplePercentilesCalculator_init_Raise.
    - by apply ret_Raise in Hb. }
  apply bind_Raise in H as [H|(dc & w3 & _ & H)].
  { eapply for_each_Raise in H; [done|].
    intros [[tid axes] ns] cs wa wb e' Hb.
    apply bind_Raise in Hb as [Hb|(? & ? & _ & Hb)].
    - by eapply DatasetPercentilesCalculator_Raise.
    - by apply ret_Raise in Hb. }
  by apply ret_Raise in H.
Qed.

Lemma split_loop_dataset_only measures r0 w r w' :
  Forall (fun m => is_dataset_measure m = true) measures ->
  for_each measures split_measure r0 w = (Ok r, w') ->
  required_sample_means r = required_sample_means r0
  /\ required_sample_mean_var_std r = required_sample_mean_var_std r0
  /\ required_sample_percentiles r = required_sample_percentiles r0.
Proof.
  intros Hall. eapply (for_each_inv_elem
    (fun r => required_sample_means r = required_sample_means r0
              /\ required_sample_mean_var_std r
                 = required_sample_mean_var_std r0
              /\ required_sample_percentiles r
                 = required_sample_percentiles r0)); [done|].
  intros m s wa s' wb Hm (H1 & H2 & H3) Hb.
  rewrite Forall_forall in Hall. specialize (Hall m Hm).
  destruct m; try done; cbn [split_measure] in Hb; py_inv; by subst.
Qed.

Lemma split_loop_sample_only measures r0 w r w' :
  Forall (fun m => is_dataset_measure m = false) measures ->
  for_each measures split_measure r0 w = (Ok r, w') ->
  required_dataset_means r = required_dataset_means r0
  /\ required_dataset_mean_var_std r = required_dataset_mean_var_std r0
  /\ required_dataset_percentiles r = required_dataset_percentiles r0.
Proof.
  intros Hall. eapply (for_each_inv_elem
    (fun r => required_dataset_means r = required_dataset_means r0
              /\ required_dataset_mean_var_std r
                 = required_dataset_mean_var_std r0
              /\ required_dataset_percentiles r
                 = required_dataset_percentiles r0)); [done|].
  intros m s wa s' wb Hm (H1 & H2 & H3) Hb.
  rewrite Forall_forall in Hall. specialize (Hall m Hm).
  destruct m; try done; cbn [split_measure] in Hb; py_inv; by subst.
Qed.

Lemma planner_empty_iff env measures sc dc w w' :
  get_measure_calculators env measures w = (Ok (sc, dc), w') ->
  (sc = [] <-> Forall (fun m => is_dataset_measure m = true) measures)
  /\ (dc = [] <-> Forall (fun m => is_dataset_measure m = false) measures).
Proof.
  intros H. split; split.
  - intros ->. apply Forall_forall. intros m Hm.
    pose proof (planner_serves _ _ _ _ _ _ m H Hm) as Hs.
    destruct (is_dataset_measure m); [done|].
    destruct Hs as (calc & Hin & _). by apply elem_of_nil in Hin.
  - intros Hall.
    destruct (get_measure_calculators_inv _ _ _ _ _ _ H)
      as (r & ps & pd & Hr & -> & Hps & _ & _).
    destruct (split_loop_dataset_only _ _ _ _ _ Hall Hr) as (H1 & H2 & H3).
    cbn in H1, H2, H3. rewrite H1, H2, H3 in *.
    rewrite elements_empty, map_to_list_empty in *.
    by apply Forall2_nil_inv_l in Hps as ->.
  - intros ->. apply Forall_forall. intros m Hm.
    pose proof (planner_serves _ _ _ _ _ _ m H Hm) as Hs.
    destruct (is_dataset_measure m); [|done].
    destruct Hs as (calc & Hin & _). by apply elem_of_nil in Hin.
  - intros Hall.
    destruct (get_measure_calculators_inv _ _ _ _ _ _ H)
      as (r & ps & pd & Hr & _ & _ & -> & Hpd).
    destruct (split_loop_sample_only _ _ _ _ _ Hall Hr) as (H1 & H2 & H3).
    cbn in H1, H2, H3. rewrite H1, H2, H3 in *.
    rewrite elements_empty, map_to_list_empty in *.
    by apply Forall2_nil_inv_l in Hpd as ->.
Qed.

(** X4: the planner creates sample calculators for sample measures only and
    dataset calculators for dataset measures only: when it returns, the list
    of sample calculators is empty exactly when the request holds no sample
    measure, and the list of dataset calculators is empty exactly when it
    holds no dataset measure. *)
Theorem get_measure_calculators_empty_iff env measures sc dc w w' :
  get_measure_calculators env measures w = (Ok (sc, dc), w') ->
  (sc = [] <-> Forall (fun m => is_dataset_measure m = true) measures)
  /\ (dc = [] <-> Forall (fun m => is_dataset_measure m = false) measures).
Proof. apply planner_empty_iff. Qed.

(** ** The one-shot functions *)

Lemma is_empty_true {A} (l : list A) : is_empty l = true <-> l = [].
Proof. by destruct l. Qed.

Lemma is_empty_false {A} (l : list A) : is_empty l = false <-> l <> [].
Proof. by destruct l. Qed.

(** X5: [compute_dataset_measures] accepts dataset measures only: with a
    sample measure among [measures] it raises [AssertionError], whatever the
    dataset, and before any sample is read. *)
Theorem compute_dataset_measures_sample_measure env measures dataset m w :
  m ∈ measures ->
  is_dataset_measure m = false ->
  exists w', compute_dataset_measures env measures dataset w
             = (Raise AssertionError, w').
Proof.
  intros Hm Hs. unfold compute_dataset_measures. rewrite run_bind.
  destruct (get_measure_calculators env measures w) as [[[sc dc]|e] w1] eqn:Hp.
  - destruct (planner_empty_iff _ _ _ _ _ _ Hp) as [[Hsc _] _].
    assert (is_empty sc = false) as Hne.
    { apply is_empty_false. intros H%Hsc.
      rewrite Forall_forall in H. specialize (H m Hm). congruence. }
    rewrite run_bind, Hne. by eexists.
  - apply get_measure_calculators_Raise in Hp as ->. by eexists.
Qed.

(** X6: [compute_sample_measures] accepts sample measures only: with a
    dataset measure among [measures] it raises [AssertionError]. *)
Theorem compute_sample_measures_dataset_measure env measures sample m w :
  m ∈ measures ->
  is_dataset_measure m = true ->
  exists w', compute_sample_measures env measures sample w
             = (Raise AssertionError, w').
Proof.
  intros Hm Hs. unfold compute_sample_measures. rewrite run_bind.
  destruct (get_measure_calculators env measures w) as [[[sc dc]|e] w1] eqn:Hp.
  - destruct (planner_empty_iff _ _ _ _ _ _ Hp) as [_ [Hdc _]].
    assert (is_empty dc = false) as Hne.
    { apply is_empty_false. intros H%Hdc.
      rewrite Forall_forall in H. specialize (H m Hm). congruence. }
    rewrite run_bind, Hne. by eexists.
  - apply get_measure_calculators_Raise in Hp as ->. by eexists.
Qed.

(** X7: on an empty dataset [compute_dataset_measures] returns the empty
    dictionary, with no entry for any requested measure, where
    [compute_measures] raises [ValueError]. *)
Theorem compute_measures_empty_dataset env measures cs w w1 :
  get_measure_calculators env measures w = (Ok cs, w1) ->
  compute_measures env measures [] w = (Raise ValueError, w1)
  /\ (Forall (fun m => is_dataset_measure m = true) measures ->
      compute_dataset_measures env measures [] w = (Ok ∅, w1)).
Proof.
  intros Hp. destruct cs as [sc dc]. split.
  - unfold compute_measures. by rewrite run_bind, Hp.
  - intros Hall. unfold compute_dataset_measures. rewrite run_bind, Hp.
    destruct (planner_empty_iff _ _ _ _ _ _ Hp) as [[_ Hsc] _].
    rewrite (Hsc Hall). cbn [is_empty]. rewrite run_bind. cbn [assert_].
    rewrite run_ret. cbn [for_each]. rewrite run_bind, run_ret.
    apply finalize_calculators_fresh.
    by eapply get_measure_calculators_fresh.
Qed.

Lemma update_loop_pair env (l : list Sample) x0 dc0 w :
  for_each l
    (fun s '(_, dc) =>
       dc' ← for_each dc
               (fun calc done => calc' ← calc_update env calc s;
                                 mret (done ++ [calc'])) [];
       mret (Some s, dc'))
    (x0, dc0) w
  = match for_each l (update_calculators env) dc0 w with
    | (Ok dc, w') =>
        (Ok (match last l with Some s => Some s | None => x0 end, dc), w')
    | (Raise e, w') => (Raise e, w')
    end.
Proof.
  revert x0 dc0 w. induction l as [|s l IH]; intros x0 dc0 w.
  - cbn [for_each last]. by rewrite !run_ret.
  - cbn [for_each]. rewrite !run_bind. unfold update_calculators at 1.
    destruct (for_each dc0 _ [] w) as [[dc1|e] w1]; [|done].
    rewrite run_ret, IH.
    destruct (for_each l (update_calculators env) dc1 w1) as [[dc2|e] w2];
      [|done].
    destruct l as [|s' l]; [done|]. cbn [last].
    destruct (last (s' :: l)) eqn:Hl; [done|]. by apply last_None in Hl.
Qed.

(** X8: for dataset measures [compute_dataset_measures] is the coordinator
    used once: it gives the outcome (value, error and warnings) of building a
    [StatsCalculator] for [measures], updating it with the whole dataset and
    finalizing it. *)
Theorem compute_dataset_measures_StatsCalculator env measures dataset w :
  compute_dataset_measures env measures dataset w
  = (st ← StatsCalculator.__init__ env measures None;
     assert_ (is_empty (StatsCalculator.sample_calculators st));;
     st ← StatsCalculator.update env st (StatsCalculator.Samples dataset);
     '(d, _) ← StatsCalculator.finalize env st;
     mret d) w.
Proof.
  unfold compute_dataset_measures, StatsCalculator.__init__.
  rewrite !run_bind.
  destruct (get_measure_calculators env measures w) as [[[sc dc]|e] w1];
    [|done].
  rewrite run_ret, !run_bind. cbn [StatsCalculator.sample_calculators].
  destruct (assert_ (is_empty sc) w1) as [[u|e] w2]; [|done].
  rewrite !run_bind. unfold StatsCalculator.update, StatsCalculator._update.
  rewrite !run_bind. cbn [StatsCalculator.dataset_calculators].
  rewrite update_loop_pair.
  destruct (for_each dataset (update_calculators env) dc w2)
    as [[dc'|e] w3]; [|done].
  rewrite !run_ret, run_bind. unfold StatsCalculator.finalize.
  cbn [StatsCalculator._current_dataset_measures
       StatsCalculator.dataset_calculators].
  rewrite run_bind.
  destruct (for_each dc' _ ∅ w3) as [[d|e] w4]; [|done].
  by rewrite !run_ret.
Qed.

(** ** The keys of the calculators' results *)

Lemma dict_zip_foldl_Some {K} `{Countable K} {V} (ks : list K) (vs : list V)
    (acc : gmap K V) k :
  is_Some (foldl (fun d kv => <[kv.1 := kv.2]> d) acc (zip ks vs) !! k) ->
  k ∈ ks \/ is_Some (acc !! k).
Proof.
  revert vs acc. induction ks as [|k0 ks IH]; intros [|v vs] acc; cbn;
    try by right.
  intros [Hk|Hk]%IH.
  - left. by right.
  - destruct (decide (k0 = k)) as [->|Hne].
    + left. by left.
    + right. by rewrite lookup_insert_ne in Hk.
Qed.

Lemma dict_zip_Some {K} `{Countable K} {V} (ks : list K) (vs : list V) k :
  is_Some (dict_zip ks vs !! k) -> k ∈ ks.
Proof.
  intros [Hk|Hk]%dict_zip_foldl_Some; [done|].
  rewrite lookup_empty in Hk. by destruct Hk.
Qed.

Lemma dict_zip_dom {K} `{Countable K} {V} (ks : list K) (vs : list V) :
  length ks = length vs ->
  dom (dict_zip ks vs) = list_to_set ks.
Proof.
  intros Hlen. apply set_eq. intros k.
  rewrite elem_of_dom, elem_of_list_to_set. split.
  - apply dict_zip_Some.
  - intros Hk. destruct (dict_zip_lookup ks vs k Hlen Hk)
      as (i & v & _ & _ & Hv). by eexists.
Qed.

Lemma quantile_Ok qs axes t r w w' :
  quantile qs axes t w = (Ok r, w') ->
  hd 0 (shape r) = length qs /\ w' = w.
Proof.
  unfold quantile. destruct (forallb valid_q qs); [|done].
  intros H. apply bind_Ok in H as (u & w1 & Hc & H).
  destruct (bool_decide (dtype t = bool_)); [done|].
  apply ret_Ok in H as [<- <-]. split; [done|].
  revert Hc. unfold check_dims.
  destruct axes as [l|]; [destruct (forallb _ l)|]; py_unfold; congruence.
Qed.

Lemma sample_calculator_dom env calc s d w w' :
  wf_sample_calculator calc ->
  calc_compute env calc s w = (Ok d, w') ->
  dom d = list_to_set (sample_calculator_measures calc).
Proof.
  intros Hwf H. destruct calc as [c|c|c]; cbn [calc_compute] in H.
  - unfold MeanCalculator.compute in H. py_inv. subst.
    cbn [sample_calculator_measures list_to_set].
    rewrite dom_singleton_L. set_solver.
  - unfold MeanVarStdCalculator.compute in H.
    repeat match goal with
           | H : (_ ≫= _) _ = (Ok _, _) |- _ =>
               apply bind_Ok in H as (? & ? & _ & H)
           end.
    apply ret_Ok in H as [<- _].
    cbn [sample_calculator_measures list_to_set fmap list_fmap].
    rewrite !dom_insert_L, dom_singleton_L. set_solver.
  - unfold SamplePercentilesCalculator.compute in H.
    apply bind_Ok in H as (t & w1 & _ & H).
    apply bind_Ok in H as (ps & w2 & Hq & H).
    apply ret_Ok in H as [<- _].
    apply quantile_Ok in Hq as [Hq _].
    cbn [sample_calculator_measures]. apply dict_zip_dom.
    rewrite length_fmap, iter_first_length, Hq. by symmetry.
Qed.

(** X9: when [compute] of a sample calculator returns, the keys of its
    result are exactly the measures the calculator stands for, all of them
    sample measures of the calculator's tensor and axes. *)
Theorem calc_compute_dom env calc s d w w' :
  wf_sample_calculator calc ->
  calc_compute env calc s w = (Ok d, w') ->
  dom d = list_to_set (sample_calculator_measures calc).
Proof. apply sample_calculator_dom. Qed.

(** ** Computations without warnings *)

Lemma silent_ret {A} (a : A) : silent (mret a : Py A).
Proof. by exists (Ok a). Qed.

Lemma silent_raise {A} e : silent (raise e : Py A).
Proof. by exists (Raise e). Qed.

Lemma silent_assert b : silent (assert_ b).
Proof. unfold assert_. destruct b; [apply silent_ret|apply silent_raise]. Qed.

Lemma silent_bind {A B} (c : Py A) (k : A -> Py B) :
  silent c -> (forall a, silent (k a)) -> silent (c ≫= k).
Proof.
  intros [[a|e] Hc] Hk.
  - destruct (Hk a) as [r Hr]. exists r. intros w. by rewrite run_bind, Hc.
  - exists (Raise e). intros w. by rewrite run_bind, Hc.
Qed.

Lemma silent_for_each {A S} (l : list A) (body : A -> S -> Py S) s :
  (forall x s, silent (body x s)) -> silent (for_each l body s).
Proof.
  intros Hb. revert s. induction l as [|x l IH]; intros s; cbn [for_each].
  - apply silent_ret.
  - apply silent_bind; [apply Hb|apply IH].
Qed.

Lemma silent_getitem s tid : silent (getitem s tid).
Proof.
  unfold getitem. destruct (data s !! tid); [apply silent_ret|apply silent_raise].
Qed.

Lemma silent_check_axes axes t : silent (check_axes axes t).
Proof.
  unfold check_axes.
  destruct axes as [l|]; [destruct (forallb _ l && bool_decide _)|];
    first [apply silent_ret|apply silent_raise].
Qed.

Lemma silent_check_dims axes t : silent (check_dims axes t).
Proof.
  unfold check_dims. destruct axes as [l|]; [destruct (forallb _ l)|];
    first [apply silent_ret|apply silent_raise].
Qed.

Lemma silent_reduce op dt axes t : silent (reduce op dt axes t).
Proof.
  unfold reduce. apply silent_bind; [apply silent_check_axes|].
  intros. apply silent_ret.
Qed.

Lemma silent_binop f a b : silent (binop f a b).
Proof.
  unfold binop. destruct (sizes_agree a b); [apply silent_ret|apply silent_raise].
Qed.

Lemma silent_quantile qs axes t : silent (quantile qs axes t).
Proof.
  unfold quantile. destruct (forallb valid_q qs); [|apply silent_raise].
  apply silent_bind; [apply silent_check_dims|]. intros.
  destruct (bool_decide (dtype t = bool_));
    [apply silent_raise|apply silent_ret].
Qed.

Ltac silent_steps :=
  repeat first
    [ apply silent_ret | apply silent_raise | apply silent_assert
    | apply silent_getitem | apply silent_reduce | apply silent_binop
    | apply silent_quantile | apply silent_check_axes
    | apply silent_check_dims
    | apply silent_bind; [|intros]
    | apply silent_for_each; intros
    | match goal with
      | |- silent (match ?x with _ => _ end) => destruct x
      end ].

Lemma silent_calc_compute env calc s : silent (calc_compute env calc s).
Proof.
  destruct calc as [c|c|c]; cbn [calc_compute].
  - unfold MeanCalculator.compute, MeanCalculator._compute_impl, mean.
    silent_steps.
  - unfold MeanVarStdCalculator.compute, mean, sum. silent_steps.
  - unfold SamplePercentilesCalculator.compute. silent_steps.
Qed.

(** the sample measures of one sample: the loop of [_compute] *)
Lemma silent_compute_loop env sc s d0 :
  silent (for_each sc
            (fun calc ret => values ← calc_compute env calc s;
                             mret (dict_update ret values)) d0).
Proof.
  apply silent_for_each. intros calc ret. apply silent_bind.
  - apply silent_calc_compute.
  - intros. apply silent_ret.
Qed.

Lemma silent_Ok {A} (c : Py A) a w w' :
  silent c -> c w = (Ok a, w') -> w' = w /\ forall w0, c w0 = (Ok a, w0).
Proof.
  intros [r Hr] H. rewrite Hr in H. injection H as -> ->.
  split; [done|]. intros w0. apply Hr.
Qed.

Lemma merge_loop_init {A} (F : A -> Py (gmap Measure DataArray)) l d0 w :
  for_each l (fun x ret => values ← F x; mret (dict_update ret values)) d0 w
  = match for_each l (fun x ret => values ← F x;
                                   mret (dict_update ret values)) ∅ w with
    | (Ok y, w') => (Ok (y ∪ d0), w')
    | (Raise e, w') => (Raise e, w')
    end.
Proof.
  revert d0 w. induction l as [|x l IH]; intros d0 w; cbn [for_each].
  - rewrite !run_ret. by rewrite (left_id_L ∅ (∪)).
  - rewrite !run_bind. destruct (F x w) as [[v|e] w1]; [|done].
    rewrite !run_ret. rewrite (IH (dict_update d0 v)), (IH (dict_update ∅ v)).
    destruct (for_each l _ ∅ w1) as [[y|e] w2]; [|done].
    unfold dict_update. by rewrite (right_id_L ∅ (∪)), (assoc_L (∪)).
Qed.

Lemma merge_loop_keys {A} (P : Measure -> Prop)
    (F : A -> Py (gmap Measure DataArray)) l d0 d w w' :
  (forall x v w w' m, x ∈ l -> F x w = (Ok v, w') -> is_Some (v !! m) -> P m) ->
  (forall m, is_Some (d0 !! m) -> P m) ->
  for_each l (fun x ret => values ← F x; mret (dict_update ret values)) d0 w
  = (Ok d, w') ->
  forall m, is_Some (d !! m) -> P m.
Proof.
  intros HF H0. apply (for_each_inv_elem (fun d => forall m, is_Some (d !! m) -> P m));
    [done|].
  intros x s wa s' wb Hx Hs Hb m Hm. py_inv. subst. unfold dict_update in Hm.
  apply lookup_union_is_Some in Hm as [Hm|Hm]; eauto.
Qed.

Lemma calc_compute_keys env calc s d w w' m :
  calc_compute env calc s w = (Ok d, w') ->
  is_Some (d !! m) -> is_dataset_measure m = false.
Proof.
  intros H Hm. destruct calc as [c|c|c]; cbn [calc_compute] in H.
  - unfold MeanCalculator.compute in H. py_inv. subst.
    apply lookup_singleton_is_Some in Hm as <-. done.
  - unfold MeanVarStdCalculator.compute in H.
    repeat match goal with
           | H : (_ ≫= _) _ = (Ok _, _) |- _ =>
               apply bind_Ok in H as (? & ? & _ & H)
           end.
    apply ret_Ok in H as [<- _].
    rewrite !lookup_insert_is_Some, lookup_singleton_is_Some in Hm.
    by destruct Hm as [<-|[_ [<-|[_ <-]]]].
  - unfold SamplePercentilesCalculator.compute in H.
    repeat match goal with
           | H : (_ ≫= _) _ = (Ok _, _) |- _ =>
               apply bind_Ok in H as (? & ? & _ & H)
           end.
    apply ret_Ok in H as [<- _]. apply dict_zip_Some in Hm.
    by apply list_elem_of_fmap in Hm as (n & -> & _).
Qed.

Lemma calc_finalize_keys env calc d w w' m :
  calc_finalize env calc w = (Ok d, w') ->
  is_Some (d !! m) -> m ∈ dataset_calculator_measures calc.
Proof.
  intros H Hm. destruct calc as [c|c|c|c]; cbn [calc_finalize] in H.
  - apply ret_Ok in H as [<- _]. unfold MeanCalculator.finalize in Hm.
    destruct (MeanCalculator._mean c).
    + apply lookup_singleton_is_Some in Hm as <-. by left.
    + rewrite lookup_empty in Hm. by destruct Hm.
  - unfold MeanVarStdCalculator.finalize in H.
    destruct (MeanVarStdCalculator._mean c).
    + destruct (MeanVarStdCalculator._m2 c); [|done].
      apply ret_Ok in H as [<- _].
      rewrite !lookup_insert_is_Some, lookup_singleton_is_Some in Hm.
      cbn. set_solver.
    + apply ret_Ok in H as [<- _]. rewrite lookup_empty in Hm. by destruct Hm.
  - unfold MeanPercentilesCalculator.finalize in H.
    destruct (MeanPercentilesCalculator._estimates c).
    + py_inv. subst. by apply dict_zip_Some in Hm.
    + apply ret_Ok in H as [<- _]. rewrite lookup_empty in Hm. by destruct Hm.
  - unfold CrickPercentilesCalculator.finalize in H.
    destruct (CrickPercentilesCalculator._digest c).
    + destruct (CrickPercentilesCalculator._dims c); [|done].
      destruct (CrickPercentilesCalculator._shape c); [|done].
      destruct (bool_decide _); [|done].
      apply ret_Ok in H as [<- _]. by apply dict_zip_Some in Hm.
    + apply ret_Ok in H as [<- _]. rewrite lookup_empty in Hm. by destruct Hm.
Qed.

Lemma dataset_calculator_measures_dataset calc m :
  m ∈ dataset_calculator_measures calc -> is_dataset_measure m = true.
Proof.
  destruct calc as [c|c|c|c]; cbn.
  - by intros ->%list_elem_of_singleton.
  - rewrite !elem_of_cons, elem_of_nil. by intros [->|[->|[->|[]]]].
  - by intros (n & -> & _)%list_elem_of_fmap.
  - by intros (n & -> & _)%list_elem_of_fmap.
Qed.

(** the results of [_compute] and of the finalizing loop have no key in
    common *)
Lemma sample_dataset_disjoint env sc dc s sm dm w1 w1' w2 w2' :
  for_each sc (fun calc ret => values ← calc_compute env calc s;
                               mret (dict_update ret values)) ∅ w1
  = (Ok sm, w1') ->
  for_each dc (fun calc ret => values ← calc_finalize env calc;
                               mret (dict_update ret values)) ∅ w2
  = (Ok dm, w2') ->
  sm ##ₘ dm.
Proof.
  intros Hs Hd. apply map_disjoint_spec. intros m x y Hx Hy.
  assert (is_dataset_measure m = false) as Hf.
  { refine (merge_loop_keys (fun m => is_dataset_measure m = false)
              _ _ _ _ _ _ _ _ Hs m _).
    - intros calc v wa wb m' _ Hc Hm'. by eapply calc_compute_keys.
    - intros m' Hm'. rewrite lookup_empty in Hm'. by destruct Hm'.
    - by eexists. }
  assert (is_dataset_measure m = true) as Ht.
  { refine (merge_loop_keys (fun m => is_dataset_measure m = true)
              _ _ _ _ _ _ _ _ Hd m _).
    - intros calc v wa wb m' _ Hc Hm'.
      eapply dataset_calculator_measures_dataset, calc_finalize_keys; eauto.
    - intros m' Hm'. rewrite lookup_empty in Hm'. by destruct Hm'.
    - by eexists. }
  congruence.
Qed.

(** X10: [compute_measures] returns exactly when a new [StatsCalculator] for
    the same measures returns from [update_and_get_all] on the whole
    dataset, and then with the same dictionary and the same warnings:
    the two orders of merging sample and dataset measures agree because no
    key is both a sample and a dataset measure. *)
Theorem compute_measures_update_and_get_all env measures dataset d w w' :
  compute_measures env measures dataset w = (Ok d, w')
  <-> (st ← StatsCalculator.__init__ env measures None;
       '(d, _) ← StatsCalculator.update_and_get_all env st
                   (StatsCalculator.Samples dataset);
       mret d) w = (Ok d, w').
Proof.
  unfold compute_measures, StatsCalculator.__init__,
    StatsCalculator.update_and_get_all, StatsCalculator._update.
  rewrite !run_bind.
  destruct (get_measure_calculators env measures w) as [[[sc dc]|e] w1];
    [|done].
  rewrite run_ret, !run_bind. cbn [StatsCalculator.dataset_calculators].
  unfold update_calculators. rewrite update_loop_pair.
  destruct (for_each dataset (update_calculators env) dc w1)
    as [[dc'|e] w2]; [|done].
  rewrite run_ret. cbv beta iota.
  destruct (last dataset) as [s|]; [|done].
  unfold StatsCalculator._compute, StatsCalculator.finalize.
  cbn [StatsCalculator.sample_calculators StatsCalculator.dataset_calculators
       StatsCalculator._current_dataset_measures].
  rewrite !run_bind.
  set (F := for_each dc' _ ∅).
  destruct (silent_compute_loop env sc s ∅) as [rs Hrs].
  destruct (F w2) as [[dm|e] w3] eqn:HF.
  - rewrite merge_loop_init, !Hrs. destruct rs as [sm|e]; [|done].
    rewrite !run_bind, HF, !run_ret. cbv beta iota. rewrite ?run_ret.
    assert (sm ##ₘ dm) as Hdisj.
    { eapply (sample_dataset_disjoint env sc dc' s sm dm w2 w2 w2 w3);
        [apply Hrs|exact HF]. }
    by rewrite (map_union_comm sm dm).
  - rewrite Hrs. destruct rs as [sm|e']; [|done].
    by rewrite !run_bind, HF.
Qed.

(** X11: for sample measures [compute_sample_measures] gives the outcome of
    [skip_update_and_get_all] on a new [StatsCalculator]: with no dataset
    calculator there is nothing to finalize. *)
Theorem compute_sample_measures_StatsCalculator env measures sample w :
  compute_sample_measures env measures sample w
  = (st ← StatsCalculator.__init__ env measures None;
     assert_ (is_empty (StatsCalculator.dataset_calculators st));;
     '(d, _) ← StatsCalculator.skip_update_and_get_all env st sample;
     mret d) w.
Proof.
  unfold compute_sample_measures, StatsCalculator.__init__,
    StatsCalculator.skip_update_and_get_all.
  rewrite !run_bind.
  destruct (get_measure_calculators env measures w) as [[[sc dc]|e] w1];
    [|done].
  rewrite run_ret, !run_bind. cbn [StatsCalculator.dataset_calculators].
  destruct dc as [|calc dc]; cbn [is_empty assert_]; [|done].
  rewrite ?run_ret, ?run_bind.
  unfold StatsCalculator._compute, StatsCalculator.finalize.
  cbn [StatsCalculator.sample_calculators StatsCalculator.dataset_calculators
       StatsCalculator._current_dataset_measures for_each].
  destruct (for_each sc _ ∅ w1) as [[sm|e] w2]; [|done].
  rewrite ?run_bind, ?run_ret. cbv beta iota. rewrite ?run_ret.
  by rewrite (left_id_L ∅ (∪)).
Qed.

(** ** The properties on the examples *)

Lemma ex_planned_Ok :
  get_measure_calculators ex_env ex_measures [] = (Ok ex_planned, []).
Proof. vm_compute. reflexivity. Qed.

Lemma get_measure_calculators_serves_witness :
  exists calc, calc ∈ ex_planned.1
               /\ sample_calculator_serves calc (SampleMean "raw" None).
Proof.
  apply (get_measure_calculators_serves ex_env ex_measures ex_planned.1
           ex_planned.2 [] [] (SampleMean "raw" None)).
  - exact ex_planned_Ok.
  - apply list_elem_of_further, list_elem_of_here.
Defined.

Lemma get_measure_calculators_empty_iff_witness :
  (ex_planned.1 = []
   <-> Forall (fun m => is_dataset_measure m = true) ex_measures)
  /\ (ex_planned.2 = []
      <-> Forall (fun m => is_dataset_measure m = false) ex_measures).
Proof.
  apply (get_measure_calculators_empty_iff ex_env ex_measures ex_planned.1
           ex_planned.2 [] []).
  exact ex_planned_Ok.
Defined.

Lemma compute_dataset_measures_sample_measure_witness :
  exists w', compute_dataset_measures ex_env ex_measures [ex_sample] []
             = (Raise AssertionError, w').
Proof.
  apply (compute_dataset_measures_sample_measure ex_env ex_measures
           [ex_sample] (SampleMean "raw" None) []).
  - apply list_elem_of_further, list_elem_of_here.
  - reflexivity.
Defined.

Lemma compute_sample_measures_dataset_measure_witness :
  exists w', compute_sample_measures ex_env ex_measures ex_sample []
             = (Raise AssertionError, w').
Proof.
  apply (compute_sample_measures_dataset_measure ex_env ex_measures
           ex_sample (DatasetMean "raw" None) []).
  - apply list_elem_of_here.
  - reflexivity.
Defined.

Lemma compute_measures_empty_dataset_witness :
  compute_measures ex_env ex_measures [] [] = (Raise ValueError, [])
  /\ (Forall (fun m => is_dataset_measure m = true) ex_measures ->
      compute_dataset_measures ex_env ex_measures [] [] = (Ok ∅, [])).
Proof.
  apply (compute_measures_empty_dataset ex_env ex_measures ex_planned [] []).
  exact ex_planned_Ok.
Defined.

Lemma ex_compute_mean : exists d,
  calc_compute ex_env (SC_Mean (MeanCalculator.__init__ "raw" None))
    ex_sample [] = (Ok d, []).
Proof.
  cbn [calc_compute]. unfold MeanCalculator.compute.
  generalize (@singletonM Measure DataArray (gmap Measure DataArray) _).
  intros sing. eexists. vm_compute. exact eq_refl.
Qed.

Lemma calc_compute_dom_witness :
  exists d,
    calc_compute ex_env (SC_Mean (MeanCalculator.__init__ "raw" None))
      ex_sample [] = (Ok d, [])
    /\ dom d = list_to_set (sample_calculator_measures
                              (SC_Mean (MeanCalculator.__init__ "raw" None))).
Proof.
  destruct ex_compute_mean as [d Hd]. exists d. split; [exact Hd|].
  apply (calc_compute_dom ex_env (SC_Mean (MeanCalculator.__init__ "raw" None))
           ex_sample d [] []).
  - exact I.
  - exact Hd.
Defined.

(** ** The coordinator's calls compose *)

Lemma for_each_app {A S} (l1 l2 : list A) (body : A -> S -> Py S) s w :
  for_each (l1 ++ l2) body s w
  = (s1 ← for_each l1 body s; for_each l2 body s1) w.
Proof.
  revert s w. induction l1 as [|x l1 IH]; intros s w; cbn [for_each app].
  - by rewrite run_bind, run_ret.
  - rewrite !run_bind. destruct (body x s w) as [[s1|e] w1]; [|done].
    by rewrite IH, run_bind.
Qed.

Lemma for_each_Ok_elem {A S} (l : list A) (body : A -> S -> Py S) s w s' w' x :
  for_each l body s w = (Ok s', w') -> x ∈ l ->
  exists s0 w0 s1 w1, body x s0 w0 = (Ok s1, w1).
Proof.
  revert s w. induction l as [|y l IH]; intros s w H Hx;
    [by apply elem_of_nil in Hx|].
  cbn [for_each] in H. apply bind_Ok in H as (s1 & w1 & Hb & H).
  apply elem_of_cons in Hx as [->|Hx]; eauto 6.
Qed.

(** *** The result of [update_and_get_all] *)

Lemma merge_loop_inv {A} (F : A -> Py (gmap Measure DataArray)) l d0 d w w' :
  for_each l (fun x ret => values ← F x; mret (dict_update ret values)) d0 w
  = (Ok d, w') ->
  exists vs,
    Forall2 (fun x v => exists wa wb, F x wa = (Ok v, wb)) l vs
    /\ d = foldl dict_update d0 vs.
Proof.
  revert d0 w. induction l as [|x l IH]; intros d0 w H; cbn [for_each] in H.
  - apply ret_Ok in H as [<- _]. exists []. split; [constructor|done].
  - apply bind_Ok in H as (d1 & w1 & Hb & H).
    apply bind_Ok in Hb as (v & w2 & Hv & Hb).
    apply ret_Ok in Hb as [<- <-].
    destruct (IH _ _ H) as (vs & Hvs & ->).
    exists (v :: vs). split; [constructor; eauto|done].
Qed.

Lemma merge_loop_silent {A} (F : A -> Py (gmap Measure DataArray)) l vs d0 w :
  Forall2 (fun x v => forall w0, F x w0 = (Ok v, w0)) l vs ->
  for_each l (fun x ret => values ← F x; mret (dict_update ret values)) d0 w
  = (Ok (foldl dict_update d0 vs), w).
Proof.
  intros H. revert d0. induction H as [|x v l vs Hv _ IH]; intros d0.
  - reflexivity.
  - cbn [for_each foldl]. rewrite !run_bind, Hv, run_ret. apply IH.
Qed.

Lemma last_sample_samples sample :
  last_sample sample = last (samples_of sample).
Proof. by destruct sample. Qed.

Lemma StatsCalculator_update_run env st sample w :
  StatsCalculator._update env st sample w
  = match for_each (samples_of sample) (update_calculators env)
            (StatsCalculator.dataset_calculators st) w with
    | (Ok dc, w') =>
        (Ok (last_sample sample,
             StatsCalculator.mk (StatsCalculator.sample_count st + 1)
               (StatsCalculator.sample_calculators st) dc None), w')
    | (Raise e, w') => (Raise e, w')
    end.
Proof.
  unfold StatsCalculator._update. rewrite run_bind, update_loop_pair.
  fold (samples_of sample).
  destruct (for_each (samples_of sample) _ _ w) as [[dc|e] w1]; [|done].
  rewrite run_ret, last_sample_samples. by destruct (last (samples_of sample)).
Qed.

(** C6: [update_and_get_all] on an iterable that yields nothing raises
    [ValueError], which is not the [AssertionError] of a broken contract.
    A call that returns was given at least one sample; its result is the
    dictionaries that [compute] of every sample calculator returns on the
    last sample yielded, merged in order, overridden by the dictionaries
    that [finalize] of every dataset calculator returns after the
    calculators were updated with every sample yielded, merged in order;
    that merge of dataset measures is cached and the sample count is one
    higher.  And the call does return, with this result, on a reachable
    coordinator whenever the argument yields a last sample, the updates of
    the dataset calculators return and every sample calculator computes on
    the last sample. *)
Theorem update_and_get_all_spec env st :
  (forall w,
      StatsCalculator.update_and_get_all env st (StatsCalculator.Samples []) w
      = (Raise ValueError, w))
  /\ ValueError <> AssertionError
  /\ (forall sample d st' w w',
        StatsCalculator.update_and_get_all env st sample w = (Ok (d, st'), w') ->
        exists lst dc w1 vs ms,
          last_sample sample = Some lst
          /\ for_each (samples_of sample) (update_calculators env)
               (StatsCalculator.dataset_calculators st) w = (Ok dc, w1)
          /\ Forall2 (fun calc v => forall w0,
                        calc_compute env calc lst w0 = (Ok v, w0))
               (StatsCalculator.sample_calculators st) vs
          /\ Forall2 (fun calc m => exists wa wb,
                        calc_finalize env calc wa = (Ok m, wb)) dc ms
          /\ d = foldl dict_update ∅ ms ∪ foldl dict_update ∅ vs
          /\ st' = StatsCalculator.mk (StatsCalculator.sample_count st + 1)
                     (StatsCalculator.sample_calculators st) dc
                     (Some (foldl dict_update ∅ ms)))
  /\ (forall sample lst dc vs w w1,
        reachable env st ->
        last_sample sample = Some lst ->
        for_each (samples_of sample) (update_calculators env)
          (StatsCalculator.dataset_calculators st) w = (Ok dc, w1) ->
        Forall2 (fun calc v => forall w0,
                   calc_compute env calc lst w0 = (Ok v, w0))
          (StatsCalculator.sample_calculators st) vs ->
        exists ms w',
          Forall2 (fun calc m => exists wa wb,
                     calc_finalize env calc wa = (Ok m, wb)) dc ms
          /\ StatsCalculator.update_and_get_all env st sample w
             = (Ok (foldl dict_update ∅ ms ∪ foldl dict_update ∅ vs,
                    StatsCalculator.mk (StatsCalculator.sample_count st + 1)
                      (StatsCalculator.sample_calculators st) dc
                      (Some (foldl dict_update ∅ ms))), w')).
Proof.
  split_and!.
  - reflexivity.
  - discriminate.
  - intros sample d st' w w' H. unfold StatsCalculator.update_and_get_all in H.
    apply bind_Ok in H as ([lst st1] & w1 & Hupd & H).
    rewrite StatsCalculator_update_run in Hupd.
    destruct (for_each (samples_of sample) _ _ w) as [[dc|e] w1'] eqn:Hloop;
      [|done].
    injection Hupd as <- <- <-.
    destruct (last_sample sample) as [lst|] eqn:Hlast; [|done].
    apply bind_Ok in H as (sm & w2 & Hsm & H).
    apply bind_Ok in H as ([dm st2] & w3 & Hfin & H).
    apply ret_Ok in H as [[= <- <-] <-].
    unfold StatsCalculator._compute in Hsm.
    unfold StatsCalculator.finalize in Hfin.
    cbn [StatsCalculator.sample_calculators StatsCalculator.dataset_calculators
         StatsCalculator._current_dataset_measures
         StatsCalculator.sample_count] in Hsm, Hfin.
    apply bind_Ok in Hfin as (dm' & w4 & Hfin & Hret).
    apply ret_Ok in Hret as [[= <- <-] <-].
    apply merge_loop_inv in Hsm as (vs & Hvs & ->).
    apply merge_loop_inv in Hfin as (ms & Hms & ->).
    exists lst, dc, w1', vs, ms. split_and!; try done.
    eapply Forall2_impl; [exact Hvs|]. cbv beta.
    intros calc v (wa & wb & Hv).
    by destruct (silent_Ok _ _ _ _ (silent_calc_compute env calc lst) Hv).
  - intros sample lst dc vs w w1 Hreach Hlast Hloop Hvs.
    assert (StatsCalculator._update env st sample w
            = (Ok (Some lst,
                   StatsCalculator.mk (StatsCalculator.sample_count st + 1)
                     (StatsCalculator.sample_calculators st) dc None), w1))
      as Hupd by (by rewrite StatsCalculator_update_run, Hloop, Hlast).
    pose proof (StatsCalculator_update_wf _ _ _ _ _ _ _
                  (reachable_wf _ _ Hreach) Hupd) as Hwf.
    destruct (finalize_calculators_total env dc ∅ w1 Hwf)
      as (ms & w' & Hfin & Hms).
    exists ms, w'. split; [done|].
    unfold StatsCalculator.update_and_get_all.
    rewrite run_bind, Hupd. cbv beta iota.
    unfold StatsCalculator._compute, StatsCalculator.finalize.
    cbn [StatsCalculator.sample_calculators StatsCalculator.dataset_calculators
         StatsCalculator._current_dataset_measures
         StatsCalculator.sample_count].
    rewrite run_bind, (merge_loop_silent _ _ _ _ _ Hvs).
    rewrite !run_bind, Hfin. reflexivity.
Qed.

Lemma ex_stats_fresh_reachable : reachable ex_env ex_stats_fresh.
Proof.
  apply (reach_init ex_env ex_measures None [] ex_stats_fresh []).
  vm_compute. reflexivity.
Defined.

Lemma update_and_get_all_spec_witness :
  exists ms w',
    Forall2 (fun calc m => exists wa wb,
               calc_finalize ex_env calc wa = (Ok m, wb))
      (StatsCalculator.dataset_calculators ex_stats_updated) ms
    /\ StatsCalculator.update_and_get_all ex_env ex_stats_fresh
         (StatsCalculator.OneSample ex_sample) []
       = (Ok (foldl dict_update ∅ ms ∪ foldl dict_update ∅ [ex_sample_mean],
              StatsCalculator.mk
                (StatsCalculator.sample_count ex_stats_fresh + 1)
                (StatsCalculator.sample_calculators ex_stats_fresh)
                (StatsCalculator.dataset_calculators ex_stats_updated)
                (Some (foldl dict_update ∅ ms))), w').
Proof.
  apply (proj2 (proj2 (proj2 (update_and_get_all_spec ex_env ex_stats_fresh)))
           (StatsCalculator.OneSample ex_sample) ex_sample
           (StatsCalculator.dataset_calculators ex_stats_updated)
           [ex_sample_mean] [] []).
  - exact ex_stats_fresh_reachable.
  - reflexivity.
  - vm_compute. reflexivity.
  - unfold ex_stats_fresh. cbn [StatsCalculator.sample_calculators].
    constructor; [|constructor]. intros w0.
    cbn [calc_compute]. unfold MeanCalculator.compute, ex_sample_mean.
    rewrite run_bind.
    replace (MeanCalculator._compute_impl _ ex_sample w0)
      with (Ok (mkDataArray [] [] float64 [(Qc_of_nat 3 / Qc_of_nat 2)%Qc]), w0).
    + reflexivity.
    + vm_compute. reflexivity.
Defined.

(** X12: [skip_update_and_get_all] leaves the sample count and every
    calculator as they were; it answers from the cached dataset measures
    when there are cached ones and caches what it finalized otherwise. *)
Theorem skip_update_and_get_all_frame env st s d st' w w' :
  StatsCalculator.skip_update_and_get_all env st s w = (Ok (d, st'), w') ->
  StatsCalculator.sample_count st' = StatsCalculator.sample_count st
  /\ StatsCalculator.dataset_calculators st'
     = StatsCalculator.dataset_calculators st
  /\ StatsCalculator.sample_calculators st'
     = StatsCalculator.sample_calculators st
  /\ exists dm sm,
       StatsCalculator._compute env st s w = (Ok sm, w)
       /\ d = dm ∪ sm
       /\ StatsCalculator._current_dataset_measures st' = Some dm
       /\ forall cached,
            StatsCalculator._current_dataset_measures st = Some cached ->
            dm = cached /\ st' = st /\ w' = w.
Proof.
  unfold StatsCalculator.skip_update_and_get_all. intros H.
  apply bind_Ok in H as (sm & w1 & Hc & H).
  apply bind_Ok in H as ([dm st1] & w2 & Hf & H).
  apply ret_Ok in H as [[= <- <-] <-].
  destruct (StatsCalculator_finalize_frame _ _ _ _ _ _ Hf)
    as (Hdc & Hsc & Hn & Hcache).
  destruct (silent_Ok _ _ _ _ (silent_compute_loop env _ s ∅) Hc)
    as [-> Hcw].
  repeat split; try done. exists dm, sm. repeat split; try done.
  - unfold StatsCalculator.finalize in Hf. rewrite H in Hf.
    by apply ret_Ok in Hf as [[= <- <-] _].
  - unfold StatsCalculator.finalize in Hf. rewrite H in Hf.
    by apply ret_Ok in Hf as [[= <- <-] _].
  - unfold StatsCalculator.finalize in Hf. rewrite H in Hf.
    by apply ret_Ok in Hf as [_ ->].
Qed.

(** X13: one [update] with an iterable counts as one, however many samples
    it yields: updating with [l1 ++ l2] leaves the dataset calculators that
    updating with [l1] and then with [l2] leaves, with the same warnings, but
    a sample count of one less. *)
Theorem StatsCalculator_update_app env st l1 l2 st12 w w' :
  StatsCalculator.update env st (StatsCalculator.Samples (l1 ++ l2)) w
  = (Ok st12, w') <->
  exists st1 w1 st2,
    StatsCalculator.update env st (StatsCalculator.Samples l1) w = (Ok st1, w1)
    /\ StatsCalculator.update env st1 (StatsCalculator.Samples l2) w1
       = (Ok st2, w')
    /\ st12 = StatsCalculator.mk (StatsCalculator.sample_count st + 1)
                (StatsCalculator.sample_calculators st2)
                (StatsCalculator.dataset_calculators st2) None
    /\ StatsCalculator.sample_count st2 = StatsCalculator.sample_count st + 2.
Proof.
  unfold StatsCalculator.update, StatsCalculator._update.
  rewrite !run_bind, !update_loop_pair, for_each_app, run_bind.
  destruct (for_each l1 (update_calculators env)
              (StatsCalculator.dataset_calculators st) w)
    as [[dc1|e] w1] eqn:H1.
  - split.
    + intros H. destruct (for_each l2 _ dc1 w1) as [[dc2|e] w2] eqn:H2;
        [|done].
      rewrite !run_ret in H. injection H as <- <-.
      eexists _, w1, _. rewrite !run_ret. split; [done|].
      rewrite !run_bind, update_loop_pair.
      cbn [StatsCalculator.dataset_calculators]. rewrite H2, !run_ret.
      split; [done|]. cbn. split; [done|lia].
    + intros (st1 & w1' & st2 & Ha & Hb & -> & _).
      rewrite !run_ret in Ha. injection Ha as <- <-.
      rewrite !run_bind, update_loop_pair in Hb.
      cbn [StatsCalculator.dataset_calculators] in Hb.
      destruct (for_each l2 _ dc1 w1) as [[dc2|e] w2]; [|done].
      rewrite !run_ret in Hb. injection Hb as <- <-. by rewrite !run_ret.
  - split; [done|]. by intros (st1 & w1' & st2 & Ha & _).
Qed.

(** ** Requests the planner refuses *)

Lemma valid_ranks_elem ns n :
  valid_ranks ns = true -> n ∈ ns -> (0 ≤ n)%Qc /\ (n ≤ Qc_of_nat 100)%Qc.
Proof.
  unfold valid_ranks. rewrite forallb_forall. intros H Hn.
  apply list_elem_of_In in Hn. specialize (H n Hn).
  apply andb_true_iff in H as [H1 H2].
  split; by eapply bool_decide_eq_true_1.
Qed.

(** X14: the planner refuses a percentile whose rank is not between 0 and
    100: with such a measure in the request it raises [AssertionError]
    instead of returning calculators. *)
Theorem get_measure_calculators_invalid_rank env measures m n w :
  m ∈ measures ->
  Measure_rank m = Some n ->
  ~ ((0 ≤ n)%Qc /\ (n ≤ Qc_of_nat 100)%Qc) ->
  exists w', get_measure_calculators env measures w
             = (Raise AssertionError, w').
Proof.
  intros Hm Hrank Hn.
  destruct (get_measure_calculators env measures w) as [[[sc dc]|e] w'] eqn:Hp.
  - exfalso. apply Hn.
    destruct (get_measure_calculators_inv _ _ _ _ _ _ Hp)
      as (r & ps & pd & Hr & _ & Hps & _ & Hpd).
    pose proof (split_loop_requested _ _ _ _ _ _ Hm Hr) as Hreq.
    destruct m; try done; cbn in Hrank, Hreq; injection Hrank as ->;
      destruct Hreq as (ns & Hl & Hin); apply elem_of_map_to_list in Hl.
    + destruct (Forall2_elem_of_l _ _ _ _ Hps Hl)
        as (y & _ & c & w1 & w2 & Hc & _).
      apply SamplePercentilesCalculator_init_Ok in Hc as (_ & _ & _ & Hv).
      apply (valid_ranks_elem _ _ Hv). by apply elem_of_elements.
    + destruct (Forall2_elem_of_l _ _ _ _ Hpd Hl) as (y & _ & w1 & w2 & Hc).
      apply DatasetPercentilesCalculator_Ok in Hc as [Hv _].
      apply (valid_ranks_elem _ _ Hv). by apply elem_of_elements.
  - apply get_measure_calculators_Raise in Hp as ->. by eexists.
Qed.

(** ** Samples without the tensor *)

Lemma getitem_missing s tid w :
  data s !! tid = None -> getitem s tid w = (Raise KeyError, w).
Proof. unfold getitem. by intros ->. Qed.

Lemma calc_update_missing env calc s w :
  data s !! dataset_calculator_tensor_id calc = None ->
  calc_update env calc s w = (Raise KeyError, w).
Proof.
  intros H. destruct calc as [c|c|c|c]; cbn in H; cbn [calc_update];
    rewrite run_bind.
  - unfold MeanCalculator.update, MeanCalculator._compute_impl.
    by rewrite !run_bind, getitem_missing.
  - unfold MeanVarStdCalculator.update. by rewrite !run_bind, getitem_missing.
  - unfold MeanPercentilesCalculator.update.
    by rewrite !run_bind, getitem_missing.
  - unfold CrickPercentilesCalculator.update.
    by rewrite !run_bind, getitem_missing.
Qed.

(** X15: a sample that lacks the tensor of one of the dataset calculators
    cannot be used for an update: that calculator's [update] raises
    [KeyError], and [StatsCalculator.update] with the sample raises
    instead of returning. *)
Theorem StatsCalculator_update_missing_tensor env st s calc w :
  calc ∈ StatsCalculator.dataset_calculators st ->
  data s !! dataset_calculator_tensor_id calc = None ->
  calc_update env calc s w = (Raise KeyError, w)
  /\ exists e w', StatsCalculator.update env st (StatsCalculator.OneSample s) w
                  = (Raise e, w').
Proof.
  intros Hin Hmiss. split; [by apply calc_update_missing|].
  destruct (StatsCalculator.update env st (StatsCalculator.OneSample s) w)
    as [[st'|e] w'] eqn:Hu; [|by eauto].
  exfalso. unfold StatsCalculator.update, StatsCalculator._update in Hu.
  apply bind_Ok in Hu as ([lst st1] & w1 & Hu & _).
  apply bind_Ok in Hu as ([lst' dc] & w2 & Hu & _).
  cbn [for_each] in Hu. apply bind_Ok in Hu as ([lst2 dc2] & w3 & Hu & _).
  apply bind_Ok in Hu as (dc3 & w4 & Hu & _).
  destruct (for_each_Ok_elem _ _ _ _ _ _ _ Hu Hin) as (s0 & w0 & s1 & w5 & Hb).
  apply bind_Ok in Hb as (c' & w6 & Hb & _).
  by rewrite calc_update_missing in Hb.
Qed.

(** ** [compute_and_update] *)

Lemma silent_compute_impl c s : silent (MeanCalculator._compute_impl c s).
Proof.
  unfold MeanCalculator._compute_impl, mean. silent_steps.
Qed.

(** X16: [MeanCalculator.compute_and_update] is [compute] followed by
    [update]: the same dictionary, the same new state, the same error and
    warnings, with the sample mean computed once instead of twice. *)
Theorem MeanCalculator_compute_and_update c s w :
  MeanCalculator.compute_and_update c s w
  = (d ← MeanCalculator.compute c s;
     c' ← MeanCalculator.update c s;
     mret (d, c')) w.
Proof.
  unfold MeanCalculator.compute_and_update, MeanCalculator.compute,
    MeanCalculator.update.
  destruct (silent_compute_impl c s) as [r Hr].
  rewrite !run_bind, !Hr. destruct r as [m|e]; [|done].
  rewrite run_ret, !run_bind, Hr, !run_bind.
  destruct (getitem s (MeanCalculator._tensor_id c) w) as [[t|e] w1]; [|done].
  rewrite !run_bind.
  by destruct (MeanCalculator._update_impl c t m w1) as [[c'|e] w2].
Qed.

(** ** One sample: the dataset statistics are the sample's *)

Lemma np_prod_Permutation l k : l ≡ₚ k -> np_prod l = np_prod k.
Proof.
  unfold np_prod.
  induction 1 as [|x l k _ IH|x y l|l k m _ IH1 _ IH2]; cbn; [lia|nia|lia|lia].
Qed.

Lemma sizes_prod ds sh (axes : list string) :
  NoDup ds -> NoDup axes -> length sh = length ds ->
  Forall (fun a => a ∈ ds) axes ->
  np_prod ((fun d => default 0 (k ← index_of d ds; sh !! k)) <$> axes)
  = np_prod (dropped ((fun d => bool_decide (d ∈ axes)) <$> ds) sh).
Proof.
  intros Hds. revert sh axes.
  induction Hds as [|d0 ds Hd0 Hds IH]; intros sh axes Hax Hlen Hin.
  - destruct axes as [|a axes]; [done|].
    apply Forall_cons in Hin as [Ha _]. by apply elem_of_nil in Ha.
  - destruct sh as [|n0 sh]; [done|]. cbn [fmap list_fmap dropped].
    injection Hlen as Hlen.
    assert (Hne : forall axes' : list string, d0 ∉ axes' ->
              (fun d => default 0 (k ← index_of d (d0 :: ds); (n0 :: sh) !! k))
                <$> axes'
              = (fun d => default 0 (k ← index_of d ds; sh !! k)) <$> axes').
    { intros axes' Hn. apply list_fmap_ext. intros i d Hd. cbn [index_of].
      rewrite decide_False.
      2:{ intros ->. apply Hn. by eapply list_elem_of_lookup_2. }
      by destruct (index_of d ds). }
    assert (Hfl : forall axes' : list string,
              (forall d, d ∈ ds -> d ∈ axes <-> d ∈ axes') ->
              (fun d => bool_decide (d ∈ axes)) <$> ds
              = (fun d => bool_decide (d ∈ axes')) <$> ds).
    { intros axes' Hiff. apply list_fmap_ext. intros i d Hd.
      apply bool_decide_ext, Hiff. by eapply list_elem_of_lookup_2. }
    destruct (decide (d0 ∈ axes)) as [Hd|Hd].
    + rewrite bool_decide_eq_true_2 by done.
      apply elem_of_Permutation in Hd as [axes' Hp].
      rewrite (np_prod_Permutation _ _ (fmap_Permutation _ _ _ Hp)).
      rewrite Hp in Hax. apply NoDup_cons in Hax as [Hn0 Hax'].
      cbn [fmap list_fmap index_of]. rewrite decide_True by done.
      cbn. fold (np_prod (dropped ((fun d => bool_decide (d ∈ axes)) <$> ds) sh)).
      match goal with
      | |- _ * foldr Nat.mul 1 ?l = _ => change (foldr Nat.mul 1 l) with (np_prod l)
      end.
      rewrite Hne by done. rewrite (Hfl axes').
      * rewrite IH; [done..|].
        rewrite Hp in Hin. apply Forall_cons in Hin as [_ Hin].
        rewrite Forall_forall in Hin |- *. intros a Ha.
        specialize (Hin a Ha). apply elem_of_cons in Hin as [->|Hin]; done.
      * intros d Hdin. rewrite Hp, elem_of_cons. split; [|by right].
        intros [->|H']; done.
    + rewrite bool_decide_eq_false_2 by done.
      rewrite Hne by done. apply IH; [done..|].
      rewrite Forall_forall in Hin |- *. intros a Ha.
      specialize (Hin a Ha). apply elem_of_cons in Hin as [->|Hin]; done.
Qed.

Lemma index_of_elem d ds : d ∈ ds -> exists k, index_of d ds = Some k /\ k < length ds.
Proof.
  induction ds as [|d0 ds IH]; intros Hd; [by apply elem_of_nil in Hd|].
  cbn [index_of]. destruct (decide (d = d0)) as [->|Hne].
  - exists 0. cbn. split; [done|lia].
  - apply elem_of_cons in Hd as [->|Hd]; [done|].
    destruct (IH Hd) as (k & -> & Hk). exists (S k). cbn. split; [done|lia].
Qed.

Lemma size_of_elem t d :
  length (shape t) = length (dims t) -> d ∈ dims t ->
  exists n, size_of t d = Some n.
Proof.
  intros Hlen Hd. destruct (index_of_elem _ _ Hd) as (k & Hk & Hlt).
  unfold size_of. rewrite Hk. cbn. apply lookup_lt_is_Some. lia.
Qed.

Lemma sizes_loop t (axes : list string) acc w :
  length (shape t) = length (dims t) ->
  Forall (fun a => a ∈ dims t) axes ->
  for_each axes
    (fun d acc => match size_of t d with
                  | Some s => mret (acc ++ [s])
                  | None => raise KeyError
                  end) acc w
  = (Ok (acc ++ ((fun d => default 0 (size_of t d)) <$> axes)), w).
Proof.
  intros Hlen Hin. revert acc.
  induction Hin as [|d axes Hd _ IH]; intros acc; cbn [for_each fmap list_fmap].
  - by rewrite run_ret, app_nil_r.
  - destruct (size_of_elem t d Hlen Hd) as [n Hn].
    rewrite run_bind, Hn, run_ret, IH. cbn. by rewrite <- app_assoc.
Qed.

Lemma dropped_all {A} (fl : list bool) (l : list A) :
  length fl = length l -> Forall (fun b => b = true) fl -> dropped fl l = l.
Proof.
  revert l. induction fl as [|b fl IH]; intros [|x l] Hlen Hall; try done.
  apply Forall_cons in Hall as [-> Hall]. cbn. f_equal. apply IH; [|done].
  by injection Hlen.
Qed.

(** the number of elements that [compute] divides by is the number of
    elements of a reduction group *)
Lemma compute_count axes t w :
  NoDup (dims t) -> length (shape t) = length (dims t) ->
  match axes with
  | None => True
  | Some l => NoDup l /\ Forall (fun a => a ∈ dims t) l
  end ->
  match axes with
  | None => mret (size t)
  | Some axes =>
      sizes ← for_each axes
                (fun d acc => match size_of t d with
                              | Some s => mret (acc ++ [s])
                              | None => raise KeyError
                              end) [];
      mret (np_prod sizes)
  end w
  = (Ok (np_prod (dropped (flags axes t) (shape t))), w).
Proof.
  intros Hnd Hlen Hax. destruct axes as [l|].
  - destruct Hax as [Hndl Hin].
    rewrite run_bind, sizes_loop, run_ret by done. cbn [app].
    do 2 f_equal. unfold flags, reduced, size_of.
    by apply sizes_prod.
  - rewrite run_ret. do 2 f_equal. unfold size, flags, reduced.
    rewrite dropped_all; [done|by rewrite length_fmap|].
    apply Forall_fmap, Forall_forall. done.
Qed.

Lemma astype_same t : dtype t = float64 -> astype float64 t = t.
Proof. destruct t as [ds sh dt vs]. cbn. by intros ->. Qed.

(** X17: over exact rationals, without the rounding of floats: for a
    [float64] tensor the dataset statistics after a single update are the
    statistics of that sample: [finalize] of a [MeanVarStdCalculator] that
    saw one sample returns, under the dataset keys, the mean, variance and
    standard deviation that [compute] returns for the sample under the
    sample keys.  ([compute] sums the squares with [xr.dot], [update] with
    [sum]; over floats the two may differ in the last bits.) *)
Theorem MeanVarStdCalculator_single_sample sqrt tid axes s t w :
  data s !! tid = Some t ->
  dtype t = float64 ->
  NoDup (dims t) ->
  length (shape t) = length (dims t) ->
  0 < np_prod (kept (flags axes t) (shape t)) ->
  match axes with
  | None => True
  | Some l => NoDup l /\ Forall (fun a => a ∈ dims t) l
  end ->
  exists c' m v sd,
    MeanVarStdCalculator.update (MeanVarStdCalculator.__init__ tid axes) s w
    = (Ok c', w)
    /\ MeanVarStdCalculator.compute sqrt
         (MeanVarStdCalculator.__init__ tid axes) s w
       = (Ok (<[SampleStd tid axes := sd]>
              (<[SampleVar tid axes := v]> {[ SampleMean tid axes := m ]})), w)
    /\ MeanVarStdCalculator.finalize sqrt c' w
       = (Ok (<[DatasetStd tid axes := sd]>
              (<[DatasetVar tid axes := v]> {[ DatasetMean tid axes := m ]})),
          w).
Proof.
  intros Ht Hdt Hnd Hlen Hpos Hax.
  assert (Hin : axes_in axes t) by (destruct axes; [apply Hax|done]).
  assert (Hdist : axes_distinct axes) by (destruct axes; [apply Hax|done]).
  eexists _, _, _, _. split; [|split].
  - by apply MeanVarStdCalculator_update_first.
  - unfold MeanVarStdCalculator.compute.
    cbn [MeanVarStdCalculator.__init__ MeanVarStdCalculator._tensor_id
         MeanVarStdCalculator._axes].
    rewrite run_bind, (getitem_lookup _ _ _ _ Ht). cbv beta iota.
    rewrite <- (astype_same t Hdt) at 1.
    rewrite run_bind, mean_astype by done. cbv beta iota.
    pose proof (m2_astype axes t w Hin Hdist Hnd Hlen) as Hm2.
    rewrite (astype_same t Hdt) in Hm2.
    rewrite run_bind in Hm2. rewrite run_bind.
    unfold mean_of in Hm2 |- *.
    rewrite binop_reduced_build in Hm2 |- * by (by rewrite ?length_flags).
    cbv beta iota in Hm2 |- *.
    rewrite run_bind, compute_count by done. cbv beta iota.
    rewrite run_bind, binop_build by done. cbv beta iota.
    rewrite square_build in Hm2. rewrite Hdt in Hm2 |- *.
    change (result_type float64 float64) with float64 in Hm2 |- *.
    change (result_type float64 float64) with float64 in Hm2 |- *.
    rewrite run_bind, Hm2. cbv beta iota. rewrite run_ret. reflexivity.
  - unfold MeanVarStdCalculator.finalize.
    cbn [MeanVarStdCalculator._mean MeanVarStdCalculator._m2
         MeanVarStdCalculator._n MeanVarStdCalculator._tensor_id
         MeanVarStdCalculator._axes].
    rewrite run_ret. reflexivity.
Qed.

(** ** Every requested measure gets a value *)

Lemma binop_shape f a b r w w' :
  binop f a b w = (Ok r, w') -> exists ex, shape r = shape a ++ ex.
Proof.
  unfold binop. destruct (sizes_agree a b); [|done].
  intros H. apply ret_Ok in H as [<- _]. cbn. by eexists.
Qed.

Lemma quantile_shape qs axes t r w w' :
  quantile qs axes t w = (Ok r, w') -> head (shape r) = Some (length qs).
Proof.
  unfold quantile. destruct (forallb valid_q qs); [|done].
  intros H. apply bind_Ok in H as (u & w1 & _ & H).
  destruct (bool_decide (dtype t = bool_)); [done|].
  by apply ret_Ok in H as [<- _].
Qed.

Lemma calc_update_observed env calc s calc' w w' :
  ready_calculator calc ->
  calc_update env calc s w = (Ok calc', w') ->
  observed_calculator calc' /\ ready_calculator calc'
  /\ dataset_calculator_measures calc' = dataset_calculator_measures calc.
Proof.
  intros Hr H. destruct calc as [c|c|c|c]; cbn [calc_update] in H.
  - apply bind_Ok in H as (c' & w1 & H & Hret).
    apply ret_Ok in Hret as [<- _].
    unfold MeanCalculator.update in H.
    apply bind_Ok in H as (m & w2 & _ & H).
    apply bind_Ok in H as (t & w3 & _ & H).
    unfold MeanCalculator._update_impl in H.
    apply bind_Ok in H as (u & w4 & _ & H).
    apply bind_Ok in H as (n & w5 & _ & H).
    destruct (MeanCalculator._mean c); py_inv; subst; cbn; eauto.
  - apply bind_Ok in H as (c' & w1 & H & Hret).
    apply ret_Ok in Hret as [<- _].
    unfold MeanVarStdCalculator.update in H.
    repeat (apply bind_Ok in H as (? & ? & _ & H)).
    destruct (MeanVarStdCalculator._mean c).
    + repeat (apply bind_Ok in H as (? & ? & _ & H)).
      destruct (MeanVarStdCalculator._m2 c); [|done].
      repeat (apply bind_Ok in H as (? & ? & _ & H)).
      apply ret_Ok in H as [<- _]. cbn. eauto.
    + repeat (apply bind_Ok in H as (? & ? & _ & H)).
      apply ret_Ok in H as [<- _]. cbn. eauto.
  - apply bind_Ok in H as (c' & w1 & H & Hret).
    apply ret_Ok in Hret as [<- _].
    destruct Hr as [Hlen Hest].
    unfold MeanPercentilesCalculator.update in H.
    apply bind_Ok in H as (t & w2 & _ & H).
    apply bind_Ok in H as (q & w3 & Hq & H).
    apply bind_Ok in H as (n & w4 & _ & H).
    apply bind_Ok in H as (est' & w5 & He & H).
    apply ret_Ok in H as [<- _]. cbn. split; [eauto|]. split; [|done].
    split; [done|]. intros est [= <-].
    apply quantile_shape in Hq.
    destruct (MeanPercentilesCalculator._estimates c) as [est0|].
    + apply bind_Ok in He as (x & w6 & Hx & He).
      apply bind_Ok in He as (u & w7 & _ & He).
      apply ret_Ok in He as [<- _].
      apply binop_shape in Hx as [ex Hx]. cbn in Hx |- *. rewrite Hx.
      specialize (Hest est0 eq_refl).
      destruct (shape est0); [done|]. done.
    + apply bind_Ok in He as (u & w6 & _ & He).
      apply ret_Ok in He as [<- _]. done.
  - apply bind_Ok in H as (c' & w1 & H & Hret).
    apply ret_Ok in Hret as [<- _].
    unfold CrickPercentilesCalculator.update in H.
    apply bind_Ok in H as (t & w2 & _ & H).
    apply bind_Ok in H as (u & w3 & _ & H).
    apply bind_Ok in H as (c1 & w4 & Hi & H).
    assert (CrickPercentilesCalculator._ns c1 = CrickPercentilesCalculator._ns c
            /\ CrickPercentilesCalculator._qs c1 = CrickPercentilesCalculator._qs c
            /\ CrickPercentilesCalculator._axes c1
               = CrickPercentilesCalculator._axes c
            /\ CrickPercentilesCalculator._tensor_id c1
               = CrickPercentilesCalculator._tensor_id c) as (Hns & Hqs & Ha & Ht).
    { destruct (CrickPercentilesCalculator._digest c).
      - by apply ret_Ok in Hi as [<- _].
      - unfold CrickPercentilesCalculator._initialize in Hi.
        apply bind_Ok in Hi as (u' & w5 & _ & Hi).
        by apply ret_Ok in Hi as [<- _]. }
    destruct (CrickPercentilesCalculator._digest c1); [|done].
    destruct (CrickPercentilesCalculator._indices c1); [|done].
    destruct (CrickPercentilesCalculator._dims c1); [|done].
    apply bind_Ok in H as (dg & w5 & _ & H).
    apply ret_Ok in H as [<- _]. cbn in Hr |- *.
    rewrite Hns, Hqs, Ha, Ht. eauto.
Qed.

Lemma head_hd (l : list nat) n : head l = Some n -> hd 0 l = n.
Proof. destruct l; cbn; congruence. Qed.

Lemma observed_finalize_dom env calc d w w' :
  ready_calculator calc -> observed_calculator calc ->
  calc_finalize env calc w = (Ok d, w') ->
  dom d = list_to_set (dataset_calculator_measures calc).
Proof.
  intros Hr Ho H. destruct calc as [c|c|c|c]; cbn [calc_finalize] in H;
    cbn [dataset_calculator_measures].
  - apply ret_Ok in H as [<- _]. unfold MeanCalculator.finalize.
    destruct Ho as [m ->]. cbn [list_to_set].
    rewrite dom_singleton_L. set_solver.
  - unfold MeanVarStdCalculator.finalize in H. destruct Ho as [m Hm].
    rewrite Hm in H. destruct (MeanVarStdCalculator._m2 c); [|done].
    apply ret_Ok in H as [<- _]. cbn [list_to_set fmap list_fmap].
    rewrite !dom_insert_L, dom_singleton_L. set_solver.
  - unfold MeanPercentilesCalculator.finalize in H. destruct Ho as [est He].
    rewrite He in H. py_inv. subst. destruct Hr as [Hlen Hest].
    apply dict_zip_dom.
    rewrite length_fmap, iter_first_length, (head_hd _ _ (Hest _ He)).
    by symmetry.
  - unfold CrickPercentilesCalculator.finalize in H. destruct Ho as [dg Hd].
    rewrite Hd in H.
    destruct (CrickPercentilesCalculator._dims c); [|done].
    destruct (CrickPercentilesCalculator._shape c); [|done].
    destruct (bool_decide _); [|done].
    apply ret_Ok in H as [<- _]. apply dict_zip_dom.
    rewrite !length_fmap. by symmetry.
Qed.

Lemma planner_ready env measures sc dc w w' :
  get_measure_calculators env measures w = (Ok (sc, dc), w') ->
  Forall wf_sample_calculator sc /\ Forall ready_calculator dc.
Proof.
  intros H.
  destruct (get_measure_calculators_inv _ _ _ _ _ _ H)
    as (r & ps & pd & _ & -> & Hps & -> & Hpd).
  split.
  - rewrite !Forall_app. repeat split.
    + apply Forall_fmap, Forall_forall. done.
    + apply Forall_fmap, Forall_forall. done.
    + apply Forall_forall. intros y Hy.
      apply list_elem_of_lookup_1 in Hy as [i Hi].
      destruct (Forall2_lookup_r _ _ _ _ _ Hps Hi)
        as (x & _ & c & w1 & w2 & Hc & ->).
      unfold SamplePercentilesCalculator.__init__ in Hc. py_inv. subst. cbn.
      by rewrite length_fmap.
  - rewrite !Forall_app. repeat split.
    + apply Forall_fmap, Forall_forall. done.
    + apply Forall_fmap, Forall_forall. done.
    + apply Forall_forall. intros y Hy.
      apply list_elem_of_lookup_1 in Hy as [i Hi].
      destruct (Forall2_lookup_r _ _ _ _ _ Hpd Hi) as (x & _ & w1 & w2 & Hc).
      apply DatasetPercentilesCalculator_Ok in Hc as [_ [[_ ->]|[_ ->]]];
        cbn; rewrite length_fmap; done.
Qed.

(** one sample through every calculator *)
Lemma update_calculators_observed env s dc dc' w w' :
  Forall ready_calculator dc ->
  update_calculators env s dc w = (Ok dc', w') ->
  Forall2 (fun calc calc' =>
             observed_calculator calc' /\ ready_calculator calc'
             /\ dataset_calculator_measures calc'
                = dataset_calculator_measures calc) dc dc'.
Proof.
  intros Hr H. unfold update_calculators in H.
  eapply (for_each_append
            (fun calc calc' => exists wa wb,
               calc_update env calc s wa = (Ok calc', wb))) in H
    as (ys & -> & Hys).
  2:{ intros x cs wa cs' wb Hb. py_inv. subst. eauto. }
  cbn [app]. revert Hr. induction Hys as [|x y l k (wa & wb & Hxy) _ IH];
    intros Hr; [done|].
  apply Forall_cons in Hr as [Hx Hr]. constructor; [|by apply IH].
  by eapply calc_update_observed.
Qed.

(** a dataset that is not empty through every calculator *)
Lemma update_loop_observed env l dc dc' w w' :
  l <> [] ->
  Forall ready_calculator dc ->
  for_each l (update_calculators env) dc w = (Ok dc', w') ->
  Forall2 (fun calc calc' =>
             observed_calculator calc' /\ ready_calculator calc'
             /\ dataset_calculator_measures calc'
                = dataset_calculator_measures calc) dc dc'.
Proof.
  revert dc w. induction l as [|s l IH]; intros dc w Hne Hr H; [done|].
  cbn [for_each] in H. apply bind_Ok in H as (dc1 & w1 & H1 & H).
  pose proof (update_calculators_observed _ _ _ _ _ _ Hr H1) as Hobs.
  destruct l as [|s' l].
  - cbn [for_each] in H. by apply ret_Ok in H as [<- _].
  - assert (Forall ready_calculator dc1) as Hr1.
    { apply Forall_forall. intros y Hy.
      apply list_elem_of_lookup_1 in Hy as [i Hi].
      by destruct (Forall2_lookup_r _ _ _ _ _ Hobs Hi) as (x & _ & _ & ? & _). }
    specialize (IH dc1 w1 ltac:(done) Hr1 H).
    clear H H1. revert dc' IH.
    induction Hobs as [|x y dc dc1 (_ & _ & Hm) _ IHo]; intros dc' IH.
    + by apply Forall2_nil_inv_l in IH as ->.
    + apply Forall2_cons_inv_l in IH as (z & dc2 & (Ho & Hrz & Hmz) & IH & ->).
      apply Forall_cons in Hr as [_ Hr]. apply Forall_cons in Hr1 as [_ Hr1].
      constructor; [|by apply IHo].
      repeat split; [done..|]. congruence.
Qed.

Lemma merge_loop_mono {A} (F : A -> Py (gmap Measure DataArray)) l d0 d w w' :
  for_each l (fun x ret => values ← F x; mret (dict_update ret values)) d0 w
  = (Ok d, w') ->
  dom d0 ⊆ dom d.
Proof.
  revert d0 w. induction l as [|y l IH]; intros d0 w H; cbn [for_each] in H.
  - by apply ret_Ok in H as [<- _].
  - apply bind_Ok in H as (d1 & w1 & Hb & H).
    apply bind_Ok in Hb as (v & w2 & Hv & Hb). apply ret_Ok in Hb as [<- ->].
    apply IH in H. unfold dict_update in H. rewrite dom_union_L in H.
    set_solver.
Qed.

Lemma merge_loop_dom {A} (F : A -> Py (gmap Measure DataArray)) l d0 d w w' x :
  for_each l (fun x ret => values ← F x; mret (dict_update ret values)) d0 w
  = (Ok d, w') ->
  x ∈ l ->
  exists v wa wb, F x wa = (Ok v, wb) /\ dom v ⊆ dom d.
Proof.
  revert d0 w. induction l as [|y l IH]; intros d0 w H Hx;
    [by apply elem_of_nil in Hx|].
  cbn [for_each] in H. apply bind_Ok in H as (d1 & w1 & Hb & H).
  apply bind_Ok in Hb as (v & w2 & Hv & Hb). apply ret_Ok in Hb as [<- ->].
  apply elem_of_cons in Hx as [->|Hx]; [|by eauto].
  exists v, w, w1. split; [done|].
  apply merge_loop_mono in H. unfold dict_update in H.
  rewrite dom_union_L in H. set_solver.
Qed.

Lemma sample_calculator_serves_measures calc m :
  sample_calculator_serves calc m -> m ∈ sample_calculator_measures calc.
Proof.
  destruct calc as [c|c|c], m; cbn; try done.
  - intros ->. apply list_elem_of_here.
  - intros ->. set_solver.
  - intros ->. set_solver.
  - intros ->. set_solver.
  - intros (<- & <- & Hn). apply list_elem_of_fmap. eauto.
Qed.

Lemma dataset_calculator_serves_measures calc m :
  dataset_calculator_serves calc m -> m ∈ dataset_calculator_measures calc.
Proof.
  destruct calc as [c|c|c|c], m; cbn; try done.
  - intros ->. apply list_elem_of_here.
  - intros ->. set_solver.
  - intros ->. set_solver.
  - intros ->. set_solver.
  - intros (<- & <- & Hn). apply list_elem_of_fmap. eauto.
  - intros (<- & <- & Hn). apply list_elem_of_fmap. eauto.
Qed.

Lemma StatsCalculator_init_planner env measures initial st w w' :
  StatsCalculator.__init__ env measures initial w = (Ok st, w') ->
  exists w1,
    get_measure_calculators env measures w
    = (Ok (StatsCalculator.sample_calculators st,
           StatsCalculator.dataset_calculators st), w1).
Proof.
  unfold StatsCalculator.__init__. intros H.
  apply bind_Ok in H as ([sc dc] & w1 & Hp & H). exists w1.
  destruct initial as [ini|].
  - destruct (bool_decide _); py_inv; by subst.
  - apply ret_Ok in H as [<- _]. done.
Qed.

(** X18: [update_and_get_all] leaves no requested measure out: on a
    [StatsCalculator] as its constructor returns it, the dictionary that
    [update_and_get_all] returns has a value for every measure of the
    request, sample and dataset measures alike. *)
Theorem update_and_get_all_complete env measures initial st sample d st'
    w0 w1 w2 m :
  StatsCalculator.__init__ env measures initial w0 = (Ok st, w1) ->
  StatsCalculator.update_and_get_all env st sample w1 = (Ok (d, st'), w2) ->
  m ∈ measures ->
  is_Some (d !! m).
Proof.
  intros Hinit Hu Hm.
  destruct (StatsCalculator_init_planner _ _ _ _ _ _ Hinit) as [wp Hp].
  destruct (planner_ready _ _ _ _ _ _ Hp) as [Hwf Hready].
  pose proof (planner_serves _ _ _ _ _ _ m Hp Hm) as Hserves.
  unfold StatsCalculator.update_and_get_all, StatsCalculator._update in Hu.
  apply bind_Ok in Hu as ([lst st1] & w3 & Hupd & Hu).
  apply bind_Ok in Hupd as ([lst' dc1] & w4 & Hloop & Hret).
  apply ret_Ok in Hret as [[= <- <-] <-].
  rewrite update_loop_pair in Hloop.
  set (samples := match sample with
                  | StatsCalculator.OneSample s => [s]
                  | StatsCalculator.Samples l => l
                  end) in *.
  destruct (for_each samples (update_calculators env)
              (StatsCalculator.dataset_calculators st) w1)
    as [[dc1'|e] w5] eqn:Hdc; [|done].
  injection Hloop as <- <- <-.
  destruct (last samples) as [s|] eqn:Hlast; [|done].
  assert (samples <> []) as Hne by (by intros Heq; rewrite Heq in Hlast).
  apply bind_Ok in Hu as (sm & w6 & Hsm & Hu).
  apply bind_Ok in Hu as ([dm st2] & w7 & Hfin & Hu).
  apply ret_Ok in Hu as [[= <- <-] <-].
  unfold StatsCalculator._compute in Hsm.
  unfold StatsCalculator.finalize in Hfin.
  cbn [StatsCalculator.sample_calculators StatsCalculator.dataset_calculators
       StatsCalculator._current_dataset_measures] in Hsm, Hfin.
  apply bind_Ok in Hfin as (dm' & w8 & Hfin & Hret).
  apply ret_Ok in Hret as [[= <- <-] <-].
  apply elem_of_dom. rewrite dom_union_L.
  destruct (is_dataset_measure m).
  - destruct Hserves as (calc & Hin & Hs%dataset_calculator_serves_measures).
    pose proof (update_loop_observed _ _ _ _ _ _ Hne Hready Hdc) as Hobs.
    apply list_elem_of_lookup_1 in Hin as [i Hi].
    destruct (Forall2_lookup_l _ _ _ _ _ Hobs Hi)
      as (calc' & Hi' & Ho & Hr & Hms).
    apply list_elem_of_lookup_2 in Hi'.
    destruct (merge_loop_dom _ _ _ _ _ _ _ Hfin Hi')
      as (v & wa & wb & Hv & Hsub).
    apply (observed_finalize_dom _ _ _ _ _ Hr Ho) in Hv.
    apply elem_of_union_l, Hsub. rewrite Hv, Hms.
    by apply elem_of_list_to_set.
  - destruct Hserves as (calc & Hin & Hs%sample_calculator_serves_measures).
    destruct (merge_loop_dom _ _ _ _ _ _ _ Hsm Hin)
      as (v & wa & wb & Hv & Hsub).
    rewrite Forall_forall in Hwf.
    apply (sample_calculator_dom _ _ _ _ _ _ (Hwf _ Hin)) in Hv.
    apply elem_of_union_r, Hsub. rewrite Hv.
    by apply elem_of_list_to_set.
Qed.

Lemma ex_update_and_get_all : exists d st' w',
  StatsCalculator.update_and_get_all ex_env ex_stats_fresh
    (StatsCalculator.OneSample ex_sample) [] = (Ok (d, st'), w').
Proof.
  destruct ex_compute_sample as [sm Hsm].
  destruct (StatsCalculator_finalize_total ex_env ex_stats_updated []
              (reachable_wf _ _ ex_stats_updated_reachable))
    as (dm & st2 & w3 & Hfin).
  exists (dm ∪ sm), st2, w3. unfold StatsCalculator.update_and_get_all.
  rewrite run_bind, ex_update_one. cbv beta iota.
  rewrite run_bind, Hsm, run_bind, Hfin. apply run_ret.
Qed.

Lemma ex_skip_update_and_get_all : exists d st' w',
  StatsCalculator.skip_update_and_get_all ex_env ex_stats_updated ex_sample []
  = (Ok (d, st'), w').
Proof.
  destruct ex_compute_sample as [sm Hsm].
  destruct (StatsCalculator_finalize_total ex_env ex_stats_updated []
              (reachable_wf _ _ ex_stats_updated_reachable))
    as (dm & st2 & w3 & Hfin).
  exists (dm ∪ sm), st2, w3. unfold StatsCalculator.skip_update_and_get_all.
  rewrite run_bind, Hsm, run_bind, Hfin. apply run_ret.
Qed.

Lemma skip_update_and_get_all_frame_witness :
  exists d st' w',
    StatsCalculator.skip_update_and_get_all ex_env ex_stats_updated ex_sample []
    = (Ok (d, st'), w')
    /\ StatsCalculator.sample_count st'
       = StatsCalculator.sample_count ex_stats_updated
    /\ StatsCalculator.dataset_calculators st'
       = StatsCalculator.dataset_calculators ex_stats_updated.
Proof.
  destruct ex_skip_update_and_get_all as (d & st' & w' & H).
  exists d, st', w'. split; [exact H|].
  destruct (skip_update_and_get_all_frame ex_env ex_stats_updated ex_sample
              d st' [] w' H) as (Hn & Hdc & _).
  split; [exact Hn|exact Hdc].
Defined.

Lemma get_measure_calculators_invalid_rank_witness :
  exists w', get_measure_calculators ex_env ex_measures_invalid []
             = (Raise AssertionError, w').
Proof.
  apply (get_measure_calculators_invalid_rank ex_env ex_measures_invalid
           (SamplePercentile "raw" None (Qc_of_nat 101)) (Qc_of_nat 101) []).
  - apply list_elem_of_further, list_elem_of_here.
  - reflexivity.
  - intros [_ H]. vm_compute in H. apply H. reflexivity.
Defined.

Lemma StatsCalculator_update_missing_tensor_witness :
  calc_update ex_env (DC_Mean (MeanCalculator.__init__ "raw" None))
    ex_sample_empty [] = (Raise KeyError, [])
  /\ exists e w', StatsCalculator.update ex_env ex_stats_fresh
                    (StatsCalculator.OneSample ex_sample_empty) []
                  = (Raise e, w').
Proof.
  apply (StatsCalculator_update_missing_tensor ex_env ex_stats_fresh
           ex_sample_empty (DC_Mean (MeanCalculator.__init__ "raw" None)) []).
  - apply list_elem_of_here.
  - reflexivity.
Defined.

Lemma MeanVarStdCalculator_single_sample_witness :
  exists c' m v sd,
    MeanVarStdCalculator.update (MeanVarStdCalculator.__init__ "raw" None)
      ex_sample64 [] = (Ok c', [])
    /\ MeanVarStdCalculator.compute (sqrt_fn ex_env)
         (MeanVarStdCalculator.__init__ "raw" None) ex_sample64 []
       = (Ok (<[SampleStd "raw" None := sd]>
              (<[SampleVar "raw" None := v]> {[ SampleMean "raw" None := m ]})),
          [])
    /\ MeanVarStdCalculator.finalize (sqrt_fn ex_env) c' []
       = (Ok (<[DatasetStd "raw" None := sd]>
              (<[DatasetVar "raw" None := v]>
                 {[ DatasetMean "raw" None := m ]})), []).
Proof.
  apply (MeanVarStdCalculator_single_sample (sqrt_fn ex_env) "raw" None
           ex_sample64 ex_tensor64 []).
  - vm_compute. reflexivity.
  - reflexivity.
  - apply NoDup_singleton.
  - reflexivity.
  - vm_compute. lia.
  - exact I.
Defined.

Lemma update_and_get_all_complete_witness :
  exists d st' w',
    StatsCalculator.update_and_get_all ex_env ex_stats_fresh
      (StatsCalculator.OneSample ex_sample) [] = (Ok (d, st'), w')
    /\ is_Some (d !! DatasetMean "raw" None)
    /\ is_Some (d !! SampleMean "raw" None).
Proof.
  destruct ex_update_and_get_all as (d & st' & w' & H).
  exists d, st', w'. split; [exact H|].
  assert (Hinit : StatsCalculator.__init__ ex_env ex_measures None []
                  = (Ok ex_stats_fresh, [])) by (vm_compute; reflexivity).
  split.
  - apply (update_and_get_all_complete ex_env ex_measures None ex_stats_fresh
             (StatsCalculator.OneSample ex_sample) d st' [] [] w'
             (DatasetMean "raw" None) Hinit H).
    apply list_elem_of_here.
  - apply (update_and_get_all_complete ex_env ex_measures None ex_stats_fresh
             (StatsCalculator.OneSample ex_sample) d st' [] [] w'
             (SampleMean "raw" None) Hinit H).
    apply list_elem_of_further, list_elem_of_here.
Defined.

(** ** The naive dataset percentiles of one sample *)

Lemma quantile_array qs axes t w :
  forallb valid_q qs = true ->
  axes_in axes t ->
  dtype t <> bool_ ->
  quantile qs axes t w
  = (Ok (build ("quantile" :: kept (flags axes t) (dims t))
           (length qs :: kept (flags axes t) (shape t))
           float64
           (fun idx =>
              match idx with
              | k :: oidx =>
                  quantile_list (dtype t) (nth k qs 0%Qc)
                    (group (shape t) (flags axes t) oidx (item t))
              | [] => 0%Qc
              end)), w).
Proof.
  intros Hq Hax Hbool. unfold quantile. rewrite Hq, run_bind.
  rewrite check_dims_Ok by (by destruct axes). cbv beta iota.
  by rewrite bool_decide_eq_false_2, run_ret.
Qed.

(** X19: for a [float64] tensor the naive dataset percentiles of a single
    sample are that sample's percentiles: a new [MeanPercentilesCalculator]
    updated once finalizes, with its warning, to the arrays that
    [SamplePercentilesCalculator.compute] returns for the same ranks, under
    the dataset keys. *)
Theorem MeanPercentilesCalculator_single_sample tid axes ns cs cd s t w w1 w2 :
  SamplePercentilesCalculator.__init__ tid axes ns w = (Ok cs, w1) ->
  MeanPercentilesCalculator.__init__ tid axes ns w = (Ok cd, w2) ->
  data s !! tid = Some t ->
  dtype t = float64 ->
  length (shape t) = length (dims t) ->
  0 < np_prod (kept (flags axes t) (shape t)) ->
  axes_in axes t ->
  exists cd' vs,
    MeanPercentilesCalculator.update cd s w = (Ok cd', w)
    /\ SamplePercentilesCalculator.compute cs s w
       = (Ok (dict_zip (SamplePercentile tid axes <$> ns) vs), w)
    /\ MeanPercentilesCalculator.finalize cd' w
       = (Ok (dict_zip (DatasetPercentile tid axes <$> ns) vs),
          w ++ [naive_warning]).
Proof.
  intros Hcs Hcd Ht Hdt Hlen Hpos Hax.
  unfold SamplePercentilesCalculator.__init__ in Hcs.
  unfold MeanPercentilesCalculator.__init__ in Hcd.
  apply bind_Ok in Hcs as (u & w3 & Hv & Hcs).
  apply assert_Ok in Hv as [Hv ->]. apply ret_Ok in Hcs as [<- <-].
  apply bind_Ok in Hcd as (u' & w4 & _ & Hcd). apply ret_Ok in Hcd as [<- _].
  pose proof (valid_ranks_valid_q _ Hv) as Hq.
  assert (Hbool : dtype t <> bool_) by (by rewrite Hdt).
  eexists _, _. split; [|split].
  - unfold MeanPercentilesCalculator.update.
    cbn [MeanPercentilesCalculator._tensor_id MeanPercentilesCalculator._qs
         MeanPercentilesCalculator._axes MeanPercentilesCalculator._estimates
         MeanPercentilesCalculator._n MeanPercentilesCalculator._ns].
    rewrite run_bind, (getitem_lookup _ _ _ _ Ht). cbv beta iota.
    rewrite run_bind, quantile_array by done. cbv beta iota zeta.
    cbn [astype shape build tail].
    rewrite run_bind, int_ratio_exact by (by rewrite ?length_flags).
    cbv beta iota. rewrite run_bind. cbn [Nat.eqb assert_].
    py_unfold. reflexivity.
  - unfold SamplePercentilesCalculator.compute.
    cbn [SamplePercentilesCalculator._tensor_id SamplePercentilesCalculator._qs
         SamplePercentilesCalculator._axes SamplePercentilesCalculator.ns].
    rewrite run_bind, (getitem_lookup _ _ _ _ Ht). cbv beta iota.
    rewrite run_bind, quantile_array by done. cbv beta iota.
    rewrite run_ret. reflexivity.
  - unfold MeanPercentilesCalculator.finalize.
    cbn [MeanPercentilesCalculator._estimates MeanPercentilesCalculator._ns
         MeanPercentilesCalculator._tensor_id MeanPercentilesCalculator._axes].
    rewrite run_bind. unfold warn at 1. cbv beta iota. rewrite run_ret.
    reflexivity.
Qed.

(** ** The reserved dimension name of the sketch-based percentiles *)

(** X20: [CrickPercentilesCalculator] keeps the name [_percentiles] for
    itself: its constructor raises [AssertionError] (after its warning) for
    axes that hold the name, and [update] raises [AssertionError] for a
    tensor that has a dimension of that name. *)
Theorem Crick_reserved_dimension env tid (axes : list string) ns c s t w :
  (valid_ranks ns = true ->
   "_percentiles" ∈ axes ->
   CrickPercentilesCalculator.__init__ tid (Some axes) ns w
   = (Raise AssertionError,
      w ++ ["Computing dataset percentiles with experimental 'crick' library."]))
  /\ (data s !! CrickPercentilesCalculator._tensor_id c = Some t ->
      "_percentiles" ∈ dims t ->
      CrickPercentilesCalculator.update env c s w = (Raise AssertionError, w)).
Proof.
  split.
  - intros Hv Hin. unfold CrickPercentilesCalculator.__init__.
    rewrite run_bind. unfold warn at 1. cbv beta iota.
    rewrite run_bind, Hv. cbn [assert_]. rewrite run_ret. cbv beta iota.
    rewrite run_bind, bool_decide_eq_true_2 by done. done.
  - intros Ht Hin. unfold CrickPercentilesCalculator.update.
    rewrite run_bind, (getitem_lookup _ _ _ _ Ht). cbv beta iota.
    rewrite run_bind, bool_decide_eq_true_2 by done. done.
Qed.

(** ** The variance is never negative *)

Lemma Qc_nonneg_Q (x : Qc) : (0 ≤ x)%Qc <-> (0 <= x)%Q.
Proof. unfold Qcle. by change (this 0%Qc) with 0%Q. Qed.

Lemma Qc_mult_nonneg (x y : Qc) : (0 ≤ x)%Qc -> (0 ≤ y)%Qc -> (0 ≤ x * y)%Qc.
Proof.
  rewrite !Qc_nonneg_Q. intros Hx Hy. unfold Qcmult, Q2Qc. cbn [this].
  rewrite Qred_correct. by apply Qmult_le_0_compat.
Qed.

Lemma Qc_square_nonneg (x : Qc) : (0 ≤ x * x)%Qc.
Proof.
  rewrite Qc_nonneg_Q. unfold Qcmult, Q2Qc. cbn [this].
  rewrite Qred_correct.
  destruct (Qlt_le_dec x 0) as [Hneg|Hpos].
  - assert (Heq : (x * x == (- x) * (- x))%Q) by ring. rewrite Heq.
    apply Qmult_le_0_compat; apply (Qopp_le_compat x 0), Qlt_le_weak, Hneg.
  - by apply Qmult_le_0_compat.
Qed.

Lemma Qc_inv_nonneg (x : Qc) : (0 ≤ x)%Qc -> (0 ≤ / x)%Qc.
Proof.
  rewrite !Qc_nonneg_Q. intros Hx. unfold Qcinv, Q2Qc. cbn [this].
  rewrite Qred_correct. by apply Qinv_le_0_compat.
Qed.

Lemma Qc_div_nonneg (x y : Qc) : (0 ≤ x)%Qc -> (0 ≤ y)%Qc -> (0 ≤ x / y)%Qc.
Proof.
  intros Hx Hy. unfold Qcdiv. by apply Qc_mult_nonneg, Qc_inv_nonneg.
Qed.

Lemma Qc_plus_nonneg (x y : Qc) : (0 ≤ x)%Qc -> (0 ≤ y)%Qc -> (0 ≤ x + y)%Qc.
Proof.
  intros Hx Hy. replace 0%Qc with (0 + 0)%Qc by ring.
  by apply Qcplus_le_compat.
Qed.

Lemma Qc_of_nat_nonneg n : (0 ≤ Qc_of_nat n)%Qc.
Proof.
  rewrite Qc_nonneg_Q. unfold Qc_of_nat, Q2Qc. cbn [this].
  rewrite Qred_correct. unfold Qle. cbn. lia.
Qed.

Lemma sum_list_nonneg l :
  Forall (fun x => (0 ≤ x)%Qc) l -> (0 ≤ sum_list l)%Qc.
Proof.
  induction 1 as [|x l Hx _ IH]; cbn.
  - apply Qcle_refl.
  - by apply Qc_plus_nonneg.
Qed.

Lemma nonneg_item t idx : nonneg_array t -> (0 ≤ item t idx)%Qc.
Proof.
  intros H. unfold item.
  destruct (values t !! ravel (shape t) idx) as [x|] eqn:Hx; cbn.
  - eapply Forall_lookup_1; [exact H|exact Hx].
  - apply Qcle_refl.
Qed.

Lemma nonneg_build ds sh dt f :
  (forall idx, (0 ≤ f idx)%Qc) -> nonneg_array (build ds sh dt f).
Proof.
  intros Hf. unfold nonneg_array, build. cbn. apply Forall_fmap, Forall_forall.
  intros idx _. apply Hf.
Qed.

Lemma nonneg_map_values f dt t :
  (forall x, (0 ≤ x)%Qc -> (0 ≤ f x)%Qc) ->
  nonneg_array t -> nonneg_array (map_values f dt t).
Proof.
  intros Hf Ht. unfold nonneg_array, map_values. cbn.
  apply Forall_fmap. eapply Forall_impl; [exact Ht|]. apply Hf.
Qed.

Lemma nonneg_square t : nonneg_array (square t).
Proof.
  unfold nonneg_array, square, map_values. cbn.
  apply Forall_fmap, Forall_forall. intros x _. apply Qc_square_nonneg.
Qed.

Lemma nonneg_binop_plus a b r w w' :
  binop Qcplus a b w = (Ok r, w') ->
  nonneg_array a -> nonneg_array b -> nonneg_array r.
Proof.
  unfold binop. destruct (sizes_agree a b); [|done].
  intros H Ha Hb. apply ret_Ok in H as [<- _]. apply nonneg_build.
  intros idx. apply Qc_plus_nonneg; by apply nonneg_item.
Qed.

Lemma Forall_group {V} (P : V -> Prop) sh fl oidx (f : list nat -> V) :
  (forall idx, P (f idx)) -> Forall P (group sh fl oidx f).
Proof.
  revert fl oidx f. induction sh as [|n sh IH]; intros [|r fl] oidx f Hf;
    cbn [group]; try by repeat constructor.
  destruct r.
  - apply Forall_bind, Forall_forall. intros i _. by apply IH.
  - destruct oidx as [|o oidx]; [constructor|]. by apply IH.
Qed.

Lemma nonneg_sum axes t r w w' :
  sum axes t w = (Ok r, w') -> nonneg_array t -> nonneg_array r.
Proof.
  unfold sum, reduce. intros H Ht. py_inv. subst. apply nonneg_build.
  intros oidx. apply sum_list_nonneg, Forall_group.
  intros idx. by apply nonneg_item.
Qed.

Lemma MeanVarStdCalculator_update_nonneg c s c' w w' :
  m2_nonneg c ->
  MeanVarStdCalculator.update c s w = (Ok c', w') ->
  m2_nonneg c'
  /\ MeanVarStdCalculator._tensor_id c' = MeanVarStdCalculator._tensor_id c
  /\ MeanVarStdCalculator._axes c' = MeanVarStdCalculator._axes c.
Proof.
  intros Hinv H. unfold MeanVarStdCalculator.update in H.
  apply bind_Ok in H as (t & w1 & _ & H).
  apply bind_Ok in H as (mean_b & w2 & _ & H).
  apply bind_Ok in H as (u & w3 & _ & H).
  apply bind_Ok in H as (n_b & w4 & _ & H).
  apply bind_Ok in H as (cc & w5 & _ & H).
  apply bind_Ok in H as (m2_b & w6 & Hm2b & H).
  apply bind_Ok in H as (u' & w7 & _ & H).
  apply nonneg_sum in Hm2b; [|apply nonneg_square].
  destruct (MeanVarStdCalculator._mean c) as [mean_a|].
  - apply bind_Ok in H as (x & w8 & _ & H).
    apply bind_Ok in H as (u2 & w9 & _ & H).
    apply bind_Ok in H as (d & w10 & _ & H).
    destruct (MeanVarStdCalculator._m2 c) as [m2_a|] eqn:Hm2a; [|done].
    apply bind_Ok in H as (sm & w11 & Hs & H).
    apply bind_Ok in H as (new_m2 & w12 & Hn & H).
    apply bind_Ok in H as (u3 & w13 & _ & H).
    apply ret_Ok in H as [<- _]. cbn. repeat split; try done.
    intros m2 [= <-].
    eapply nonneg_binop_plus; [exact Hn| |].
    + eapply nonneg_binop_plus; [exact Hs|by apply Hinv|done].
    + unfold div_scalar, scalar_mul.
      apply nonneg_map_values.
      { intros y Hy. apply Qc_div_nonneg; [done|]. apply Qc_of_nat_nonneg. }
      apply nonneg_map_values.
      { intros y Hy. apply Qc_mult_nonneg; [|done]. apply Qc_of_nat_nonneg. }
      apply nonneg_map_values.
      { intros y Hy. apply Qc_mult_nonneg; [|done]. apply Qc_of_nat_nonneg. }
      apply nonneg_square.
  - apply bind_Ok in H as (u2 & w8 & _ & H).
    apply ret_Ok in H as [<- _]. cbn. repeat split; try done.
    by intros m2 [= <-].
Qed.

(** X21: the dataset variance is never negative: whatever samples a new
    [MeanVarStdCalculator] was updated with, no element of the variance that
    [finalize] returns is below zero. *)
Theorem MeanVarStdCalculator_variance_nonneg sqrt tid axes samples c d v
    w w1 w2 :
  for_each samples (fun s c => MeanVarStdCalculator.update c s)
    (MeanVarStdCalculator.__init__ tid axes) w = (Ok c, w1) ->
  MeanVarStdCalculator.finalize sqrt c w1 = (Ok d, w2) ->
  d !! DatasetVar tid axes = Some v ->
  Forall (fun x => (0 ≤ x)%Qc) (values v).
Proof.
  intros Hloop Hfin Hv.
  assert (m2_nonneg c
          /\ MeanVarStdCalculator._tensor_id c = tid
          /\ MeanVarStdCalculator._axes c = axes) as (Hinv & Ht & Ha).
  { eapply (for_each_inv
              (fun c => m2_nonneg c
                        /\ MeanVarStdCalculator._tensor_id c = tid
                        /\ MeanVarStdCalculator._axes c = axes));
      [| |exact Hloop].
    - by repeat split.
    - intros s c0 wa c1 wb (Hi & Hti & Hai) Hu.
      destruct (MeanVarStdCalculator_update_nonneg _ _ _ _ _ Hi Hu)
        as (H1 & H2 & H3).
      split; [exact H1|]. split; congruence. }
  unfold MeanVarStdCalculator.finalize in Hfin.
  destruct (MeanVarStdCalculator._mean c) as [m|].
  - destruct (MeanVarStdCalculator._m2 c) as [m2|] eqn:Hm2; [|done].
    apply ret_Ok in Hfin as [<- _]. rewrite Ht, Ha in Hv.
    rewrite lookup_insert_ne, lookup_insert_eq in Hv by done.
    injection Hv as <-. unfold div_scalar.
    apply nonneg_map_values; [|by apply Hinv].
    intros y Hy. apply Qc_div_nonneg; [done|]. apply Qc_of_nat_nonneg.
  - apply ret_Ok in Hfin as [<- _]. by rewrite lookup_empty in Hv.
Qed.

Lemma MeanPercentilesCalculator_single_sample_witness :
  exists cd' vs,
    MeanPercentilesCalculator.update ex_percentiles_fresh ex_sample64 []
    = (Ok cd', [])
    /\ SamplePercentilesCalculator.compute
         (SamplePercentilesCalculator.mk [Qc_of_nat 50]
            [(Qc_of_nat 50 / Qc_of_nat 100)%Qc] None "raw") ex_sample64 []
       = (Ok (dict_zip (SamplePercentile "raw" None <$> [Qc_of_nat 50]) vs), [])
    /\ MeanPercentilesCalculator.finalize cd' []
       = (Ok (dict_zip (DatasetPercentile "raw" None <$> [Qc_of_nat 50]) vs),
          [] ++ [naive_warning]).
Proof.
  apply (MeanPercentilesCalculator_single_sample "raw" None [Qc_of_nat 50]
           (SamplePercentilesCalculator.mk [Qc_of_nat 50]
              [(Qc_of_nat 50 / Qc_of_nat 100)%Qc] None "raw")
           ex_percentiles_fresh ex_sample64 ex_tensor64 [] [] []).
  - vm_compute. reflexivity.
  - vm_compute. reflexivity.
  - vm_compute. reflexivity.
  - reflexivity.
  - reflexivity.
  - vm_compute. lia.
  - exact I.
Defined.

Lemma Crick_reserved_dimension_witness :
  CrickPercentilesCalculator.__init__ "raw" (Some ["_percentiles"])
    [Qc_of_nat 50] []
  = (Raise AssertionError,
     [] ++ ["Computing dataset percentiles with experimental 'crick' library."])
  /\ CrickPercentilesCalculator.update ex_env ex_crick_fresh
       ex_sample_reserved [] = (Raise AssertionError, []).
Proof.
  split.
  - apply (proj1 (Crick_reserved_dimension ex_env "raw" ["_percentiles"]
                    [Qc_of_nat 50] ex_crick_fresh ex_sample_reserved
                    ex_tensor_reserved [])).
    + vm_compute. reflexivity.
    + apply list_elem_of_here.
  - apply (proj2 (Crick_reserved_dimension ex_env "raw" ["_percentiles"]
                    [Qc_of_nat 50] ex_crick_fresh ex_sample_reserved
                    ex_tensor_reserved [])).
    + vm_compute. reflexivity.
    + apply list_elem_of_here.
Defined.

Lemma ex_mvs_twice_Ok :
  for_each [ex_sample; ex_sample2]
    (fun s c => MeanVarStdCalculator.update c s)
    (MeanVarStdCalculator.__init__ "raw" None) []
  = (Ok ex_mvs_twice, []).
Proof. vm_compute. reflexivity. Qed.

Lemma ex_mvs_twice_finalize : exists m v sd,
  MeanVarStdCalculator.finalize (sqrt_fn ex_env) ex_mvs_twice []
  = (Ok (<[DatasetStd "raw" None := sd]>
         (<[DatasetVar "raw" None := v]> {[ DatasetMean "raw" None := m ]})),
     []).
Proof.
  unfold MeanVarStdCalculator.finalize, ex_mvs_twice.
  cbn [MeanVarStdCalculator._mean MeanVarStdCalculator._m2
       MeanVarStdCalculator._n MeanVarStdCalculator._tensor_id
       MeanVarStdCalculator._axes].
  eexists _, _, _. rewrite run_ret. reflexivity.
Qed.

Lemma MeanVarStdCalculator_variance_nonneg_witness :
  exists m v sd,
    MeanVarStdCalculator.finalize (sqrt_fn ex_env) ex_mvs_twice []
    = (Ok (<[DatasetStd "raw" None := sd]>
           (<[DatasetVar "raw" None := v]> {[ DatasetMean "raw" None := m ]})),
       [])
    /\ Forall (fun x => (0 ≤ x)%Qc) (values v).
Proof.
  destruct ex_mvs_twice_finalize as (m & v & sd & Hfin). exists m, v, sd.
  split; [exact Hfin|].
  apply (MeanVarStdCalculator_variance_nonneg (sqrt_fn ex_env) "raw" None
           [ex_sample; ex_sample2] ex_mvs_twice _ v [] [] []
           ex_mvs_twice_Ok Hfin).
  rewrite lookup_insert_ne by done. apply lookup_insert_eq.
Defined.

(** ** The request as a set *)

Lemma split_measure_pure rm r w :
  split_measure rm r w = (Ok (split_pure rm r), w).
Proof.
  unfold split_pure.
  destruct rm; cbn [split_measure]; py_unfold; try done.
  all: rewrite bool_decide_eq_true_2 by set_solver; done.
Qed.

Lemma split_loop_foldl measures r w :
  for_each measures split_measure r w
  = (Ok (foldl (fun r rm => split_pure rm r) r measures), w).
Proof.
  revert r. induction measures as [|m l IH]; intros r; cbn [for_each foldl].
  - apply run_ret.
  - by rewrite run_bind, split_measure_pure, IH.
Qed.

Lemma Required_eq r1 r2 :
  required_sample_means r1 = required_sample_means r2 ->
  required_dataset_means r1 = required_dataset_means r2 ->
  required_sample_mean_var_std r1 = required_sample_mean_var_std r2 ->
  required_dataset_mean_var_std r1 = required_dataset_mean_var_std r2 ->
  required_sample_percentiles r1 = required_sample_percentiles r2 ->
  required_dataset_percentiles r1 = required_dataset_percentiles r2 ->
  r1 = r2.
Proof. destruct r1, r2. cbn. by intros -> -> -> -> -> ->. Qed.

Lemma setdefault_add_comm k1 n1 k2 n2 d :
  setdefault_add k1 n1 (setdefault_add k2 n2 d)
  = setdefault_add k2 n2 (setdefault_add k1 n1 d).
Proof.
  unfold setdefault_add. destruct (decide (k1 = k2)) as [->|Hne].
  - rewrite !lookup_insert_eq, !insert_insert_eq. cbn. f_equal. set_solver.
  - rewrite !lookup_insert_ne by done. by apply insert_insert_ne.
Qed.

Lemma setdefault_add_idemp k n d :
  setdefault_add k n (setdefault_add k n d) = setdefault_add k n d.
Proof.
  unfold setdefault_add. rewrite lookup_insert_eq, insert_insert_eq. cbn.
  f_equal. set_solver.
Qed.

Lemma split_pure_unfold rm r :
  split_pure rm r
  = match rm with
    | SampleMean _ _ =>
        mkRequired ({[rm]} ∪ required_sample_means r)
          (required_dataset_means r) (required_sample_mean_var_std r)
          (required_dataset_mean_var_std r) (required_sample_percentiles r)
          (required_dataset_percentiles r)
    | DatasetMean _ _ =>
        mkRequired (required_sample_means r)
          ({[rm]} ∪ required_dataset_means r)
          (required_sample_mean_var_std r)
          (required_dataset_mean_var_std r) (required_sample_percentiles r)
          (required_dataset_percentiles r)
    | SampleVar t a | SampleStd t a =>
        mkRequired (required_sample_means r) (required_dataset_means r)
          (list_to_set [SampleMean t a; SampleStd t a; SampleVar t a]
           ∪ required_sample_mean_var_std r)
          (required_dataset_mean_var_std r)
          (required_sample_percentiles r) (required_dataset_percentiles r)
    | DatasetVar t a | DatasetStd t a =>
        mkRequired (required_sample_means r) (required_dataset_means r)
          (required_sample_mean_var_std r)
          (list_to_set [DatasetMean t a; DatasetStd t a; DatasetVar t a]
           ∪ required_dataset_mean_var_std r)
          (required_sample_percentiles r) (required_dataset_percentiles r)
    | SamplePercentile t a n =>
        mkRequired (required_sample_means r) (required_dataset_means r)
          (required_sample_mean_var_std r) (required_dataset_mean_var_std r)
          (setdefault_add (t, a) n (required_sample_percentiles r))
          (required_dataset_percentiles r)
    | DatasetPercentile t a n =>
        mkRequired (required_sample_means r) (required_dataset_means r)
          (required_sample_mean_var_std r) (required_dataset_mean_var_std r)
          (required_sample_percentiles r)
          (setdefault_add (t, a) n (required_dataset_percentiles r))
    end.
Proof.
  unfold split_pure.
  destruct rm; cbn [split_measure]; py_unfold; try done.
  all: rewrite bool_decide_eq_true_2 by set_solver; done.
Qed.

Lemma split_pure_comm m1 m2 r :
  split_pure m1 (split_pure m2 r) = split_pure m2 (split_pure m1 r).
Proof.
  rewrite !split_pure_unfold.
  destruct m1, m2; cbn; apply Required_eq; cbn; try done;
    first [apply setdefault_add_comm | set_solver].
Qed.

Lemma split_pure_idemp m r :
  split_pure m (split_pure m r) = split_pure m r.
Proof.
  rewrite !split_pure_unfold.
  destruct m; cbn; apply Required_eq; cbn; try done;
    first [apply setdefault_add_idemp | set_solver].
Qed.

Section fold_set.
Context {A B : Type} `{EqDecision A} (f : B -> A -> B).
Hypothesis f_comm : forall b x y, f (f b x) y = f (f b y) x.
Hypothesis f_idemp : forall b x, f (f b x) x = f b x.

Lemma foldl_comm_Permutation l k b :
  l ≡ₚ k -> foldl f b l = foldl f b k.
Proof using f_comm.
  intros Hp. revert b.
  induction Hp as [|x l k _ IH|x y l|l k m _ IH1 _ IH2]; intros b; cbn.
  - done.
  - apply IH.
  - by rewrite f_comm.
  - by rewrite IH1.
Qed.

Lemma foldl_absorb l b x : x ∈ l -> foldl f (f b x) l = foldl f b l.
Proof using All.
  revert b. induction l as [|y l IH]; intros b Hx;
    [by apply elem_of_nil in Hx|].
  cbn. destruct (decide (x = y)) as [->|Hne].
  - by rewrite f_idemp.
  - apply elem_of_cons in Hx as [->|Hx]; [done|].
    by rewrite f_comm, IH.
Qed.

Lemma foldl_remove_dups l b : foldl f b (remove_dups l) = foldl f b l.
Proof using All.
  revert b. induction l as [|x l IH]; intros b; [done|].
  cbn [remove_dups foldl]. destruct (decide_rel elem_of x l) as [Hx|Hx].
  - by rewrite IH, foldl_absorb.
  - cbn [foldl]. apply IH.
Qed.

Lemma foldl_same_elements l k b :
  (forall x, x ∈ l <-> x ∈ k) -> foldl f b l = foldl f b k.
Proof using All.
  intros Hlk. rewrite <- (foldl_remove_dups l), <- (foldl_remove_dups k).
  apply foldl_comm_Permutation, NoDup_Permutation.
  - apply NoDup_remove_dups.
  - apply NoDup_remove_dups.
  - intros x. by rewrite !elem_of_remove_dups.
Qed.

End fold_set.

(** X22: the grouping loop of the planner reads the request as a set: for
    two requests with the same measures, in whatever order and however often
    each is listed, the loop returns, without a warning, the same groups:
    equal sets of mean and of mean, variance and standard deviation
    measures, and equal dictionaries from tensor and axes to the set of
    requested ranks. *)
Theorem required_groups_same_measures measures measures' w :
  (forall m, m ∈ measures <-> m ∈ measures') ->
  exists r,
    for_each measures split_measure (mkRequired ∅ ∅ ∅ ∅ ∅ ∅) w = (Ok r, w)
    /\ for_each measures' split_measure (mkRequired ∅ ∅ ∅ ∅ ∅ ∅) w
       = (Ok r, w).
Proof.
  intros Hsame. eexists. split; [apply split_loop_foldl|].
  rewrite split_loop_foldl.
  by rewrite (foldl_same_elements (fun r rm => split_pure rm r)
                (fun r x y => split_pure_comm y x r)
                (fun r x => split_pure_idemp x r) measures measures' _ Hsame).
Qed.

Lemma required_groups_same_measures_witness :
  exists r,
    for_each ex_measures split_measure (mkRequired ∅ ∅ ∅ ∅ ∅ ∅) [] = (Ok r, [])
    /\ for_each ex_measures_again split_measure (mkRequired ∅ ∅ ∅ ∅ ∅ ∅) []
       = (Ok r, []).
Proof.
  apply (required_groups_same_measures ex_measures ex_measures_again []).
  intros m. unfold ex_measures, ex_measures_again.
  rewrite !elem_of_cons, elem_of_nil. tauto.
Defined.
